(** * parser.py: spreadsheet extraction, record store and report

    A shallow embedding of [src/parser.py]: the numeric coercion [as_int],
    the [ReportTable] store and the [SheetParser] extractor, with the parts
    of the interpreter and of the spreadsheet and database libraries that
    the program relies on.

    Conventions.
    - A Python [str] is a [string] whose characters are the code points
      0..255; text is processed as [list ascii].
    - Python integers are [Z]; rows and columns of a sheet are [positive]
      (the spreadsheet library numbers them from 1).
    - A generator is its finite trace: the items it yields, and how it
      ends (exhausted, or an exception raised after the last item).

    Limits of the model.
    - Characters beyond code point 255 are not represented.
    - Integers are unbounded and converted to and from text without the
      interpreter's limit of 4300 digits; statements that depend on it
      carry the limit as a hypothesis ([printable], or a bound on the
      number of trailing digits).
    - [int] strips the code points 28..31 like the other white space,
      which the interpreter does only in a text with a character beyond
      code point 127; the statements on [as_int] leave out the texts that
      end in white space.
    - Column letters are continued past ZZZ, where the spreadsheet library
      stops; a coordinate is read as letters followed by a row number, so
      the forms with [$] and the row and column lookups are errors here.
      Statements on the exceptions of the walk take column names of one to
      three letters.
    - [%Y] is written with four digits, which the interpreter does on
      every platform only from the year 1000 on; statements on the stored
      date text take dates of the years 1000 to 9999 ([four_digit_year]).
    - A database holds tables only: a view or an index with the name of
      the table, which makes the engine refuse [_create], is not
      represented. A NUL in a statement is refused with [ValueError],
      where later versions of the interpreter raise another exception.
    - The alias of a field is not parsed: it is taken as a name. The
      engine reads any text there as part of the statement; statements on
      selections take aliases of one word ([word_alias]).
    - The database engine is modelled for the statements of the program
      with literal values; other statements are marked [NotModelled]. *)

From Stdlib Require Import ZArith List Ascii String Lia Bool.
From Stdlib Require Import DecimalString DecimalPos DecimalZ DecimalNat.
From stdpp Require Import gmap strings list fin_maps.

Local Open Scope Z_scope.

(** ** Exceptions and results

    [NotModelled] is not an exception of the program: it marks a statement
    that lies outside the part of the database engine's language that is
    modelled below, where the model does not say what the engine does. *)

Inductive exn :=
| TypeError
| ValueError
| OverflowError
| OperationalError
| NotModelled.

Inductive result (A : Type) :=
| Ok (a : A)
| Raise (e : exn).
Arguments Ok {A} a.
Arguments Raise {A} e.

#[export] Instance result_ret : MRet result := @Ok.
#[export] Instance result_bind : MBind result := fun A B k r =>
  match r with
  | Ok a => k a
  | Raise e => Raise e
  end.

(** ** Python text *)

Module Py.

Abbreviation text := (list ascii).

Definition code (c : ascii) : N := N_of_ascii c.

Definition between (lo hi : N) (c : ascii) : bool :=
  ((lo <=? code c) && (code c <=? hi))%N.

Definition LF : ascii := ascii_of_N 10.
Definition quote : ascii := ascii_of_N 39.
Definition NUL : ascii := ascii_of_N 0.

(** [\d] on code points below 256: the ten ASCII digits. *)
Definition isdigit (c : ascii) : bool := between 48 57 c.

(** [str.isspace] below 256, the characters [int()] strips. *)
Definition isspace (c : ascii) : bool :=
  between 9 13 c || between 28 32 c || (code c =? 133)%N || (code c =? 160)%N.

Definition isalpha_ascii (c : ascii) : bool := between 65 90 c || between 97 122 c.

(** [\w] below 256: alphanumerics (in the sense of [str.isalnum]) and the
    underscore. *)
Definition isword (c : ascii) : bool :=
  isdigit c || isalpha_ascii c || (code c =? 95)%N
  || (code c =? 170)%N || between 178 179 c || (code c =? 181)%N
  || between 185 186 c || between 188 190 c
  || between 192 214 c || between 216 246 c || between 248 255 c.

(** [str.lower] below 256. *)
Definition lower_char (c : ascii) : ascii :=
  if between 65 90 c || (between 192 222 c && negb (code c =? 215)%N)
  then ascii_of_N (code c + 32)
  else c.

Definition upper_char (c : ascii) : ascii :=
  if between 97 122 c then ascii_of_N (code c - 32) else c.

Definition lower (s : string) : string :=
  string_of_list_ascii (map lower_char (list_ascii_of_string s)).

Definition digit_val (c : ascii) : Z := Z.of_N (code c) - 48.

(** The number a run of decimal digits denotes; 0 for the empty run. *)
Definition digits_value (l : text) : Z :=
  fold_left (fun acc c => 10 * acc + digit_val c) l 0.

(** *** [str()] *)

Class Str (A : Type) := str : A -> string.

#[export] Instance str_string : Str string := fun s => s.
#[export] Instance str_Z : Str Z := fun z => NilZero.string_of_int (Z.to_int z).
#[export] Instance str_positive : Str positive :=
  fun p => NilEmpty.string_of_uint (Pos.to_uint p).
#[export] Instance str_bool : Str bool :=
  fun b => if b then "True"%string else "False"%string.
#[export] Instance str_option `{Str A} : Str (option A) :=
  fun o => match o with Some a => str a | None => "None"%string end.

(** *** [int(str)], base 10

    Surrounding whitespace is stripped; an optional sign is followed by
    decimal digits, where single underscores may separate digits. [None]
    stands for [ValueError]. *)

Fixpoint lstrip (l : text) : text :=
  match l with
  | c :: l' => if isspace c then lstrip l' else l
  | [] => []
  end.

Definition strip (l : text) : text := reverse (lstrip (reverse (lstrip l))).

Fixpoint int_digits (l : text) (acc : Z) : option Z :=
  match l with
  | [] => Some acc
  | c :: l' =>
      if isdigit c then int_digits l' (10 * acc + digit_val c)
      else if (code c =? 95)%N then
        match l' with
        | d :: l'' =>
            if isdigit d then int_digits l'' (10 * acc + digit_val d) else None
        | [] => None
        end
      else None
  end.

Definition int_unsigned (l : text) : option Z :=
  match l with
  | c :: l' => if isdigit c then int_digits l' (digit_val c) else None
  | [] => None
  end.

Definition int_text (l : text) : option Z :=
  match strip l with
  | c :: l' =>
      if (code c =? 45)%N then Z.opp <$> int_unsigned l'
      else if (code c =? 43)%N then int_unsigned l'
      else int_unsigned (c :: l')
  | [] => None
  end.

Definition int (s : string) : option Z := int_text (list_ascii_of_string s).

(** *** Cell values

    What a cell of a loaded sheet can hold. The program observes a value
    only through [is None] and [str()], so values other than integers,
    booleans and strings (floats, dates) are kept by their [str()] text. *)

Inductive pyobj :=
| PNone
| PBool (b : bool)
| PInt (z : Z)
| PStr (s : string)
| POther (repr : string).

#[export] Instance str_pyobj : Str pyobj := fun v =>
  match v with
  | PNone => "None"%string
  | PBool b => str b
  | PInt z => str z
  | PStr s => s
  | POther repr => repr
  end.

Definition is_None (v : pyobj) : bool :=
  match v with PNone => true | _ => false end.

End Py.
Export Py.

(** ** The two regular expressions of the program

    Both patterns are run the way a backtracking matcher runs them: the
    candidates of a repetition are listed in the order in which the matcher
    tries them and the first one after which the rest of the pattern
    matches is taken. *)

Module Re.

(** [$]: the end of the text, or the place before a line feed that ends
    it. *)
Definition at_dollar (l : text) : bool :=
  match l with
  | [] => true
  | [c] => (code c =? 10)%N
  | _ => false
  end.

(** The ways a greedy [p+] can match at the head of [l], longest first,
    each with the text left after it. *)
Fixpoint runs (p : ascii -> bool) (l : text) : list (text * text) :=
  match l with
  | c :: l' =>
      if p c then map (fun m => (c :: m.1, m.2)) (runs p l') ++ [([c], l')]
      else []
  | [] => []
  end.

(** [(\d+)$] at the head of [l]: the digits matched and the text left. *)
Definition digits_dollar (l : text) : option (text * text) :=
  List.find (fun m => at_dollar m.2) (runs isdigit l).

(** [.*?(\d+)$] at the head of [l]. The lazy [.*?] first takes nothing,
    then one character more at a time; [.] is any character but the line
    feed. *)
Fixpoint tail_match (l : text) : option (text * text) :=
  match digits_dollar l with
  | Some m => Some m
  | None =>
      match l with
      | c :: l' => if (code c =? 10)%N then None else tail_match l'
      | [] => None
      end
  end.

(** [re.sub(r'.*?(\d+)$', r'\1', l)]: scanning from the left, a match is
    replaced by its group and the scan goes on after it; a character at
    which no match starts is copied. Every step consumes a character, so
    [S (length l)] steps are enough. *)
Fixpoint sub_tail_steps (steps : nat) (l : text) : text :=
  match steps with
  | O => l
  | S steps' =>
      match tail_match l with
      | Some (g, rest) => g ++ sub_tail_steps steps' rest
      | None =>
          match l with
          | c :: l' => c :: sub_tail_steps steps' l'
          | [] => []
          end
      end
  end.

Definition sub_tail (s : string) : string :=
  let l := list_ascii_of_string s in
  string_of_list_ascii (sub_tail_steps (S (length l)) l).

(** [^(\w+)\d+$]: anchored at the start; the greedy [\w+] gives back
    characters until [\d+$] matches what is left. *)
Definition coord_match (l : text) : option (text * text) :=
  match List.find (fun m => bool_decide (is_Some (digits_dollar m.2)))
                  (runs isword l) with
  | Some (g, r) =>
      match digits_dollar r with
      | Some (_, rest) => Some (g, rest)
      | None => None
      end
  | None => None
  end.

(** [re.sub(r'^(\w+)\d+$', r'\1', s)] *)
Definition sub_coord (s : string) : string :=
  let l := list_ascii_of_string s in
  match coord_match l with
  | Some (g, rest) => string_of_list_ascii (g ++ rest)
  | None => s
  end.

End Re.

(** ** [as_int] *)

(** [int(re.sub(...))] raises [ValueError] on text that is not a number;
    the handler returns 0. *)
Definition as_int `{Str A} (value : A) : Z :=
  match Py.int (Re.sub_tail (str value)) with
  | Some n => n
  | None => 0
  end.

Fixpoint takewhile {A} (p : A -> bool) (l : list A) : list A :=
  match l with
  | a :: l' => if p a then a :: takewhile p l' else []
  | [] => []
  end.

(** The longest run of decimal digits that ends the text. *)
Definition trailing_digits (s : string) : text :=
  reverse (takewhile isdigit (reverse (list_ascii_of_string s))).

(** The two conditions under which [as_int] is the trailing run of digits:
    no line feed anywhere in the text, and no white space at its end. *)
Definition no_line_feed (s : string) : bool :=
  forallb (fun c => negb (code c =? 10)%N) (list_ascii_of_string s).

Definition ends_in_space (s : string) : bool :=
  match last (list_ascii_of_string s) with
  | Some c => isspace c
  | None => false
  end.

(** ** Dates

    A [datetime.date] is kept by its proleptic Gregorian ordinal: day 1 is
    0001-01-01 and day [MAXORDINAL] is 9999-12-31. *)

Module Date.

Record date := of_ordinal { ordinal : Z }.

Definition MAXORDINAL : Z := 3652059.

Definition valid (d : date) : Prop := 1 <= ordinal d <= MAXORDINAL.

(** [d + datetime.timedelta(days=n)]. [timedelta] refuses a magnitude over
    999999999 days and the sum must again be a date; either failure is an
    [OverflowError]. *)
Definition add_days (d : date) (n : Z) : result date :=
  if (Z.abs n <=? 999999999) && (1 <=? ordinal d + n) && (ordinal d + n <=? MAXORDINAL)
  then Ok (of_ordinal (ordinal d + n))
  else Raise OverflowError.

(** Year, month and day of an ordinal. *)
Definition ymd (d : date) : Z * Z * Z :=
  let z := ordinal d + 305 in
  let era := z / 146097 in
  let doe := z - era * 146097 in
  let yoe := (doe - doe / 1460 + doe / 36524 - doe / 146096) / 365 in
  let doy := doe - (365 * yoe + yoe / 4 - yoe / 100) in
  let mp := (5 * doy + 2) / 153 in
  let day := doy - (153 * mp + 2) / 5 + 1 in
  let month := if mp <? 10 then mp + 3 else mp - 9 in
  let year := yoe + era * 400 + (if month <=? 2 then 1 else 0) in
  (year, month, day).

Definition zfill (width : nat) (s : string) : string :=
  string_of_list_ascii (replicate (width - String.length s) "0"%char) +:+ s.

(** [d.strftime("%Y-%m-%d")], the year written with four digits. *)
Definition strftime_Ymd (d : date) : string :=
  let '(y, m, dd) := ymd d in
  zfill 4 (str y) +:+ "-" +:+ zfill 2 (str m) +:+ "-" +:+ zfill 2 (str dd).

End Date.
Export Date.

(** ** Worksheets

    A loaded sheet: the cells it keeps (those of the file, and a blank
    placeholder for every coordinate of a merged region but its anchor)
    and its merged regions. Reading a cell that the sheet does not keep
    gives a blank cell. *)

Module Sheet.

Record cell_range := {
  min_row : positive;
  min_col : positive;
  max_row : positive;
  max_col : positive
}.

Record worksheet := {
  cells : gmap (positive * positive) pyobj;
  merged_cells : list cell_range
}.

(** [sheet.cell(row, col).value] *)
Definition cell_value (ws : worksheet) (row col : positive) : pyobj :=
  default PNone (cells ws !! (row, col)).

(** [cell.value = v] *)
Definition set_value (ws : worksheet) (row col : positive) (v : pyobj)
  : worksheet :=
  {| cells := <[(row, col) := v]> (cells ws);
     merged_cells := merged_cells ws |}.

(** [sheet.max_row] and [sheet.max_column]: the largest row and column of
    a cell of the sheet, 1 for a sheet without cells. The placeholders of
    the merged regions count, whether [cells] lists them or not. *)
Definition largest (f : positive * positive -> positive)
    (g : cell_range -> positive) (ws : worksheet) : positive :=
  fold_right (fun r acc => Pos.max (g r) acc)
    (map_fold (fun k _ acc => Pos.max (f k) acc) 1%positive (cells ws))
    (merged_cells ws).

Definition sheet_max_row (ws : worksheet) : positive := largest fst max_row ws.

Definition sheet_max_column (ws : worksheet) : positive := largest snd max_col ws.

(** [coordinate in merged_range] *)
Definition in_range (r : cell_range) (row col : positive) : bool :=
  ((min_row r <=? row) && (row <=? max_row r)
   && (min_col r <=? col) && (col <=? max_col r))%positive.

(** [n] consecutive numbers from [lo]; [lo..hi] is Python's
    [range(lo, hi + 1)]. *)
Fixpoint count_from (lo : positive) (n : nat) : list positive :=
  match n with
  | O => []
  | S n' => lo :: count_from (Pos.succ lo) n'
  end.

Definition span (lo hi : positive) : list positive :=
  count_from lo (Pos.to_nat hi + 1 - Pos.to_nat lo).

(** *** Column letters

    [get_column_letter]: A..Z, AA..AZ, BA.. The library stops at ZZZ
    (column 18278), beyond what a sheet file can hold; the numbering is
    continued here past it. The division is run for as many steps as the
    index has bits. *)
Fixpoint column_letters (steps : nat) (col_idx : N) : text :=
  match steps with
  | O => []
  | S steps' =>
      if (col_idx =? 0)%N then []
      else
        let q := (col_idx / 26)%N in
        let r := (col_idx mod 26)%N in
        let '(q, r) := if (r =? 0)%N then ((q - 1)%N, 26%N) else (q, r) in
        column_letters steps' q ++ [ascii_of_N (r + 64)]
  end.

Definition get_column_letter (col : positive) : string :=
  string_of_list_ascii (column_letters (Pos.size_nat col) (Npos col)).

(** [column_index_from_string]: letters of either case, read in base 26
    with digits 1..26. *)
Definition letters_value (l : text) : N :=
  fold_left (fun acc c => (26 * acc + (code (upper_char c) - 64))%N) l 0%N.

Definition column_index_from_string (s : string) : option positive :=
  let l := list_ascii_of_string s in
  match l with
  | [] => None
  | _ =>
      if forallb isalpha_ascii l then
        match letters_value l with
        | Npos p => Some p
        | N0 => None
        end
      else None
  end.

(** [cell.coordinate] *)
Definition coordinate (row col : positive) : string :=
  get_column_letter col +:+ str row.

(** A coordinate is column letters followed by a row number, at least 1.
    [None] stands for the library's [ValueError]. *)
Fixpoint split_alpha (l : text) : text * text :=
  match l with
  | c :: l' =>
      if isalpha_ascii c then let '(a, r) := split_alpha l' in (c :: a, r)
      else ([], l)
  | [] => ([], [])
  end.

Definition coordinate_to_tuple (s : string) : option (positive * positive) :=
  let '(letters, digits) := split_alpha (list_ascii_of_string s) in
  match digits with
  | [] => None
  | _ =>
      if forallb isdigit digits then
        match column_index_from_string (string_of_list_ascii letters),
              digits_value digits with
        | Some col, Zpos row => Some (row, col)
        | _, _ => None
        end
      else None
  end.

(** [sheet[start:end]]: the rows of the rectangle, each a tuple of cells,
    a cell being known by its row and column. Both bounds are inclusive
    and a bound below its start gives no row, or empty rows. *)
Definition getitem_slice (start stop : string)
  : result (list (list (positive * positive))) :=
  match coordinate_to_tuple start, coordinate_to_tuple stop with
  | Some (r1, c1), Some (r2, c2) =>
      Ok (map (fun r => map (fun c => (r, c)) (span c1 c2)) (span r1 r2))
  | _, _ => Raise ValueError
  end.

(** [sheet[coordinate]] for one cell. *)
Definition getitem (coord : string) : result (positive * positive) :=
  match coordinate_to_tuple coord with
  | Some rc => Ok rc
  | None => Raise ValueError
  end.

End Sheet.
Export Sheet.

(** ** Generators

    What a consumer sees of a generator that it runs to its end: the items
    yielded, then either exhaustion or the exception that ended it. *)

Record trace (A : Type) := {
  yielded : list A;
  ending : option exn
}.
Arguments yielded {A} t.
Arguments ending {A} t.

Definition exhausted {A} : trace A := {| yielded := []; ending := None |}.
Definition raising {A} (e : exn) : trace A := {| yielded := []; ending := Some e |}.
Definition yield {A} (a : A) (rest : trace A) : trace A :=
  {| yielded := a :: yielded rest; ending := ending rest |}.

(** ** [SheetParser] *)

Module SheetParser.

Record t := {
  sheet : worksheet;
  max_column : option string
}.

(** [is_merged]: the loop over the merged regions of the sheet. *)
Fixpoint is_merged_in (ranges : list cell_range) (row col : positive) : bool :=
  match ranges with
  | merged_range :: rest =>
      if in_range merged_range row col then true else is_merged_in rest row col
  | [] => false
  end.

Definition is_merged (ws : worksheet) (row col : positive) : bool :=
  is_merged_in (merged_cells ws) row col.

(** The test that ends the loop of [__init__] at a column. *)
Definition stops (ws : worksheet) (col : positive) : bool :=
  is_None (cell_value ws 1 col) && negb (is_merged ws 1 col).

(** The loop of [__init__] over the columns [i + 1] of row 1, with the
    value [max_column] has so far. *)
Fixpoint scan_header (ws : worksheet) (columns : list positive)
    (max_column : option string) : option string :=
  match columns with
  | col :: rest =>
      if stops ws col
      then max_column
      else scan_header ws rest (Some (Re.sub_coord (coordinate 1 col)))
  | [] => max_column
  end.

(** [SheetParser(...)] on the sheet the workbook gave. *)
Definition init (ws : worksheet) : t :=
  {| sheet := ws;
     max_column := scan_header ws (span 1 (sheet_max_column ws)) None |}.

(** [col + str(row)]; adding a string to [None] is a [TypeError]. *)
Definition __coord (row : positive) (col : option string) : result string :=
  match col with
  | Some c => Ok (c +:+ str row)
  | None => Raise TypeError
  end.

Definition get_cell_value (self : t) (row col : positive)
    (default : option string) : option string :=
  let value := cell_value (sheet self) row col in
  if is_None value && is_merged (sheet self) row col
  then default
  else Some (lower (str value)).

(** The record type the generator yields:
    type, name, date, value, company identifier. *)
Definition DataTuple : Type := option string * option string * date * Z * Z.

Definition rec_type (r : DataTuple) : option string := r.1.1.1.1.
Definition rec_name (r : DataTuple) : option string := r.1.1.1.2.
Definition rec_date (r : DataTuple) : date := r.1.1.2.
Definition rec_value (r : DataTuple) : Z := r.1.2.
Definition rec_company (r : DataTuple) : Z := r.2.

(** The three header values carried from cell to cell. *)
Record carried := {
  c_type : option string;
  c_name : option string;
  c_date : option string
}.

Section Iter.
Variable self : t.
Variables type_row name_row date_row : positive.
Variable company_col : string.
Variable today : date.

(** The assignments at the head of the loop body. *)
Definition carry (h : carried) (col : positive) : carried :=
  {| c_type := get_cell_value self type_row col (c_type h);
     c_name := get_cell_value self name_row col (c_name h);
     c_date := get_cell_value self date_row col (c_date h) |}.

(** The loop body from the cell on, and the rest of the loop. The rows
    of the region are walked one after the other with the same three
    variables, so the loops run over the cells of all rows in order. *)
Fixpoint iter_cells (region : list (positive * positive)) (h : carried)
  : trace DataTuple :=
  match region with
  | (row, col) :: rest =>
      let h := carry h col in
      match __coord row (Some company_col) ≫= getitem with
      | Raise e => raising e
      | Ok (crow, ccol) =>
          match add_days today (as_int (c_date h)) with
          | Raise e => raising e
          | Ok d =>
              yield (c_type h, c_name h, d,
                     as_int (cell_value (sheet self) row col),
                     as_int (cell_value (sheet self) crow ccol))
                    (iter_cells rest h)
          end
      end
  | [] => exhausted
  end.
End Iter.

(** The value of the header variable of row [hrow] after the loop body has
    run for the columns [cols], from the value [d]. *)
Definition header_after (self : t) (hrow : positive) (cols : list positive)
    (d : option string) : option string :=
  fold_left (fun d col => get_cell_value self hrow col d) cols d.

(** The cells of [self.sheet[start:end]], row after row. *)
Definition region (self : t) (start_row : positive) (start_col : string)
  : result (list (positive * positive)) :=
  start ← __coord start_row (Some start_col);
  stop ← __coord (sheet_max_row (sheet self)) (max_column self);
  rows ← getitem_slice start stop;
  Ok (concat rows).

Definition iter (self : t) (start_row : positive) (start_col : string)
    (type_row name_row date_row : positive) (company_col : string)
    (today : date) : trace DataTuple :=
  match region self start_row start_col with
  | Raise e => raising e
  | Ok cells =>
      iter_cells self type_row name_row date_row company_col today cells
        {| c_type := None; c_name := None; c_date := None |}
  end.

(** [iter()] with the default parameters. *)
Definition iter_default (self : t) (today : date) : trace DataTuple :=
  iter self 4 "C" 1 2 3 "B" today.

End SheetParser.

(** ** The database engine

    The part of the engine that the statements of [ReportTable] use. A
    database keeps the rows of each of its tables; the only table that
    statements are run against is the one [_create] has made, with the
    five columns of [__fields]. *)

Module Sqlite.

(** Stored values. A REAL is not computed: it is kept as the integers it
    was read or summed from, in order. *)
Inductive sqlval :=
| SNull
| SInt (z : Z)
| SReal (terms : list Z)
| SText (s : string).

#[export] Instance sqlval_eq_dec : EqDecision sqlval.
Proof. solve_decision. Defined.

Abbreviation database := (gmap string (list (list sqlval))).

Definition int64 (z : Z) : bool := (- 2 ^ 63 <=? z) && (z <? 2 ^ 63).

(** *** Literals of a value list *)

Inductive token :=
| TString (s : text)
| TInteger (digits : text)
| TMinus
| TComma
| TOther (c : ascii).

Inductive lexing :=
| Tokens (ts : list token)
| Unterminated
| Unlexed.

Inductive lex_state :=
| LDefault
| LString (acc : text)
| LQuote (acc : text)
| LNumber (acc : text)
| LMinus.

Definition sql_space (c : ascii) : bool :=
  (code c =? 32)%N || between 9 10 c || between 12 13 c.

(** Characters that open a quoted identifier or a comment; these forms are
    not modelled. *)
Definition opens_unlexed (c : ascii) : bool :=
  (code c =? 34)%N || (code c =? 96)%N || (code c =? 91)%N || (code c =? 47)%N.

(** The tokenizer, as a machine over the characters. In a string literal
    two quotes in a row stand for one quote and a single quote ends the
    literal. [out] holds the tokens found so far, last first. *)
Fixpoint lex (st : lex_state) (out : list token) (l : text) : lexing :=
  let start c l' :=
    if sql_space c then lex LDefault out l'
    else if (code c =? 39)%N then lex (LString []) out l'
    else if isdigit c then lex (LNumber [c]) out l'
    else if (code c =? 45)%N then lex LMinus out l'
    else if (code c =? 44)%N then lex LDefault (TComma :: out) l'
    else if opens_unlexed c then Unlexed
    else lex LDefault (TOther c :: out) l' in
  let start_after t c l' :=
    if sql_space c then lex LDefault (t :: out) l'
    else if (code c =? 39)%N then lex (LString []) (t :: out) l'
    else if isdigit c then lex (LNumber [c]) (t :: out) l'
    else if (code c =? 45)%N then lex LMinus (t :: out) l'
    else if (code c =? 44)%N then lex LDefault (TComma :: t :: out) l'
    else if opens_unlexed c then Unlexed
    else lex LDefault (TOther c :: t :: out) l' in
  match l with
  | [] =>
      match st with
      | LDefault => Tokens (reverse out)
      | LString _ => Unterminated
      | LQuote acc => Tokens (reverse (TString acc :: out))
      | LNumber acc => Tokens (reverse (TInteger acc :: out))
      | LMinus => Tokens (reverse (TMinus :: out))
      end
  | c :: l' =>
      match st with
      | LDefault => start c l'
      | LString acc =>
          if (code c =? 39)%N then lex (LQuote acc) out l'
          else lex (LString (acc ++ [c])) out l'
      | LQuote acc =>
          if (code c =? 39)%N then lex (LString (acc ++ [c])) out l'
          else start_after (TString acc) c l'
      | LNumber acc =>
          if isdigit c then lex (LNumber (acc ++ [c])) out l'
          else start_after (TInteger acc) c l'
      | LMinus =>
          if (code c =? 45)%N then Unlexed
          else start_after TMinus c l'
      end
  end.

Inductive literal :=
| LText (s : text)
| LNum (z : Z).

Fixpoint split_commas (ts : list token) : list (list token) :=
  match ts with
  | [] => [[]]
  | TComma :: ts' => [] :: split_commas ts'
  | t :: ts' =>
      match split_commas ts' with
      | g :: gs => (t :: g) :: gs
      | [] => [[t]]
      end
  end.

Definition literal_of (ts : list token) : option literal :=
  match ts with
  | [TString s] => Some (LText s)
  | [TInteger d] => Some (LNum (digits_value d))
  | [TMinus; TInteger d] => Some (LNum (- digits_value d))
  | _ => None
  end.

Inductive affinity := TEXT | INTEGER.

(** What a column keeps of a literal. An integer literal outside 64 bits
    is read as a REAL. *)
Definition store (a : affinity) (v : literal) : option sqlval :=
  match a, v with
  | TEXT, LText s => Some (SText (string_of_list_ascii s))
  | INTEGER, LNum z => Some (if int64 z then SInt z else SReal [z])
  | _, _ => None
  end.

(** [INSERT INTO t VALUES (values)] for a table of the given columns: the
    row to add. A literal that never ends, or a list of literals of
    another length than the table, is an error of the engine; a list that
    is not made of text and integer literals for text and integer columns
    is not modelled. *)
Definition insert_row (columns : list affinity) (values : string)
  : result (list sqlval) :=
  match lex LDefault [] (list_ascii_of_string values) with
  | Unlexed => Raise NotModelled
  | Unterminated => Raise OperationalError
  | Tokens ts =>
      match mapM literal_of (split_commas ts) with
      | None => Raise NotModelled
      | Some vs =>
          if bool_decide (length vs = length columns) then
            match mapM (fun av => store av.1 av.2) (zip columns vs) with
            | Some r => Ok r
            | None => Raise NotModelled
            end
          else Raise OperationalError
      end
  end.

(** *** SUM *)

Definition not_null (v : sqlval) : bool :=
  match v with SNull => false | _ => true end.

Definition all_int (vs : list sqlval) : bool :=
  forallb (fun v => match v with SInt _ => true | _ => false end) vs.

Definition terms_of (v : sqlval) : option (list Z) :=
  match v with
  | SInt z => Some [z]
  | SReal ts => Some ts
  | _ => None
  end.

(** Integers are added in 64 bits and a sum that leaves them is an error
    of the engine. *)
Fixpoint sum_int (vs : list sqlval) (acc : Z) : result sqlval :=
  match vs with
  | SInt z :: vs' =>
      if int64 (acc + z) then sum_int vs' (acc + z) else Raise OperationalError
  | _ => Ok (SInt acc)
  end.

Definition sql_sum (vs : list sqlval) : result sqlval :=
  let vs := List.filter not_null vs in
  match vs with
  | [] => Ok SNull
  | _ =>
      if all_int vs then sum_int vs 0
      else
        match mapM terms_of vs with
        | Some tss => Ok (SReal (concat tss))
        | None => Raise NotModelled
        end
  end.

End Sqlite.
Export Sqlite.

(** ** [ReportTable] *)

Module ReportTable.

(** The columns of [__fields], in order. *)
Inductive column := type | name | date | value | company_id.

#[export] Instance column_eq_dec : EqDecision column.
Proof. solve_decision. Defined.

Definition column_name (c : column) : string :=
  match c with
  | type => "type"
  | name => "name"
  | date => "date"
  | value => "value"
  | company_id => "company_id"
  end.

Definition column_affinity (c : column) : affinity :=
  match c with
  | type | name | date => TEXT
  | value | company_id => INTEGER
  end.

Definition __fields : list column := [type; name; date; value; company_id].

Definition column_index (c : column) : nat :=
  match c with
  | type => 0
  | name => 1
  | date => 2
  | value => 3
  | company_id => 4
  end.

(** The fields of a query: a column or the sum of a column, with or
    without an alias; [str] gives the text that [select] writes into the
    statement. *)
Inductive expr :=
| Col (c : column)
| Sum (c : column).

Record field := {
  f_expr : expr;
  f_alias : option string
}.

#[export] Instance str_column : Str column := column_name.
#[export] Instance str_expr : Str expr := fun e =>
  match e with
  | Col c => str c
  | Sum c => "SUM(" +:+ str c +:+ ")"
  end.
#[export] Instance str_field : Str field := fun f =>
  match f_alias f with
  | Some a => str (f_expr f) +:+ " " +:+ a
  | None => str (f_expr f)
  end.

Fixpoint join (sep : string) (l : list string) : string :=
  match l with
  | [] => EmptyString
  | [s] => s
  | s :: l' => s +:+ sep +:+ join sep l'
  end.

(** The statements of the class. The values of an INSERT are the text
    that [append] has put together. *)
Inductive statement :=
| DropTableIfExists (table : string)
| CreateTableIfNotExists (table : string) (columns : list column)
| InsertValues (table : string) (values : string)
| Select (fields : list field) (table : string) (group_by : option (list column)).

Definition falsy (group_by : option (list column)) : bool :=
  match group_by with
  | None | Some [] => true
  | Some _ => false
  end.

(** The text of a statement, as the f-strings build it. *)
Definition sql (st : statement) : string :=
  match st with
  | DropTableIfExists t => "DROP TABLE IF EXISTS " +:+ t
  | CreateTableIfNotExists t cols =>
      "CREATE TABLE IF NOT EXISTS " +:+ t +:+ " ("
      +:+ join ", " (map (fun c => column_name c +:+ " "
                            +:+ match column_affinity c with
                                | TEXT => "TEXT"
                                | INTEGER => "INTEGER"
                                end +:+ " NOT NULL") cols)
      +:+ ")"
  | InsertValues t values => "INSERT INTO " +:+ t +:+ " VALUES (" +:+ values +:+ ")"
  | Select fields t group_by =>
      "SELECT " +:+ join ", " (map str fields) +:+ " FROM " +:+ t
      +:+ (if falsy group_by then EmptyString
           else " GROUP BY " +:+ join ", " (map str (default [] group_by)))
  end.

Record t := {
  conn : database;
  table : string
}.

(** The interpreter refuses a statement that holds a NUL character. *)
Definition has_nul (s : string) : bool :=
  existsb (fun c => (code c =? 0)%N) (list_ascii_of_string s).

(** [conn.execute(sql)] for the statements that change the database. *)
Definition execute (db : database) (st : statement) : result database :=
  if has_nul (sql st) then Raise ValueError
  else
    match st with
    | DropTableIfExists t => Ok (delete t db)
    | CreateTableIfNotExists t _ =>
        Ok (match db !! t with
            | Some _ => db
            | None => <[t := []]> db
            end)
    | InsertValues t values =>
        match db !! t with
        | None => Raise OperationalError
        | Some rows =>
            r ← insert_row (map column_affinity __fields) values;
            Ok (<[t := rows ++ [r]]> db)
        end
    | Select _ _ _ => Ok db
    end.

(** [_execute]: run the statement and commit. *)
Definition _execute (self : t) (st : statement) : result t :=
  db ← execute (conn self) st;
  Ok {| conn := db; table := table self |}.

Definition _create (self : t) : result t :=
  self ← _execute self (DropTableIfExists (table self));
  _execute self (CreateTableIfNotExists (table self) __fields).

(** [ReportTable(filename, table)]: [file] is what the database file holds
    when it is opened. *)
Definition init (file : database) (table : string) : result t :=
  _create {| conn := file; table := table |}.

Definition init_default (file : database) : result t := init file "report".

(** The text between the parentheses of the INSERT statement. *)
Definition values_sql (type name : option string) (date : Date.date)
    (value company_id : Z) : string :=
  let nl := String LF (string_of_list_ascii (replicate 12 " "%char)) in
  nl +:+ "'" +:+ str type +:+ "',"
  +:+ nl +:+ "'" +:+ str name +:+ "',"
  +:+ nl +:+ "'" +:+ strftime_Ymd date +:+ "',"
  +:+ nl +:+ str value +:+ ","
  +:+ nl +:+ str company_id
  +:+ String LF (string_of_list_ascii (replicate 8 " "%char)).

Definition append (self : t) (type name : option string) (date : Date.date)
    (value company_id : Z) : result t :=
  _execute self
    (InsertValues (table self) (values_sql type name date value company_id)).

(** *** Queries *)

Definition get (c : column) (r : list sqlval) : sqlval :=
  nth (column_index c) r SNull.

(** The rows of a group: rows fall into the same group when the grouping
    columns hold the same values; groups are kept in the order in which
    their first rows come. *)
Fixpoint add_to_group (key : list sqlval) (r : list sqlval)
    (groups : list (list sqlval * list (list sqlval)))
  : list (list sqlval * list (list sqlval)) :=
  match groups with
  | [] => [(key, [r])]
  | (k, rs) :: groups' =>
      if bool_decide (k = key) then (k, rs ++ [r]) :: groups'
      else (k, rs) :: add_to_group key r groups'
  end.

Definition group_rows (cols : list column) (rows : list (list sqlval))
  : list (list (list sqlval)) :=
  map snd (fold_left
             (fun groups r => add_to_group (map (fun c => get c r) cols) r groups)
             rows []).

(** A field over the rows of a group; a plain column is read from the
    first row, and is NULL without one. *)
Definition eval (rows : list (list sqlval)) (e : expr) : result sqlval :=
  match e with
  | Col c => Ok (match rows with r :: _ => get c r | [] => SNull end)
  | Sum c => sql_sum (map (get c) rows)
  end.

Definition is_aggregate (e : expr) : bool :=
  match e with Sum _ => true | Col _ => false end.

(** The name of a result column: the alias, or else the text of the
    field. *)
Definition result_name (f : field) : string :=
  match f_alias f with
  | Some a => a
  | None => str (f_expr f)
  end.

Fixpoint mapR {A B} (f : A -> result B) (l : list A) : result (list B) :=
  match l with
  | [] => Ok []
  | a :: l' => b ← f a; bs ← mapR f l'; Ok (b :: bs)
  end.

(** The result rows of a query over the rows of the table. Without
    GROUP BY, a query with an aggregate has one result row, over all the
    rows of the table, and a query without one has a result row for each
    row. *)
Definition query (fields : list field) (group_by : option (list column))
    (rows : list (list sqlval)) : result (list (list sqlval)) :=
  match fields with
  | [] => Raise OperationalError
  | _ =>
      let groups :=
        if falsy group_by then
          if existsb (fun f => is_aggregate (f_expr f)) fields then [rows]
          else map (fun r => [r]) rows
        else group_rows (default [] group_by) rows in
      mapR (fun g => mapR (fun f => eval g (f_expr f)) fields) groups
  end.

(** [dict(zip(names, row))]: a later value of a name replaces an earlier
    one. *)
Definition dict_zip (names : list string) (row : list sqlval)
  : gmap string sqlval :=
  fold_left (fun d kv => <[kv.1 := kv.2]> d) (zip names row) ∅.

(** [select]: the statement is run when the generator is started, so a
    failure of the statement ends the generator before its first item. *)
Definition select (self : t) (fields : list field)
    (group_by : option (list column)) : trace (gmap string sqlval) :=
  let st := Select fields (table self) group_by in
  if has_nul (sql st) then raising ValueError
  else
    match conn self !! table self with
    | None => raising OperationalError
    | Some rows =>
        match query fields group_by rows with
        | Raise e => raising e
        | Ok rs =>
            {| yielded := map (dict_zip (map result_name fields)) rs;
               ending := None |}
        end
    end.

End ReportTable.

(** ** The script *)

Import SheetParser.

(** The loop [for row in SheetParser(...).iter(): report.append( *row )]:
    the records are appended as they are yielded, and an exception of
    either side ends the script. *)
Fixpoint load (report : ReportTable.t) (records : list DataTuple)
    (ending : option exn) : result ReportTable.t :=
  match records with
  | (type, name, date, value, company_id) :: rest =>
      report ← ReportTable.append report type name date value company_id;
      load report rest ending
  | [] =>
      match ending with
      | Some e => Raise e
      | None => Ok report
      end
  end.

Definition report_fields : list ReportTable.field :=
  [ {| ReportTable.f_expr := ReportTable.Col ReportTable.date; ReportTable.f_alias := None |};
    {| ReportTable.f_expr := ReportTable.Col ReportTable.name; ReportTable.f_alias := Some "indicator"%string |};
    {| ReportTable.f_expr := ReportTable.Col ReportTable.type; ReportTable.f_alias := None |};
    {| ReportTable.f_expr := ReportTable.Sum ReportTable.value; ReportTable.f_alias := Some "total"%string |} ].

Definition report_group : list ReportTable.column :=
  [ReportTable.date; ReportTable.name; ReportTable.type].

(** The script up to the rows it prints: [ws] is the sheet of the input
    file, [file] what the output file holds before the run. *)
Definition main (ws : worksheet) (file : database) (today : Date.date)
  : result (trace (gmap string sqlval)) :=
  report ← ReportTable.init_default file;
  let records := iter_default (init ws) today in
  report ← load report (yielded records) (ending records);
  Ok (ReportTable.select report report_fields (Some report_group)).


(** ** Notions used in the statements *)

(** Texts. *)
Definition isupper (c : ascii) : bool := between 65 90 c.

Definition no_LF (l : text) : bool := forallb (fun c => negb (code c =? 10)%N) l.

Definition plain_end (l : text) : Prop :=
  forall x, last l = Some x -> isdigit x = false /\ (code x =? 10)%N = false.

Definition comma : ascii := ","%char.

Definition nl (n : nat) : text := LF :: replicate n " "%char.

(** Clean text: no quote and no NUL. *)
Definition clean_char (c : ascii) : bool :=
  negb (code c =? 39)%N && negb (code c =? 0)%N.

Definition clean (s : string) : bool :=
  forallb clean_char (list_ascii_of_string s).

Definition dash_or_digit (c : ascii) : bool := isdigit c || (code c =? 45)%N.

(** The digits of the absolute value of an integer. *)
Definition digits_of (z : Z) : text :=
  list_ascii_of_string (NilZero.string_of_uint (N.to_uint (Z.abs_N z))).


Definition letter_of_last (cols : list positive) (acc : option string)
  : option string :=
  match last cols with
  | Some p => Some (get_column_letter p)
  | None => acc
  end.

(** The cells of the rows [r1..r2] and columns [c1..c2], row after row. *)
Definition rectangle (r1 c1 r2 c2 : positive) : list (positive * positive) :=
  concat (map (fun r => map (fun c => (r, c)) (span c1 c2)) (span r1 r2)).

Definition header_fields (r : DataTuple) : option string * option string * date :=
  (rec_type r, rec_name r, rec_date r).

(** The store. *)

(** What an integer literal is stored as in an INTEGER column. *)
Definition stored_int (z : Z) : sqlval := if int64 z then SInt z else SReal [z].

(** The row that [append] adds for clean texts. *)
Definition stored_row (type name : string) (d : date) (value cid : Z)
  : list sqlval :=
  [SText type; SText name; SText (strftime_Ymd d);
   stored_int value; stored_int cid].

(** A record that the store keeps as it is: type and name are clean texts
    and the two integers fit in 64 bits. *)
Definition storable (r : DataTuple) : bool :=
  match rec_type r, rec_name r with
  | Some type, Some name =>
      clean type && clean name && int64 (rec_value r) && int64 (rec_company r)
  | _, _ => false
  end.

Definition row_of (r : DataTuple) : list sqlval :=
  [SText (str (rec_type r)); SText (str (rec_name r));
   SText (strftime_Ymd (rec_date r)); SInt (rec_value r); SInt (rec_company r)].

(** The result row of a record: its fields by column name, the date as
    text. *)
Definition record_dict (r : DataTuple) : gmap string sqlval :=
  {[ "type"%string := SText (str (rec_type r));
     "name"%string := SText (str (rec_name r));
     "date"%string := SText (strftime_Ymd (rec_date r));
     "value"%string := SInt (rec_value r);
     "company_id"%string := SInt (rec_company r) ]}.

(** [select('type', 'name', 'date', 'value', 'company_id')] *)
Definition all_columns : list ReportTable.field :=
  map (fun c => {| ReportTable.f_expr := ReportTable.Col c;
                   ReportTable.f_alias := None |}) ReportTable.__fields.

(** [select('SUM(value)')] *)
Definition sum_of_value : list ReportTable.field :=
  [ {| ReportTable.f_expr := ReportTable.Sum ReportTable.value;
       ReportTable.f_alias := None |} ].

(** The row of the report for the scenario. *)
Definition scenario_report (d : date) : gmap string sqlval :=
  {[ "date"%string := SText (strftime_Ymd d);
     "indicator"%string := SText "sales";
     "type"%string := SText "revenue";
     "total"%string := SInt 300 ]}.

(** ** Sheets and records of the scenarios *)

Definition sheet_of (l : list (positive * positive * pyobj))
    (merged : list cell_range) : worksheet :=
  {| cells := list_to_map (map (fun x => ((x.1.1, x.1.2), x.2)) l);
     merged_cells := merged |}.

Definition range_of (r1 c1 r2 c2 : positive) : cell_range :=
  {| min_row := r1; min_col := c1; max_row := r2; max_col := c2 |}.

(** The sheet of the end-to-end scenario, with the cells it lists and no
    other: "revenue" in C1, merged over C1:D1, "sales" and "10" under it
    in both columns, and the data row 4. *)
Definition scenario_sheet : worksheet :=
  sheet_of
    [ (1, 3, PStr "revenue"); (1, 4, PNone);
      (2, 3, PStr "sales"); (2, 4, PStr "sales");
      (3, 3, PStr "10"); (3, 4, PStr "10");
      (4, 2, PStr "7"); (4, 3, PStr "100"); (4, 4, PStr "200") ]%positive
    [ range_of 1 3 1 4 ].

(** The same sheet with values in A1 and B1. *)
Definition labelled_sheet (a1 b1 : pyobj) : worksheet :=
  set_value (set_value scenario_sheet 1 1 a1) 1 2 b1.

Definition labelled : worksheet := labelled_sheet (PStr "id") (PStr "company").

(** "revenue" in B1, merged over B1:D1: the anchor is left of the first
    data column. *)
Definition wide_merge_sheet : worksheet :=
  sheet_of
    [ (1, 1, PStr "id"); (1, 2, PStr "revenue"); (1, 3, PNone); (1, 4, PNone);
      (2, 3, PStr "sales"); (2, 4, PStr "sales");
      (3, 3, PStr "10"); (3, 4, PStr "10");
      (4, 2, PStr "7"); (4, 3, PStr "100"); (4, 4, PStr "200") ]%positive
    [ range_of 1 2 1 4 ].

(** "revenue" in C1, merged down over C1:C2, and two data rows. *)
Definition tall_merge_sheet : worksheet :=
  sheet_of
    [ (1, 1, PStr "id"); (1, 2, PStr "company");
      (1, 3, PStr "revenue"); (1, 4, PStr "cost");
      (2, 3, PNone); (2, 4, PStr "sales");
      (3, 3, PStr "10"); (3, 4, PStr "10");
      (4, 2, PStr "7"); (4, 3, PStr "100"); (4, 4, PStr "200");
      (5, 2, PStr "8"); (5, 3, PStr "1"); (5, 4, PStr "2") ]%positive
    [ range_of 1 3 2 3 ].



Definition a_day : date := of_ordinal 739924.

Definition ten_days_on : date := of_ordinal (ordinal a_day + 10).

Definition two_records : list DataTuple :=
  [ (Some "revenue", Some "sales", a_day, 100, 7);
    (Some "revenue", Some "sales", a_day, 200, 7) ]%string.

Definition big_record : DataTuple :=
  (Some "revenue", Some "sales", a_day, 2 ^ 63 + 1, 7)%string.

(** ** Notions used in the statements about quotes *)

(** The integers that [str()] writes: the interpreter refuses to convert
    an integer of more than 4300 digits. *)
Definition printable (z : Z) : bool := Z.abs z <? 10 ^ 4300.

(** Quiet text: no NUL, no semicolon, no dash and no character that opens
    a quoted identifier or a comment. Outside a string literal such a text
    neither ends the statement nor hides what follows it. *)
Definition quiet_char (c : ascii) : bool :=
  negb (code c =? 0)%N && negb (opens_unlexed c)
  && negb (code c =? 45)%N && negb (code c =? 59)%N.

Definition quiet (s : string) : bool :=
  forallb quiet_char (list_ascii_of_string s).

(** The number of quotes of a text. *)
Definition count_quotes (l : text) : nat :=
  length (List.filter (fun c => (code c =? 39)%N) l).

Definition quotes (s : string) : nat := count_quotes (list_ascii_of_string s).

(** Whether the tokenizer is within a string literal: in a state, and
    after a text read from within a literal or from outside one. *)
Definition in_string (st : lex_state) : bool :=
  match st with LString _ => true | _ => false end.

Definition inside (b : bool) (l : text) : bool :=
  fold_left (fun b c => if (code c =? 39)%N then negb b else b) l b.

(** No character that opens a quoted identifier or a comment, and no two
    dashes in a row. *)
Fixpoint no_comment (l : text) : bool :=
  match l with
  | c :: l' =>
      negb (opens_unlexed c)
      && negb ((code c =? 45)%N
               && match l' with d :: _ => (code d =? 45)%N | [] => false end)
      && no_comment l'
  | [] => true
  end.

(** Neither a dash nor a character that opens a quoted identifier or a
    comment. *)
Definition plain_char (c : ascii) : bool :=
  negb (opens_unlexed c) && negb (code c =? 45)%N.

(** A store as [ReportTable] makes it in a new file. *)
Definition new_report : ReportTable.t :=
  {| ReportTable.conn := {[ "report"%string := [] ]};
     ReportTable.table := "report" |}.

(** A file that holds a table of its own. *)
Definition old_file : database := {[ "notes"%string := [[SInt 1]] ]}.

(** ** Notions used in the statements about the report *)

(** What the report groups a record by: its date as text, its name and
    its type, as the store keeps them. *)
Definition report_key (r : DataTuple) : list sqlval :=
  [SText (strftime_Ymd (rec_date r)); SText (str (rec_name r));
   SText (str (rec_type r))].

Definition same_key (k : list sqlval) (r : DataTuple) : bool :=
  bool_decide (report_key r = k).

Definition sum_Z (l : list Z) : Z := fold_right Z.add 0 l.

(** The sum of the values of the records of a key. *)
Definition total_for (records : list DataTuple) (k : list sqlval) : Z :=
  sum_Z (map rec_value (List.filter (same_key k) records)).

(** The sum of the magnitudes of all values. *)
Definition abs_total (records : list DataTuple) : Z :=
  sum_Z (map (fun r => Z.abs (rec_value r)) records).

(** The row of the report for a key. *)
Definition report_row (records : list DataTuple) (k : list sqlval)
  : gmap string sqlval :=
  {[ "date"%string := nth 0 k SNull;
     "indicator"%string := nth 1 k SNull;
     "type"%string := nth 2 k SNull;
     "total"%string := SInt (total_for records k) ]}.

(** The rows of a table that the grouping columns give the key [k]. *)
Definition rows_of_key (cols : list ReportTable.column) (k : list sqlval)
    (rows : list (list sqlval)) : list (list sqlval) :=
  List.filter
    (fun r => bool_decide (map (fun c => ReportTable.get c r) cols = k)) rows.

(** Groups as the engine builds them: a key and its rows. *)
Definition groups_of (cols : list ReportTable.column) (rows : list (list sqlval))
    (groups : list (list sqlval * list (list sqlval)))
  : list (list sqlval * list (list sqlval)) :=
  fold_left
    (fun groups r =>
       ReportTable.add_to_group (map (fun c => ReportTable.get c r) cols) r groups)
    rows groups.

(** A field for each column, without alias. *)
Definition plain (cols : list ReportTable.column) : list ReportTable.field :=
  map (fun c => {| ReportTable.f_expr := ReportTable.Col c;
                   ReportTable.f_alias := None |}) cols.

(** What the groups hold after the rows [seen]: each key once, with every
    key the rows of the key, in their order, and a group for every
    row. *)
Definition grouped (cols : list ReportTable.column) (seen : list (list sqlval))
    (gs : list (list sqlval * list (list sqlval))) : Prop :=
  NoDup (map fst gs)
  /\ Forall (fun g => g.2 <> [] /\ g.2 = rows_of_key cols g.1 seen) gs
  /\ forall r, r ∈ seen -> map (fun c => ReportTable.get c r) cols ∈ map fst gs.

(** ** Further notions and sheets used in the statements *)

(** A cell within the rows and columns of one of the merged regions of
    the sheet. *)
Definition within_merged (ws : worksheet) (row col : positive) : Prop :=
  exists r, r ∈ merged_cells ws
    /\ (min_row r <= row <= max_row r)%positive
    /\ (min_col r <= col <= max_col r)%positive.

(** The year of a date, and the dates of the years 1000 to 9999, whose
    year [strftime] writes with four digits on every platform. *)
Definition year (d : date) : Z := (ymd d).1.1.

Definition four_digit_year (d : date) : bool :=
  (1 <=? ordinal d) && (ordinal d <=? MAXORDINAL) && (1000 <=? year d).

(** An alias that is one word: letters, digits and underscores. Any other
    text after a field is read by the engine as part of the statement. *)
Definition identifier (s : string) : bool :=
  forallb (fun c => isalpha_ascii c || isdigit c || (code c =? 95)%N)
    (list_ascii_of_string s).

Definition word_alias (f : ReportTable.field) : bool :=
  match ReportTable.f_alias f with
  | Some a => identifier a
  | None => true
  end.

(** "id" in A1, "revenue" in B1 merged over B1:C1, nothing in D1, and a
    value again in E1. *)
Definition merged_then_blank_sheet : worksheet :=
  sheet_of
    [ (1, 1, PStr "id"); (1, 2, PStr "revenue"); (1, 3, PNone);
      (1, 5, PStr "late");
      (4, 1, PStr "7"); (4, 2, PStr "100"); (4, 3, PStr "200");
      (4, 5, PStr "300") ]%positive
    [ range_of 1 2 1 3 ].

(** Nothing in B1 and nothing in D1. *)
Definition early_blank_sheet : worksheet :=
  sheet_of
    [ (1, 1, PStr "id"); (1, 3, PStr "revenue"); (1, 5, PStr "late");
      (4, 1, PStr "7"); (4, 3, PStr "100"); (4, 5, PStr "300") ]%positive
    [].

(** * Properties *)

(** ** Numeric coercion *)

(** *** Text lemmas *)

Ltac by_cases_on_char c :=
  destruct c as [[] [] [] [] [] [] [] []]; try reflexivity; try discriminate.

Lemma digit_not_space c : isdigit c = true -> isspace c = false.
Proof. by_cases_on_char c. Qed.

Lemma digit_not_sign c :
  isdigit c = true -> (code c =? 45)%N = false /\ (code c =? 43)%N = false.
Proof. by_cases_on_char c; intros _; split; reflexivity. Qed.

Lemma line_feed_space c : (code c =? 10)%N = true -> isspace c = true.
Proof. by_cases_on_char c. Qed.

Lemma line_feed_not_digit c : (code c =? 10)%N = true -> isdigit c = false.
Proof. by_cases_on_char c. Qed.

Lemma takewhile_split {A} (p : A -> bool) (l : list A) :
  exists rest, l = takewhile p l ++ rest
    /\ forallb p (takewhile p l) = true
    /\ forall x, head rest = Some x -> p x = false.
Proof.
  induction l as [|a l IH]; simpl.
  - exists []. split; [done|]. split; [done|]. intros x Hx. discriminate.
  - destruct (p a) eqn:Hp.
    + destruct IH as (rest & Hl & Hall & Hrest).
      exists rest. simpl. rewrite Hp, Hall. split; [by f_equal|]. done.
    + exists (a :: l). split; [done|]. split; [done|].
      intros x [= <-]. done.
Qed.

(** A text is what comes before its trailing digits, then these. *)
Lemma trailing_digits_split (s : string) :
  exists pre, list_ascii_of_string s = pre ++ trailing_digits s
    /\ forallb isdigit (trailing_digits s) = true
    /\ forall x, last pre = Some x -> isdigit x = false.
Proof.
  unfold trailing_digits.
  destruct (takewhile_split isdigit (reverse (list_ascii_of_string s)))
    as (rest & Hl & Hall & Hrest).
  exists (reverse rest). split; [|split].
  - rewrite <- reverse_app, <- Hl. by rewrite reverse_involutive.
  - rewrite forallb_forall in *. intros x Hx. apply Hall.
    apply list_elem_of_In. apply list_elem_of_In in Hx.
    by rewrite elem_of_reverse in Hx.
  - intros x Hx. apply Hrest. by rewrite last_reverse in Hx.
Qed.

(** *** The matcher *)

Lemma find_map_cons (c : ascii) (L : list (text * text)) :
  List.find (fun m => Re.at_dollar m.2) (map (fun m => (c :: m.1, m.2)) L)
  = (fun m => (c :: m.1, m.2)) <$> List.find (fun m => Re.at_dollar m.2) L.
Proof.
  induction L as [|[g r] L IH]; simpl; [done|].
  destruct (Re.at_dollar r); [done|]. apply IH.
Qed.

Lemma find_app_first {A} (p : A -> bool) (l1 l2 : list A) :
  List.find p (l1 ++ l2)
  = match List.find p l1 with Some a => Some a | None => List.find p l2 end.
Proof. induction l1 as [|a l1 IH]; simpl; [done|]. by destruct (p a). Qed.

Lemma digits_dollar_cons c l :
  Re.digits_dollar (c :: l)
  = if isdigit c then
      match Re.digits_dollar l with
      | Some (g, r) => Some (c :: g, r)
      | None => if Re.at_dollar l then Some ([c], l) else None
      end
    else None.
Proof.
  unfold Re.digits_dollar. simpl. destruct (isdigit c); [|done].
  rewrite find_app_first, find_map_cons.
  destruct (List.find _ (Re.runs isdigit l)) as [[g r]|]; simpl; [done|].
  by destruct (Re.at_dollar l).
Qed.

Lemma digits_dollar_sound l g r :
  Re.digits_dollar l = Some (g, r) ->
  l = g ++ r /\ forallb isdigit g = true /\ g <> [] /\ Re.at_dollar r = true.
Proof.
  revert g r. induction l as [|c l IH]; intros g r; [done|].
  rewrite digits_dollar_cons. destruct (isdigit c) eqn:Hc; [|done].
  destruct (Re.digits_dollar l) as [[g' r']|].
  - intros [= <- <-]. destruct (IH g' r' eq_refl) as (-> & Hg & _ & Hr).
    simpl. by rewrite Hc, Hg.
  - destruct (Re.at_dollar l) eqn:Hl; [|done].
    intros [= <- <-]. simpl. by rewrite Hc.
Qed.

Lemma digits_dollar_digits d :
  forallb isdigit d = true -> d <> [] -> Re.digits_dollar d = Some (d, []).
Proof.
  induction d as [|c d IH]; [done|]. simpl. intros Hd _.
  apply andb_true_iff in Hd as [Hc Hd].
  rewrite digits_dollar_cons, Hc. destruct d as [|c' d]; [done|].
  by rewrite IH.
Qed.

(** [(\d+)$] does not match a text whose last character is neither a digit
    nor a line feed. *)
Lemma digits_dollar_last l x :
  last l = Some x -> isdigit x = false -> (code x =? 10)%N = false ->
  Re.digits_dollar l = None.
Proof.
  intros Hlast Hx Hlf. destruct (Re.digits_dollar l) as [[g r]|] eqn:Hm; [|done].
  apply digits_dollar_sound in Hm as (-> & Hg & Hne & Hr).
  destruct r as [|y [|]]; [| |done].
  - rewrite app_nil_r in Hlast. apply last_Some_elem_of, list_elem_of_In in Hlast.
    rewrite forallb_forall in Hg. rewrite (Hg _ Hlast) in Hx. done.
  - rewrite last_snoc in Hlast. injection Hlast as ->. simpl in Hr. congruence.
Qed.

Lemma tail_match_eq l :
  Re.tail_match l
  = match Re.digits_dollar l with
    | Some m => Some m
    | None =>
        match l with
        | c :: l' => if (code c =? 10)%N then None else Re.tail_match l'
        | [] => None
        end
    end.
Proof. by destruct l. Qed.

Lemma tail_match_digits pre d :
  no_LF pre = true ->
  (forall x, last pre = Some x -> isdigit x = false) ->
  forallb isdigit d = true -> d <> [] ->
  Re.tail_match (pre ++ d) = Some (d, []).
Proof.
  intros Hlf Hlast Hd Hne. induction pre as [|c pre IH]; simpl app.
  - rewrite tail_match_eq. by rewrite digits_dollar_digits.
  - simpl in Hlf. apply andb_true_iff in Hlf as [Hc Hlf].
    rewrite tail_match_eq.
    destruct (Re.digits_dollar (c :: pre ++ d)) as [[g r]|] eqn:Hm.
    + exfalso. apply digits_dollar_sound in Hm as (Heq & Hg & _ & Hr).
      destruct (last (c :: pre)) as [x|] eqn:Hx; [|by rewrite last_cons in Hx; destruct (last pre)].
      specialize (Hlast x eq_refl).
      destruct r as [|y [|]]; [| |done].
      * rewrite app_nil_r in Heq. rewrite forallb_forall in Hg.
        assert (In x g) as Hin.
        { rewrite <- Heq. apply (in_or_app (c :: pre) d). left.
          by apply list_elem_of_In, last_Some_elem_of. }
        rewrite (Hg _ Hin) in Hlast. done.
      * assert (last (c :: pre ++ d) = Some y) as Hy by (rewrite Heq; apply last_snoc).
        change (c :: pre ++ d) with ((c :: pre) ++ d) in Hy.
        rewrite last_app in Hy.
        destruct (last d) as [z|] eqn:Hz; [|by apply last_is_Some in Hne as [? ?]; congruence].
        injection Hy as ->. apply last_Some_elem_of, list_elem_of_In in Hz.
        rewrite forallb_forall in Hd. specialize (Hd _ Hz).
        simpl in Hr. apply line_feed_not_digit in Hr. congruence.
    + apply negb_true_iff in Hc. rewrite Hc. apply IH; [done|].
      intros x Hx. apply Hlast. rewrite last_cons, Hx. done.
Qed.

Lemma sub_tail_steps_nil n : Re.sub_tail_steps n [] = [].
Proof. by destruct n. Qed.

Lemma plain_end_tail c l : plain_end (c :: l) -> plain_end l.
Proof. intros H x Hx. apply H. by rewrite last_cons, Hx. Qed.

Lemma tail_match_plain l : plain_end l -> Re.tail_match l = None.
Proof.
  induction l as [|c l IH]; intros Hp; [done|].
  rewrite tail_match_eq.
  destruct (last (c :: l)) as [x|] eqn:Hx; [|by rewrite last_cons in Hx; destruct (last l)].
  destruct (Hp x Hx) as [Hd Hlf].
  rewrite (digits_dollar_last _ x Hx Hd Hlf).
  destruct (code c =? 10)%N; [done|]. apply IH. by eapply plain_end_tail.
Qed.

Lemma sub_tail_steps_plain n l : plain_end l -> Re.sub_tail_steps n l = l.
Proof.
  revert l. induction n as [|n IH]; intros l Hp; [done|]. simpl.
  rewrite (tail_match_plain l Hp). destruct l as [|c l]; [done|].
  f_equal. apply IH. by eapply plain_end_tail.
Qed.

(** A match takes at least one character. *)
Lemma tail_match_shorter l g rest :
  Re.tail_match l = Some (g, rest) -> (length rest < length l)%nat.
Proof.
  induction l as [|c l IH]; [done|]. rewrite tail_match_eq.
  destruct (Re.digits_dollar (c :: l)) as [[g' r']|] eqn:Hm.
  - intros [= -> ->]. apply digits_dollar_sound in Hm as (Hl & _ & Hne & _).
    rewrite Hl, length_app. destruct g; [done|]. simpl. lia.
  - destruct (code c =? 10)%N; [done|]. intros H. specialize (IH H). simpl. lia.
Qed.

(** The substitution does not depend on the number of steps, once there
    are more steps than characters. *)
Lemma sub_tail_steps_enough n m l :
  (length l < n)%nat -> (length l < m)%nat ->
  Re.sub_tail_steps n l = Re.sub_tail_steps m l.
Proof.
  revert m l. induction n as [|n IH]; intros m l Hn Hm; [lia|].
  destruct m as [|m]; [lia|]. simpl.
  destruct (Re.tail_match l) as [[g rest]|] eqn:Ht.
  - apply tail_match_shorter in Ht. f_equal. apply IH; lia.
  - destruct l as [|c l]; [done|]. f_equal. simpl in *. apply IH; lia.
Qed.

(** *** [int] *)

Lemma int_digits_all l acc :
  forallb isdigit l = true ->
  int_digits l acc = Some (fold_left (fun a c => 10 * a + digit_val c) l acc).
Proof.
  revert acc. induction l as [|c l IH]; intros acc; [done|]. simpl.
  intros [Hc Hl]%andb_true_iff. rewrite Hc. by apply IH.
Qed.

Lemma lstrip_id l :
  (forall x, head l = Some x -> isspace x = false) -> lstrip l = l.
Proof. destruct l as [|c l]; [done|]. simpl. intros H. by rewrite (H c eq_refl). Qed.

Lemma lstrip_last l x :
  last l = Some x -> isspace x = false -> last (lstrip l) = Some x.
Proof.
  induction l as [|c l IH]; [done|]. simpl lstrip. intros Hl Hx.
  destruct (isspace c) eqn:Hc; [|done].
  apply IH; [|done]. rewrite last_cons in Hl.
  destruct (last l); [done|]. injection Hl as ->. congruence.
Qed.

Lemma strip_last l x :
  last l = Some x -> isspace x = false -> strip l = lstrip l.
Proof.
  intros Hl Hx. unfold strip. rewrite lstrip_id, reverse_involutive; [done|].
  intros y. rewrite head_reverse, (lstrip_last l x Hl Hx). by intros [= <-].
Qed.

Lemma int_text_digits d :
  forallb isdigit d = true -> d <> [] -> int_text d = Some (digits_value d).
Proof.
  intros Hd Hne. destruct d as [|c d]; [done|].
  pose proof Hd as Hd'. simpl in Hd'. apply andb_true_iff in Hd' as [Hc Hd'].
  unfold int_text.
  destruct (last (c :: d)) as [x|] eqn:Hx; [|by rewrite last_cons in Hx; destruct (last d)].
  assert (isdigit x = true) as Hxd.
  { rewrite forallb_forall in Hd. by apply Hd, list_elem_of_In, last_Some_elem_of. }
  rewrite (strip_last _ x Hx (digit_not_space x Hxd)).
  rewrite lstrip_id by (intros y [= <-]; by apply digit_not_space).
  destruct (digit_not_sign c Hc) as [-> ->].
  simpl. rewrite Hc. by rewrite int_digits_all.
Qed.

Lemma int_digits_last l :
  forall acc z x, int_digits l acc = Some z -> last l = Some x -> isdigit x = true.
Proof.
  induction l as [l IH] using (induction_ltof1 _ (@length ascii)).
  unfold ltof in IH. intros acc z x. destruct l as [|c l]; [done|]. simpl.
  destruct (isdigit c) eqn:Hc.
  - intros Hi Hl. rewrite last_cons in Hl. destruct (last l) as [y|] eqn:Hy.
    + injection Hl as ->. eapply (IH l); [simpl; lia|done..].
    + by injection Hl as <-.
  - destruct (code c =? 95)%N; [|done]. destruct l as [|d l]; [done|].
    destruct (isdigit d) eqn:Hd; [|done].
    intros Hi Hl. rewrite last_cons_cons in Hl.
    rewrite last_cons in Hl. destruct (last l) as [y|] eqn:Hy.
    + injection Hl as ->. eapply (IH l); [simpl; lia|done..].
    + by injection Hl as <-.
Qed.

Lemma int_unsigned_last l z x :
  int_unsigned l = Some z -> last l = Some x -> isdigit x = true.
Proof.
  destruct l as [|c l]; [done|]. simpl. destruct (isdigit c) eqn:Hc; [|done].
  intros Hi Hl. rewrite last_cons in Hl. destruct (last l) as [y|] eqn:Hy.
  - injection Hl as ->. by eapply int_digits_last.
  - by injection Hl as <-.
Qed.

(** [int] refuses a text that is empty or ends in a character that is
    neither a digit nor white space. *)
Lemma int_text_plain l :
  (forall x, last l = Some x -> isdigit x = false /\ isspace x = false) ->
  int_text l = None.
Proof.
  intros Hp. unfold int_text.
  destruct (last l) as [x|] eqn:Hx.
  - destruct (Hp x eq_refl) as [Hd Hs].
    rewrite (strip_last l x Hx Hs).
    pose proof (lstrip_last l x Hx Hs) as Hm.
    destruct (lstrip l) as [|c m]; [done|].
    assert (forall k z, last k = Some x -> int_unsigned k = Some z -> False) as Hno.
    { intros k z Hk Hi. pose proof (int_unsigned_last k z x Hi Hk). congruence. }
    assert (int_unsigned (c :: m) = None) as Hcm.
    { destruct (int_unsigned (c :: m)) eqn:Hi; [|done]. exfalso; eauto. }
    assert (int_unsigned m = None) as Hmn.
    { destruct m as [|c' m]; [done|]. rewrite last_cons_cons in Hm.
      destruct (int_unsigned (c' :: m)) eqn:Hi; [|done]. exfalso; eauto. }
    rewrite Hcm, Hmn. simpl. by repeat case_match.
  - apply last_None in Hx. subst l. done.
Qed.

Example as_int_abc123 : as_int (PStr "abc123") = 123.
Proof. reflexivity. Qed.

Example as_int_abc : as_int (PStr "abc") = 0.
Proof. reflexivity. Qed.

Example as_int_None : as_int PNone = 0.
Proof. reflexivity. Qed.

Example as_int_minus_five : as_int (PInt (-5)) = 5.
Proof. reflexivity. Qed.

Lemma as_int_of_trailing_digits {A} `{Str A} (v : A) :
  no_line_feed (str v) = true ->
  ends_in_space (str v) = false ->
  as_int v = digits_value (trailing_digits (str v)).
Proof.
  unfold no_line_feed, ends_in_space, as_int, Py.int, Re.sub_tail.
  rewrite list_ascii_of_string_of_list_ascii.
  destruct (trailing_digits_split (str v)) as (pre & Hl & Hd & Hpre).
  generalize dependent (trailing_digits (str v)). intros d Hl Hd.
  generalize dependent (list_ascii_of_string (str v)). intros l -> Hlf Hsp.
  destruct d as [|c d].
  - rewrite app_nil_r in *.
    assert (forall x, last pre = Some x ->
              isdigit x = false /\ isspace x = false) as Hp.
    { intros x Hx. rewrite Hx in Hsp. auto. }
    rewrite sub_tail_steps_plain, int_text_plain; [done|done|].
    intros x Hx. destruct (Hp x Hx) as [Hdx Hsx]. split; [done|].
    destruct (code x =? 10)%N eqn:E; [|done].
    apply line_feed_space in E. congruence.
  - rewrite forallb_app in Hlf. apply andb_true_iff in Hlf as [Hlf _].
    cbn [Re.sub_tail_steps].
    rewrite (tail_match_digits pre (c :: d)), sub_tail_steps_nil, app_nil_r by done.
    by rewrite int_text_digits.
Qed.

(** C3, amended. For a value whose string form has no line feed, does
    not end in white space and ends in at most 4300 decimal digits (the
    interpreter converts no longer run of digits), [as_int] gives the
    number that the trailing run of decimal digits of the string form
    denotes, and 0 when there is no such run; so for "abc123", "abc",
    [None] and -5. *)
Theorem as_int_trailing_digits :
  (forall (v : pyobj),
      no_line_feed (str v) = true ->
      ends_in_space (str v) = false ->
      (length (trailing_digits (str v)) <= 4300)%nat ->
      as_int v = digits_value (trailing_digits (str v)))
  /\ as_int (PStr "abc123") = 123
  /\ as_int (PStr "abc") = 0
  /\ as_int PNone = 0
  /\ as_int (PInt (-5)) = 5.
Proof.
  split; [intros v Hlf Hsp _; by apply as_int_of_trailing_digits|].
  repeat split; reflexivity.
Qed.

Lemma as_int_trailing_digits_witness :
  no_line_feed (str (PStr "12abc34")) = true
  /\ ends_in_space (str (PStr "12abc34")) = false
  /\ (length (trailing_digits (str (PStr "12abc34"))) <= 4300)%nat
  /\ trailing_digits (str (PStr "12abc34")) = ["3"; "4"]%char
  /\ as_int (PStr "12abc34") = 34.
Proof.
  assert (length (trailing_digits (str (PStr "12abc34"))) <= 4300)%nat as Hlen
    by (simpl; lia).
  split; [reflexivity|]. split; [reflexivity|]. split; [exact Hlen|].
  split; [reflexivity|].
  rewrite (proj1 as_int_trailing_digits (PStr "12abc34"));
    [reflexivity|reflexivity|reflexivity|exact Hlen].
Defined.

(** C3, as stated, fails: "5 " has no trailing digit and [as_int] gives 5,
    because [int] strips the space of the text that the pattern left as
    it was. *)
Lemma as_int_trailing_space :
  trailing_digits (str (PStr "5 ")) = []
  /\ as_int (PStr "5 ") = 5
  /\ as_int (PStr "5 ") <> digits_value (trailing_digits (str (PStr "5 "))).
Proof. split; [reflexivity|]. split; [reflexivity|]. discriminate. Qed.

(** ** Coordinates *)

(** *** Decimal text of a row number *)

Lemma list_ascii_of_string_app (a b : string) :
  list_ascii_of_string (a +:+ b) = list_ascii_of_string a ++ list_ascii_of_string b.
Proof. induction a as [|c a IH]; simpl; [done|]. by rewrite IH. Qed.

Lemma uint_digits (d : Decimal.uint) :
  forallb isdigit (list_ascii_of_string (NilEmpty.string_of_uint d)) = true.
Proof. induction d; simpl; auto. Qed.

Lemma uint_value_acc (d : Decimal.uint) (acc : positive) :
  fold_left (fun a c => 10 * a + digit_val c)
    (list_ascii_of_string (NilEmpty.string_of_uint d)) (Zpos acc)
  = Zpos (Pos.of_uint_acc d acc).
Proof.
  revert acc. induction d; intros acc; simpl; [done|..];
    (etransitivity; [|apply IHd]); f_equal; unfold digit_val, code; simpl; lia.
Qed.

Lemma uint_value (d : Decimal.uint) :
  digits_value (list_ascii_of_string (NilEmpty.string_of_uint d))
  = Z.of_N (Pos.of_uint d).
Proof.
  unfold digits_value. induction d; simpl; [done|apply IHd|..];
    apply (uint_value_acc d).
Qed.

Lemma str_positive_digits (p : positive) :
  let l := list_ascii_of_string (str p) in
  forallb isdigit l = true /\ l <> [] /\ digits_value l = Zpos p.
Proof.
  unfold str, str_positive. split; [apply uint_digits|]. split.
  - pose proof (Unsigned.to_uint_nonnil p) as Hn.
    destruct (Pos.to_uint p); try done.
  - by rewrite uint_value, DecimalPos.Unsigned.of_to.
Qed.

(** *** Column letters *)

Lemma isupper_facts c :
  isupper c = true ->
  isword c = true /\ isalpha_ascii c = true /\ isdigit c = false
  /\ upper_char c = c.
Proof. by_cases_on_char c; intros _; repeat split; reflexivity. Qed.

Lemma digit_not_alpha c : isdigit c = true -> isalpha_ascii c = false.
Proof. by_cases_on_char c. Qed.

Lemma digit_word c : isdigit c = true -> isword c = true.
Proof. by_cases_on_char c. Qed.

Lemma code_letter (r : N) :
  (1 <= r <= 26)%N ->
  code (ascii_of_N (r + 64)) = (r + 64)%N /\ isupper (ascii_of_N (r + 64)) = true.
Proof.
  intros Hr. unfold isupper, between, code.
  rewrite N_ascii_embedding by lia.
  split; [done|]. apply andb_true_iff. split; apply N.leb_le; lia.
Qed.

Lemma letters_value_snoc l c :
  letters_value (l ++ [c]) = (26 * letters_value l + (code (upper_char c) - 64))%N.
Proof. unfold letters_value. by rewrite fold_left_app. Qed.

Lemma column_letters_spec (steps : nat) (n : N) :
  (n < 2 ^ N.of_nat steps)%N ->
  letters_value (column_letters steps n) = n
  /\ forallb isupper (column_letters steps n) = true
  /\ (n <> 0%N -> column_letters steps n <> []).
Proof.
  revert n. induction steps as [|steps IH]; intros n Hn.
  - simpl in *. assert (n = 0%N) as -> by lia. done.
  - cbn [column_letters]. destruct (n =? 0)%N eqn:E.
    + apply N.eqb_eq in E as ->. done.
    + apply N.eqb_neq in E.
      rewrite Nat2N.inj_succ, N.pow_succ_r' in Hn.
      pose proof (N.div_mod n 26 ltac:(lia)) as Hdm.
      pose proof (N.mod_lt n 26 ltac:(lia)) as Hlt.
      set (q := (n / 26)%N) in *. set (r := (n mod 26)%N) in *.
      destruct (r =? 0)%N eqn:Er.
      * apply N.eqb_eq in Er. assert (q <> 0%N) by lia.
        destruct (IH (q - 1)%N ltac:(lia)) as (Hv & Hu & _).
        destruct (code_letter 26 ltac:(lia)) as [Hc Hup].
        rewrite letters_value_snoc, forallb_app, Hu, Hv.
        destruct (isupper_facts _ Hup) as (_ & _ & _ & ->).
        rewrite Hc. cbn [forallb]. rewrite Hup.
        split; [lia|]. split; [done|]. intros _. by destruct (column_letters steps (q - 1)).
      * apply N.eqb_neq in Er.
        destruct (IH q ltac:(lia)) as (Hv & Hu & _).
        destruct (code_letter r ltac:(lia)) as [Hc Hup].
        rewrite letters_value_snoc, forallb_app, Hu, Hv.
        destruct (isupper_facts _ Hup) as (_ & _ & _ & ->).
        rewrite Hc. cbn [forallb]. rewrite Hup.
        split; [lia|]. split; [done|]. intros _. by destruct (column_letters steps q).
Qed.

Lemma pos_lt_pow_size (p : positive) : (Npos p < 2 ^ N.of_nat (Pos.size_nat p))%N.
Proof.
  induction p as [p IH|p IH|]; cbn [Pos.size_nat];
    rewrite ?Nat2N.inj_succ, ?N.pow_succ_r'; simpl N.of_nat; try lia.
Qed.

Lemma get_column_letter_spec (col : positive) :
  let l := list_ascii_of_string (get_column_letter col) in
  letters_value l = Npos col /\ forallb isupper l = true /\ l <> [].
Proof.
  unfold get_column_letter. rewrite list_ascii_of_string_of_list_ascii.
  destruct (column_letters_spec _ _ (pos_lt_pow_size col)) as (Hv & Hu & Hne).
  split; [done|]. split; [done|]. by apply Hne.
Qed.

Lemma forallb_impl {A} (p q : A -> bool) (l : list A) :
  (forall a, p a = true -> q a = true) -> forallb p l = true -> forallb q l = true.
Proof. rewrite !forallb_forall. auto. Qed.

Lemma column_index_of_letter (col : positive) :
  column_index_from_string (get_column_letter col) = Some col.
Proof.
  destruct (get_column_letter_spec col) as (Hv & Hu & Hne).
  unfold column_index_from_string.
  destruct (list_ascii_of_string (get_column_letter col)) as [|c l] eqn:E; [done|].
  rewrite (forallb_impl isupper isalpha_ascii) by (done || intros a Ha; apply isupper_facts, Ha).
  by rewrite Hv.
Qed.

(** *** Coordinates *)

Lemma split_alpha_app (a d : text) :
  forallb isalpha_ascii a = true ->
  (forall x, head d = Some x -> isalpha_ascii x = false) ->
  split_alpha (a ++ d) = (a, d).
Proof.
  intros Ha Hd. induction a as [|c a IH]; simpl.
  - destruct d as [|x d]; [done|]. simpl. by rewrite (Hd x eq_refl).
  - simpl in Ha. apply andb_true_iff in Ha as [Hc Ha]. by rewrite Hc, IH.
Qed.

(** A column name followed by a row number is read back as that column
    and row. *)
Lemma coordinate_to_tuple_coord (col_name : string) (col row : positive) :
  column_index_from_string col_name = Some col ->
  coordinate_to_tuple (col_name +:+ str row) = Some (row, col).
Proof.
  intros Hcol. unfold coordinate_to_tuple.
  destruct (str_positive_digits row) as (Hd & Hne & Hv). cbn zeta in *.
  rewrite list_ascii_of_string_app, split_alpha_app.
  - destruct (list_ascii_of_string (str row)) as [|x d] eqn:E; [done|].
    rewrite Hd, string_of_list_ascii_of_string, Hcol, Hv. done.
  - unfold column_index_from_string in Hcol.
    destruct (list_ascii_of_string col_name); [done|].
    by destruct (forallb isalpha_ascii (a :: l)).
  - intros x Hx. apply digit_not_alpha.
    destruct (list_ascii_of_string (str row)) as [|y d]; [done|].
    injection Hx as <-. simpl in Hd. by apply andb_true_iff in Hd as [? _].
Qed.

Lemma coordinate_to_tuple_coordinate (row col : positive) :
  coordinate_to_tuple (coordinate row col) = Some (row, col).
Proof. apply coordinate_to_tuple_coord, column_index_of_letter. Qed.

(** *** The column of a coordinate of row 1 *)

Lemma runs_snoc (p : ascii -> bool) (l : text) (d : ascii) :
  l <> [] -> forallb p l = true -> p d = true ->
  exists rest, Re.runs p (l ++ [d]) = (l ++ [d], []) :: (l, [d]) :: rest.
Proof.
  intros Hne Hl Hd. induction l as [|a l IH]; [done|].
  simpl in Hl. apply andb_true_iff in Hl as [Ha Hl].
  simpl. rewrite Ha. destruct l as [|b l].
  - simpl. rewrite Hd. simpl. by eexists.
  - destruct (IH ltac:(done) Hl) as [rest ->]. simpl. by eexists.
Qed.

Lemma coord_match_letters (l : text) (d : ascii) :
  l <> [] -> forallb isword l = true -> isdigit d = true ->
  Re.coord_match (l ++ [d]) = Some (l, []).
Proof.
  intros Hne Hl Hd. unfold Re.coord_match.
  destruct (runs_snoc isword l d Hne Hl (digit_word d Hd)) as [rest ->].
  cbn [List.find snd]. 
  assert (Re.digits_dollar [d] = Some ([d], [])) as Hdd
    by (apply digits_dollar_digits; [simpl; by rewrite Hd|done]).
  assert (Re.digits_dollar [] = None) as Hnil by done.
  rewrite Hnil, Hdd.
  rewrite bool_decide_eq_false_2 by (intros [? ?]; done).
  rewrite bool_decide_eq_true_2 by done.
  by rewrite Hdd.
Qed.

Lemma sub_coord_coordinate (col : positive) :
  Re.sub_coord (coordinate 1 col) = get_column_letter col.
Proof.
  unfold Re.sub_coord, coordinate. rewrite list_ascii_of_string_app.
  destruct (get_column_letter_spec col) as (_ & Hu & Hne). cbn zeta in *.
  change (list_ascii_of_string (str 1%positive)) with ["1"%char].
  rewrite coord_match_letters; [| done | | done].
  - by rewrite app_nil_r, string_of_list_ascii_of_string.
  - eapply forallb_impl; [|exact Hu]. intros a Ha. apply isupper_facts, Ha.
Qed.

(** ** Ranges and the walk *)

(** *** Ranges of rows and columns *)

Lemma count_from_lookup (lo : positive) (n i : nat) (x : positive) :
  count_from lo n !! i = Some x <-> (i < n)%nat /\ Pos.to_nat x = (Pos.to_nat lo + i)%nat.
Proof.
  revert lo i. induction n as [|n IH]; intros lo i; simpl.
  - split; [done|lia].
  - destruct i as [|i]; simpl.
    + split; [intros [= ->]; lia|]. intros [_ Hx]. f_equal. lia.
    + rewrite IH. lia.
Qed.

Lemma count_from_length lo n : length (count_from lo n) = n.
Proof. revert lo. induction n as [|n IH]; intros lo; simpl; [done|]. by rewrite IH. Qed.

Lemma count_from_app (lo : positive) (a b : nat) :
  count_from lo (a + b)
  = count_from lo a ++ count_from (Pos.of_nat (Pos.to_nat lo + a)) b.
Proof.
  revert lo. induction a as [|a IH]; intros lo; simpl.
  - by rewrite Nat.add_0_r, Pos2Nat.id.
  - rewrite IH. do 3 f_equal. lia.
Qed.

Lemma count_from_take (lo : positive) (n j : nat) :
  (j <= n)%nat -> take j (count_from lo n) = count_from lo j.
Proof.
  intros Hj. replace n with (j + (n - j))%nat by lia.
  rewrite count_from_app, take_app_length'; [done|]. by rewrite count_from_length.
Qed.

Lemma elem_of_span (lo hi x : positive) :
  x ∈ span lo hi <-> (lo <= x <= hi)%positive.
Proof.
  unfold span. rewrite list_elem_of_lookup. split.
  - intros [i Hi]. apply count_from_lookup in Hi. lia.
  - intros Hx. exists (Pos.to_nat x - Pos.to_nat lo)%nat.
    apply count_from_lookup. lia.
Qed.

Lemma span_first (hi : positive) :
  exists rest, span 1 hi = 1%positive :: rest.
Proof.
  unfold span. destruct (Pos.to_nat hi + 1 - Pos.to_nat 1)%nat eqn:E; [lia|].
  simpl. by eexists.
Qed.

(** The first [S j] cells of a walk through rows: the rows before, then the
    start of the row of the cell. *)
Lemma concat_lookup_take {A} (L : list (list A)) (k : nat) (x : A) :
  concat L !! k = Some x ->
  exists i j l, L !! i = Some l /\ l !! j = Some x
    /\ take (S k) (concat L) = concat (take i L) ++ take (S j) l.
Proof.
  revert k. induction L as [|l L IH]; intros k Hk; [done|].
  simpl in Hk. destruct (decide (k < length l)%nat) as [Hlt|Hge].
  - rewrite lookup_app_l in Hk by done.
    exists 0%nat, k, l. split; [done|]. split; [done|].
    simpl. rewrite take_app_le by lia. done.
  - rewrite lookup_app_r in Hk by lia.
    destruct (IH _ Hk) as (i & j & l' & Hi & Hj & Ht).
    exists (S i), j, l'. split; [done|]. split; [done|].
    simpl. rewrite take_app_ge by lia.
    replace (S k - length l)%nat with (S (k - length l)) by lia.
    by rewrite Ht, app_assoc.
Qed.

(** *** The walk *)

Section Walk.
Variable self : t.
Variables type_row name_row date_row : positive.
Variable company_col : string.
Variable today : date.

Let carry := carry self type_row name_row date_row.
Let iter_cells := iter_cells self type_row name_row date_row company_col today.

Let header_after := header_after self.

Lemma carry_fold (cols : list positive) (h : carried) :
  fold_left carry cols h
  = {| c_type := header_after type_row cols (c_type h);
       c_name := header_after name_row cols (c_name h);
       c_date := header_after date_row cols (c_date h) |}.
Proof.
  revert h. induction cols as [|c cols IH]; intros h; simpl.
  - by destruct h.
  - by rewrite IH.
Qed.

(** The [k]-th record comes from the [k]-th cell of the region, with the
  header values carried over the cells up to it. *)
Lemma iter_cells_lookup (cells : list (positive * positive)) (h : carried)
    (k : nat) (r : DataTuple) :
  yielded (iter_cells cells h) !! k = Some r ->
  exists row col,
    cells !! k = Some (row, col)
    /\ let h' := fold_left carry (map snd (take (S k) cells)) h in
       rec_type r = c_type h' /\ rec_name r = c_name h'
       /\ add_days today (as_int (c_date h')) = Ok (rec_date r)
       /\ rec_value r = as_int (cell_value (sheet self) row col).
Proof.
  revert h k. induction cells as [|[row col] cells IH]; intros h k; [done|].
  cbn [iter_cells SheetParser.iter_cells].
  destruct (__coord row (Some company_col) ≫= getitem) as [[crow ccol]|e]; [|done].
  destruct (add_days today _) as [d|e] eqn:Hd; [|done].
  destruct k as [|k]; simpl.
  - intros [= <-]. exists row, col. done.
  - intros Hk. destruct (IH _ _ Hk) as (row' & col' & Hc & H').
    exists row', col'. done.
Qed.
End Walk.

(** ** The size of a sheet, the header scan and the region *)

(** *** The size of a sheet *)

Lemma fold_max_insert (f : positive * positive -> positive)
    (m : gmap (positive * positive) pyobj) (k : positive * positive) (v : pyobj) :
  map_fold (fun k _ acc => Pos.max (f k) acc) 1%positive (<[k := v]> m)
  = Pos.max (f k) (map_fold (fun k _ acc => Pos.max (f k) acc) 1%positive m).
Proof.
  assert (forall (m' : gmap (positive * positive) pyobj) w, m' !! k = None ->
            map_fold (fun k _ acc => Pos.max (f k) acc) 1%positive (<[k := w]> m')
            = Pos.max (f k) (map_fold (fun k _ acc => Pos.max (f k) acc) 1%positive m'))
    as Hnew.
  { intros m' w Hm'. apply (map_fold_insert_L (fun k _ acc => Pos.max (f k) acc)); [|done].
    intros. lia. }
  destruct (m !! k) as [w|] eqn:Hk.
  - rewrite <- (insert_delete_id m k w Hk) at 2.
    rewrite <- (insert_delete_eq m k v).
    rewrite !Hnew by apply lookup_delete_eq. lia.
  - by apply Hnew.
Qed.

Lemma fold_max_ge (f : positive * positive -> positive)
    (m : gmap (positive * positive) pyobj) (k : positive * positive) :
  is_Some (m !! k) ->
  (f k <= map_fold (fun k _ acc => Pos.max (f k) acc) 1%positive m)%positive.
Proof.
  intros [w Hk]. rewrite <- (insert_id m k w Hk) at 1. rewrite fold_max_insert. lia.
Qed.

Lemma largest_cell f g ws k :
  is_Some (cells ws !! k) -> (f k <= largest f g ws)%positive.
Proof.
  intros Hk. unfold largest. pose proof (fold_max_ge f _ k Hk) as Hm.
  induction (merged_cells ws) as [|r rs IH]; simpl; lia.
Qed.

Lemma largest_range f g ws r :
  r ∈ merged_cells ws -> (g r <= largest f g ws)%positive.
Proof.
  unfold largest. induction (merged_cells ws) as [|r' rs IH]; simpl.
  - intros H. by apply elem_of_nil in H.
  - intros [->|H]%elem_of_cons; [lia|]. specialize (IH H). lia.
Qed.

Lemma largest_set_value f g ws row col v :
  largest f g (set_value ws row col v) = Pos.max (f (row, col)) (largest f g ws).
Proof.
  unfold largest, set_value. simpl. rewrite fold_max_insert.
  induction (merged_cells ws) as [|r rs IH]; simpl; [done|]. rewrite IH. lia.
Qed.

(** Setting the value of a cell inside the sheet leaves its size. *)
Lemma sheet_size_set_value ws row col v :
  (row <= sheet_max_row ws)%positive -> (col <= sheet_max_column ws)%positive ->
  sheet_max_row (set_value ws row col v) = sheet_max_row ws
  /\ sheet_max_column (set_value ws row col v) = sheet_max_column ws.
Proof.
  unfold sheet_max_row, sheet_max_column. rewrite !largest_set_value. simpl. lia.
Qed.

Lemma cell_value_set_value ws row col v row' col' :
  cell_value (set_value ws row col v) row' col'
  = if decide ((row, col) = (row', col')) then v else cell_value ws row' col'.
Proof.
  unfold cell_value, set_value. simpl. rewrite lookup_insert.
  by destruct (decide ((row, col) = (row', col'))).
Qed.

Lemma is_merged_in_spec ranges row col :
  is_merged_in ranges row col = true
  <-> exists r, r ∈ ranges /\ in_range r row col = true.
Proof.
  induction ranges as [|r rs IH]; simpl.
  - split; [done|]. intros (r & Hr & _). by apply elem_of_nil in Hr.
  - destruct (in_range r row col) eqn:E.
    + split; [|done]. intros _. exists r. split; [left|done].
    + rewrite IH. split.
      * intros (r' & Hr' & Hin). exists r'. split; [by right|done].
      * intros (r' & [->|Hr']%elem_of_cons & Hin); [congruence|]. by exists r'.
Qed.

(** A cell of row 1 that does not end the loop of [__init__] lies inside
    the sheet. *)
Lemma not_stops_inside ws col :
  stops ws col = false -> (col <= sheet_max_column ws)%positive.
Proof.
  unfold stops. intros H. apply andb_false_iff in H as [H|H].
  - apply (largest_cell snd max_col ws (1%positive, col)).
    unfold cell_value in H. destruct (cells ws !! (1%positive, col)); [by eexists|done].
  - apply negb_false_iff in H. apply is_merged_in_spec in H as (r & Hr & Hin).
    pose proof (largest_range snd max_col ws r Hr) as Hle.
    unfold in_range in Hin. fold (sheet_max_column ws) in Hle.
    repeat (apply andb_true_iff in Hin as [Hin ?]).
    apply Pos.leb_le in H. lia.
Qed.

(** *** The loop of [__init__] *)

Lemma scan_header_run ws pre rest acc :
  Forall (fun c => stops ws c = false) pre ->
  scan_header ws (pre ++ rest) acc = scan_header ws rest (letter_of_last pre acc).
Proof.
  revert acc. induction pre as [|p pre IH]; intros acc Hpre; [done|].
  apply Forall_cons in Hpre as [Hp Hpre]. simpl. rewrite Hp, sub_coord_coordinate.
  rewrite IH by done. f_equal. unfold letter_of_last. rewrite last_cons.
  by destruct (last pre).
Qed.

Lemma last_count_from lo n :
  last (count_from lo (S n)) = Some (Pos.of_nat (Pos.to_nat lo + n)).
Proof.
  rewrite last_lookup, count_from_length. cbn [Nat.pred].
  apply count_from_lookup. lia.
Qed.

(** [max_column] is the letter of the column before the first cell of row 1
    that is blank and not merged. *)
Lemma scan_first_stop ws (c : positive) :
  (forall j, (j < c)%positive -> stops ws j = false) ->
  stops ws c = true ->
  max_column (init ws)
  = if decide (c = 1%positive) then None else Some (get_column_letter (Pos.pred c)).
Proof.
  intros Hbefore Hc. unfold init. cbn [max_column]. unfold span.
  set (M := sheet_max_column ws).
  assert (Pos.pred c <= M /\ (c = 1 -> 1 <= M))%positive as [HM _].
  { split; [|lia]. destruct (decide (c = 1%positive)) as [->|Hne]; [lia|].
    apply not_stops_inside, Hbefore. lia. }
  assert (Forall (fun j => stops ws j = false)
            (count_from 1 (Pos.to_nat c - 1))) as Hpre.
  { apply Forall_forall. intros j Hj. apply list_elem_of_lookup in Hj as [i Hi].
    apply count_from_lookup in Hi. apply Hbefore. lia. }
  assert (letter_of_last (count_from 1 (Pos.to_nat c - 1)) None
          = if decide (c = 1%positive) then None
            else Some (get_column_letter (Pos.pred c))) as Hlast.
  { destruct (decide (c = 1%positive)) as [->|Hne]; [done|].
    unfold letter_of_last.
    replace (Pos.to_nat c - 1)%nat with (S (Pos.to_nat c - 2)) by lia.
    rewrite last_count_from. do 2 f_equal. lia. }
  destruct (decide (c <= M)%positive) as [Hle|Hgt].
  - replace (Pos.to_nat M + 1 - Pos.to_nat 1)%nat
      with ((Pos.to_nat c - 1) + S (Pos.to_nat M - Pos.to_nat c))%nat by lia.
    rewrite count_from_app, scan_header_run by done.
    cbn [count_from scan_header].
    replace (Pos.of_nat (Pos.to_nat 1 + (Pos.to_nat c - 1))) with c by lia.
    by rewrite Hc.
  - replace (Pos.to_nat M + 1 - Pos.to_nat 1)%nat with (Pos.to_nat c - 1)%nat by lia.
    rewrite <- (app_nil_r (count_from _ _)), scan_header_run by done.
    done.
Qed.

Lemma max_column_index ws name :
  max_column (init ws) = Some name ->
  exists mc, name = get_column_letter mc /\ (mc <= sheet_max_column ws)%positive.
Proof.
  unfold init. cbn [max_column].
  assert (forall cols acc,
    (forall c, c ∈ cols -> (c <= sheet_max_column ws)%positive) ->
    scan_header ws cols acc = Some name ->
    acc = Some name \/
    exists mc, name = get_column_letter mc /\ (mc <= sheet_max_column ws)%positive) as H.
  { induction cols as [|c cols IH]; intros acc Hin; simpl; [auto|].
    destruct (stops ws c); [auto|]. rewrite sub_coord_coordinate. intros Hs.
    destruct (IH _ (fun c' Hc' => Hin c' (list_elem_of_further _ _ _ Hc')) Hs) as [[= <-]|?]; [|auto].
    right. exists c. split; [done|]. apply Hin. left. }
  intros Hs. destruct (H _ None (fun c Hc => proj2 (proj1 (elem_of_span _ _ _) Hc)) Hs); [done|auto].
Qed.

(** *** The region *)

Lemma region_cells ws start_row start_col cells :
  region (init ws) start_row start_col = Ok cells ->
  exists r1 c1 mc,
    coordinate_to_tuple (start_col +:+ str start_row) = Some (r1, c1)
    /\ max_column (init ws) = Some (get_column_letter mc)
    /\ (mc <= sheet_max_column ws)%positive
    /\ cells = rectangle r1 c1 (sheet_max_row ws) mc.
Proof.
  unfold region. unfold mbind, result_bind. cbn [__coord].
  destruct (max_column (init ws)) as [name|] eqn:Hmax; [|done].
  destruct (max_column_index ws name Hmax) as (mc & -> & Hmc).
  cbn [__coord sheet init]. unfold getitem_slice.
  unfold mbind, result_bind.
  rewrite (coordinate_to_tuple_coord (get_column_letter mc) mc)
    by apply column_index_of_letter.
  destruct (coordinate_to_tuple (start_col +:+ str start_row)) as [[r1 c1]|]; [|done].
  intros [= <-]. by exists r1, c1, mc.
Qed.

Lemma region_start ws start_row start_col start_index cells :
  column_index_from_string start_col = Some start_index ->
  region (init ws) start_row start_col = Ok cells ->
  exists mc,
    max_column (init ws) = Some (get_column_letter mc)
    /\ (mc <= sheet_max_column ws)%positive
    /\ cells = rectangle start_row start_index (sheet_max_row ws) mc.
Proof.
  intros Hs Hr. destruct (region_cells _ _ _ _ Hr) as (r1 & c1 & mc & Hp & Hm & Hle & ->).
  rewrite (coordinate_to_tuple_coord _ _ _ Hs) in Hp. injection Hp as <- <-.
  by exists mc.
Qed.

Lemma elem_of_rectangle r1 c1 r2 c2 row col :
  (row, col) ∈ rectangle r1 c1 r2 c2
  <-> (r1 <= row <= r2)%positive /\ (c1 <= col <= c2)%positive.
Proof.
  unfold rectangle. rewrite list_elem_of_In, in_concat. split.
  - intros (l & Hl & Hin). apply in_map_iff in Hl as (r & <- & Hr).
    apply in_map_iff in Hin as (c & [= -> ->] & Hc).
    apply list_elem_of_In, elem_of_span in Hr.
    apply list_elem_of_In, elem_of_span in Hc. done.
  - intros [Hr Hc]. exists (map (fun c => (row, c)) (span c1 c2)). split.
    + apply in_map_iff. exists row. split; [done|].
      by apply list_elem_of_In, elem_of_span.
    + apply in_map_iff. exists col. split; [done|].
      by apply list_elem_of_In, elem_of_span.
Qed.

(** ** Header values *)

(** *** Walking a rectangle *)

Lemma map_snd_row (row : positive) (cols : list positive) :
  map snd (map (fun c => (row, c)) cols) = cols.
Proof. induction cols as [|c cols IH]; simpl; [done|]. by rewrite IH. Qed.

Lemma map_lookup_Some {A B} (f : A -> B) (l : list A) (i : nat) (y : B) :
  map f l !! i = Some y -> exists x, l !! i = Some x /\ y = f x.
Proof.
  revert i. induction l as [|a l IH]; intros [|i]; simpl; try done.
  - intros [= <-]. by exists a.
  - apply IH.
Qed.

Lemma take_map {A B} (f : A -> B) (l : list A) (n : nat) :
  take n (map f l) = map f (take n l).
Proof.
  revert n. induction l as [|a l IH]; intros [|n]; simpl; try done.
  by rewrite IH.
Qed.

(** The columns walked up to a cell of a rectangle end with the columns of
    its own row, from the first column of the rectangle to the cell. *)
Lemma rectangle_prefix r1 c1 r2 c2 k row col :
  rectangle r1 c1 r2 c2 !! k = Some (row, col) ->
  (c1 <= col <= c2)%positive
  /\ exists pre, map snd (take (S k) (rectangle r1 c1 r2 c2))
       = pre ++ count_from c1 (S (Pos.to_nat col - Pos.to_nat c1)).
Proof.
  unfold rectangle. intros Hk.
  destruct (concat_lookup_take _ _ _ Hk) as (i & j & l & Hi & Hj & ->).
  apply map_lookup_Some in Hi as (row' & _ & ->).
  apply map_lookup_Some in Hj as (col' & Hj & [= -> ->]).
  unfold span in Hj. pose proof Hj as Hj'. apply count_from_lookup in Hj' as [Hlt Hcol].
  split; [lia|].
  eexists. rewrite map_app. f_equal.
  rewrite take_map, map_snd_row. unfold span. rewrite count_from_take by lia.
  f_equal. lia.
Qed.

Section Headers.
Variable self : t.

Lemma header_after_app hrow l1 l2 d :
  header_after self hrow (l1 ++ l2) d
  = header_after self hrow l2 (header_after self hrow l1 d).
Proof. unfold header_after. by rewrite fold_left_app. Qed.

(** Over blank cells of merged regions the value is carried unchanged. *)
Lemma header_after_placeholders hrow cols d :
  Forall (fun c => cell_value (sheet self) hrow c = PNone
                   /\ is_merged (sheet self) hrow c = true) cols ->
  header_after self hrow cols d = d.
Proof.
  revert d. induction cols as [|c cols IH]; intros d Hc; [done|].
  apply Forall_cons in Hc as [[Hv Hm] Hc]. cbn [header_after fold_left].
  unfold get_cell_value at 2. rewrite Hv, Hm. cbn [is_None andb].
  by apply IH.
Qed.

(** From a cell that holds a value on, over placeholders. *)
Lemma header_after_anchor hrow pre c n d :
  cell_value (sheet self) hrow c <> PNone ->
  Forall (fun c => cell_value (sheet self) hrow c = PNone
                   /\ is_merged (sheet self) hrow c = true)
         (count_from (Pos.succ c) n) ->
  header_after self hrow (pre ++ count_from c (S n)) d
  = Some (lower (str (cell_value (sheet self) hrow c))).
Proof.
  intros Hv Hrest. rewrite header_after_app. cbn [count_from].
  change (header_after self hrow (c :: ?l) ?d)
    with (header_after self hrow l (get_cell_value self hrow c d)).
  rewrite header_after_placeholders by done.
  unfold get_cell_value. by destruct (cell_value (sheet self) hrow c).
Qed.

End Headers.


(** C10. On a sheet whose cell A1 is blank and not merged, the constructor
    leaves [max_column] at [None], and [iter] with any parameters ends with
    a [TypeError], raised where the end coordinate is built, before it
    yields a record. *)
Theorem iter_type_error_without_first_header (ws : worksheet) :
  cell_value ws 1 1 = PNone ->
  is_merged ws 1 1 = false ->
  max_column (init ws) = None
  /\ (forall row, __coord row (max_column (init ws)) = Raise TypeError)
  /\ forall start_row start_col type_row name_row date_row company_col today,
       iter (init ws) start_row start_col type_row name_row date_row
            company_col today
       = {| yielded := []; ending := Some TypeError |}.
Proof.
  intros Hv Hm.
  assert (max_column (init ws) = None) as Hmax.
  { rewrite (scan_first_stop ws 1); [done|intros j Hj; lia|].
    unfold stops. by rewrite Hv, Hm. }
  split; [done|]. split; [by rewrite Hmax|].
  intros. unfold iter, region. by rewrite Hmax.
Qed.

(** ** The extractor *)

Lemma get_column_letter_inj (a b : positive) :
  get_column_letter a = get_column_letter b -> a = b.
Proof.
  intros H. pose proof (column_index_of_letter a) as Ha.
  rewrite H, column_index_of_letter in Ha. congruence.
Qed.

(** The test of the loop of [__init__], by the cell and the merged regions
    of the sheet. *)
Lemma is_merged_within ws row col :
  is_merged ws row col = true <-> within_merged ws row col.
Proof.
  unfold is_merged, within_merged. rewrite is_merged_in_spec. unfold in_range.
  split; intros (r & Hr & H); exists r; (split; [done|]).
  - rewrite !andb_true_iff, !Pos.leb_le in H. lia.
  - rewrite !andb_true_iff, !Pos.leb_le. lia.
Qed.

Lemma stops_spec ws col :
  stops ws col = true
  <-> cell_value ws 1 col = PNone /\ ~ within_merged ws 1 col.
Proof.
  unfold stops. rewrite andb_true_iff, negb_true_iff, <- is_merged_within.
  split; intros [Hv Hm]; split.
  - by destruct (cell_value ws 1 col).
  - by rewrite Hm.
  - by rewrite Hv.
  - by destruct (is_merged ws 1 col); [exfalso; apply Hm|].
Qed.

(** C4, amended. The constructor scans row 1 from column 1 and stops at
    the first cell that is blank and lies within no merged region;
    [max_column] is the letter of the column before it ([None] when that
    cell is in column A). When the first such cell is in column D (every
    cell of A1..C1 holds a value or lies within a merged region),
    [max_column] is C and no cell of column D or beyond is walked. *)
Theorem max_column_before_first_blank (ws : worksheet) (c : positive) :
  (forall j, (j < c)%positive ->
     cell_value ws 1 j <> PNone \/ within_merged ws 1 j) ->
  cell_value ws 1 c = PNone ->
  ~ within_merged ws 1 c ->
  max_column (init ws)
  = (if decide (c = 1%positive) then None else Some (get_column_letter (Pos.pred c)))
  /\ (c = 4%positive ->
      max_column (init ws) = Some "C"%string
      /\ forall start_row start_col cells row col,
           region (init ws) start_row start_col = Ok cells ->
           (row, col) ∈ cells -> (col < 4)%positive).
Proof.
  intros Hfilled Hblank Hunmerged.
  assert (forall j, (j < c)%positive -> stops ws j = false) as Hbefore.
  { intros j Hj. destruct (stops ws j) eqn:E; [|done].
    apply stops_spec in E as [Ev Em]. by destruct (Hfilled j Hj). }
  assert (stops ws c = true) as Hc by (by apply stops_spec).
  pose proof (scan_first_stop ws c Hbefore Hc) as Hmax.
  split; [done|]. intros ->. split; [done|].
  intros start_row start_col cells row col Hr Hin.
  destruct (region_cells _ _ _ _ Hr) as (r1 & c1 & mc & _ & Hm & _ & ->).
  rewrite Hmax in Hm. injection Hm as Hm.
  apply (get_column_letter_inj 3 mc) in Hm as <-.
  apply elem_of_rectangle in Hin. lia.
Qed.

Section Records.
Variable ws : worksheet.
Variables start_row type_row name_row date_row : positive.
Variables start_col company_col : string.
Variable today : date.

Let records :=
  yielded (iter (init ws) start_row start_col type_row name_row date_row
                company_col today).

(** The [k]-th record, its cell, and the header values it was made
  from. *)
Lemma record_lookup cells k r :
  region (init ws) start_row start_col = Ok cells ->
  records !! k = Some r ->
  exists row col,
    cells !! k = Some (row, col)
    /\ rec_type r = header_after (init ws) type_row (map snd (take (S k) cells)) None
    /\ rec_name r = header_after (init ws) name_row (map snd (take (S k) cells)) None
    /\ add_days today
         (as_int (header_after (init ws) date_row (map snd (take (S k) cells)) None))
       = Ok (rec_date r)
    /\ rec_value r = as_int (cell_value ws row col).
Proof.
  unfold records, iter. intros -> Hk.
  destruct (iter_cells_lookup _ _ _ _ _ _ _ _ _ _ Hk) as (row & col & Hc & H).
  cbn zeta in H. rewrite carry_fold in H. cbn [c_type c_name c_date] in H.
  by exists row, col.
Qed.


(** C2, amended. Take a merged region whose anchor holds a value, in a
  header row, with the other cells of that row of the region blank.
  When the walk starts at or before the anchor's column, every record
  made at a column of the region has the anchor's value, in lower
  case, as the header value of that row. *)
Theorem merged_header_from_anchor (region_ : cell_range) (start_index : positive) :
  region_ ∈ merged_cells ws ->
  (min_row region_ <= max_row region_)%positive ->
  let hrow := min_row region_ in
  let anchor := cell_value ws hrow (min_col region_) in
  anchor <> PNone ->
  (forall c, (min_col region_ < c <= max_col region_)%positive ->
             cell_value ws hrow c = PNone) ->
  column_index_from_string start_col = Some start_index ->
  (start_index <= min_col region_)%positive ->
  forall cells k row col r,
    region (init ws) start_row start_col = Ok cells ->
    cells !! k = Some (row, col) ->
    records !! k = Some r ->
    (min_col region_ <= col <= max_col region_)%positive ->
    (type_row = hrow -> rec_type r = Some (lower (str anchor)))
    /\ (name_row = hrow -> rec_name r = Some (lower (str anchor)))
    /\ (date_row = hrow ->
        add_days today (as_int (Some (lower (str anchor)))) = Ok (rec_date r)).
Proof.
  intros Hin Hrows hrow anchor Hanchor Hblank Hstart Hle cells k row col r Hr Hc Hk Hcol.
  destruct (record_lookup _ _ _ Hr Hk) as (row' & col' & Hc' & Ht & Hn & Hd & _).
  rewrite Hc in Hc'. injection Hc' as <- <-.
  destruct (region_start _ _ _ _ _ Hstart Hr) as (mc & _ & _ & ->).
  destruct (rectangle_prefix _ _ _ _ _ _ _ Hc) as (Hspan & pre & Hpre).
  assert (header_after (init ws) hrow
            (map snd (take (S k) (rectangle start_row start_index (sheet_max_row ws) mc)))
            None
          = Some (lower (str anchor))) as Hh.
  { rewrite Hpre.
    replace (S (Pos.to_nat col - Pos.to_nat start_index))
      with ((Pos.to_nat (min_col region_) - Pos.to_nat start_index)
            + S (Pos.to_nat col - Pos.to_nat (min_col region_)))%nat by lia.
    rewrite count_from_app, app_assoc.
    replace (Pos.of_nat (Pos.to_nat start_index
               + (Pos.to_nat (min_col region_) - Pos.to_nat start_index)))
      with (min_col region_) by lia.
    apply header_after_anchor; [done|].
    apply Forall_forall. intros c Hcin.
    apply list_elem_of_lookup in Hcin as [i Hi]. apply count_from_lookup in Hi.
    cbn [sheet init]. split; [apply Hblank; lia|].
    apply is_merged_in_spec. exists region_. split; [done|].
    unfold in_range. repeat (apply andb_true_iff; split); apply Pos.leb_le; lia. }
  split; [|split]; intros ->; by rewrite <- ?Hh.
Qed.
End Records.

(** *** Data cells *)

Lemma iter_cells_ext (self self' : t) type_row name_row date_row company_col
    today cells h :
  (forall hrow col d, hrow = type_row \/ hrow = name_row \/ hrow = date_row ->
     get_cell_value self' hrow col d = get_cell_value self hrow col d) ->
  let t := iter_cells self type_row name_row date_row company_col today cells h in
  let t' := iter_cells self' type_row name_row date_row company_col today cells h in
  map header_fields (yielded t') = map header_fields (yielded t)
  /\ ending t' = ending t.
Proof.
  intros Hext. cbn zeta. revert h.
  induction cells as [|[row col] cells IH]; intros h; [done|].
  cbn [iter_cells].
  assert (carry self' type_row name_row date_row h col
          = carry self type_row name_row date_row h col) as ->.
  { unfold carry. by rewrite !Hext by auto. }
  destruct (__coord row (Some company_col) ≫= getitem) as [[crow ccol]|e]; [|done].
  destruct (add_days today _) as [d|e]; [|done].
  destruct (IH (carry self type_row name_row date_row h col)) as [IHy IHe].
  cbn [yield yielded ending map]. split; [|exact IHe].
  apply (f_equal2 cons); [done|exact IHy].
Qed.

Lemma scan_header_ext ws ws' cols acc :
  (forall c, stops ws' c = stops ws c) ->
  scan_header ws' cols acc = scan_header ws cols acc.
Proof.
  intros Hs. revert acc. induction cols as [|c cols IH]; intros acc; [done|].
  simpl. rewrite Hs. destruct (stops ws c); [done|]. apply IH.
Qed.

(** The header fields of the records are a matter of the header rows, of
    row 1, of the merged regions and of the size of the sheet. *)
Lemma header_fields_ext (ws ws' : worksheet)
    (start_row : positive) (start_col : string)
    (type_row name_row date_row : positive) (company_col : string)
    (today : date) :
  merged_cells ws' = merged_cells ws ->
  sheet_max_row ws' = sheet_max_row ws ->
  sheet_max_column ws' = sheet_max_column ws ->
  (forall r c,
      r = 1%positive \/ r = type_row \/ r = name_row \/ r = date_row ->
      cell_value ws' r c = cell_value ws r c) ->
  let t := iter (init ws) start_row start_col type_row name_row date_row
                company_col today in
  let t' := iter (init ws') start_row start_col type_row name_row date_row
                 company_col today in
  map header_fields (yielded t') = map header_fields (yielded t)
  /\ ending t' = ending t.
Proof.
  intros Hmerged Hrows Hcols Hcell. cbn zeta.
  assert (max_column (init ws') = max_column (init ws)) as Hmax.
  { unfold init. cbn [max_column]. rewrite Hcols. apply scan_header_ext.
    intros c. unfold stops, is_merged. rewrite Hmerged, Hcell by auto. done. }
  assert (region (init ws') start_row start_col
          = region (init ws) start_row start_col) as Hreg.
  { unfold region. rewrite Hmax. cbn [sheet init]. by rewrite Hrows. }
  unfold iter. rewrite Hreg.
  destruct (region (init ws) start_row start_col) as [cells|e]; [|done].
  apply iter_cells_ext.
  intros hrow c d Hh. unfold get_cell_value, is_merged. cbn [sheet init].
  rewrite Hmerged, Hcell; [done|]. destruct Hh as [->|[->| ->]]; auto.
Qed.

(** C5, amended. The type, name and date of the records, and the way the
    walk ends, are the same on two sheets of the same size with the same
    merged regions and the same row 1 and header rows. So setting the
    value of a cell that the walk visits, outside row 1 and the three
    header rows, changes the type, name and date of no record. *)
Theorem header_fields_ignore_data_cell (ws : worksheet)
    (start_row : positive) (start_col : string)
    (type_row name_row date_row : positive) (company_col : string)
    (today : date) :
  let fields_of ws :=
    map header_fields
      (yielded (iter (init ws) start_row start_col type_row name_row date_row
                     company_col today)) in
  let ending_of ws :=
    ending (iter (init ws) start_row start_col type_row name_row date_row
                 company_col today) in
  (forall ws',
      merged_cells ws' = merged_cells ws ->
      sheet_max_row ws' = sheet_max_row ws ->
      sheet_max_column ws' = sheet_max_column ws ->
      (forall r c,
          r = 1%positive \/ r = type_row \/ r = name_row \/ r = date_row ->
          cell_value ws' r c = cell_value ws r c) ->
      fields_of ws' = fields_of ws /\ ending_of ws' = ending_of ws)
  /\ (forall cells row col v,
        region (init ws) start_row start_col = Ok cells ->
        (row, col) ∈ cells ->
        row <> 1%positive -> row <> type_row -> row <> name_row ->
        row <> date_row ->
        fields_of (set_value ws row col v) = fields_of ws
        /\ ending_of (set_value ws row col v) = ending_of ws).
Proof.
  cbn zeta. split.
  - intros ws'. apply header_fields_ext.
  - intros cells row col v Hr Hin H1 Ht Hn Hd.
    destruct (region_cells _ _ _ _ Hr) as (r1 & c1 & mc & _ & _ & Hmc & ->).
    apply elem_of_rectangle in Hin as [Hrow Hcol].
    destruct (sheet_size_set_value ws row col v) as [Hrows Hcols]; [lia..|].
    apply header_fields_ext; [done..|].
    intros r c Hrc. rewrite cell_value_set_value.
    destruct (decide ((row, col) = (r, c))) as [[= -> ->]|]; [|done].
    destruct Hrc as [->|[->|[->| ->]]]; done.
Qed.

(** ** The extractor on the sheets of the scenarios *)

(** *** Witnesses and counterexamples *)

Lemma iter_type_error_without_first_header_witness :
  cell_value scenario_sheet 1 1 = PNone
  /\ is_merged scenario_sheet 1 1 = false
  /\ iter_default (init scenario_sheet) a_day
     = {| yielded := []; ending := Some TypeError |}.
Proof.
  split; [reflexivity|]. split; [reflexivity|].
  apply (iter_type_error_without_first_header scenario_sheet); reflexivity.
Defined.

Lemma max_column_before_first_blank_witness :
  (forall j, (j < 4)%positive ->
     cell_value merged_then_blank_sheet 1 j <> PNone
     \/ within_merged merged_then_blank_sheet 1 j)
  /\ cell_value merged_then_blank_sheet 1 3 = PNone
  /\ within_merged merged_then_blank_sheet 1 3
  /\ cell_value merged_then_blank_sheet 1 4 = PNone
  /\ ~ within_merged merged_then_blank_sheet 1 4
  /\ max_column (init merged_then_blank_sheet) = Some "C"%string
  /\ region (init merged_then_blank_sheet) 4 "B" = Ok [(4, 2); (4, 3)]%positive.
Proof.
  assert (within_merged merged_then_blank_sheet 1 3) as Hmerged.
  { exists (range_of 1 2 1 3). split; [left|]. simpl. lia. }
  assert (forall j, (j < 4)%positive ->
            cell_value merged_then_blank_sheet 1 j <> PNone
            \/ within_merged merged_then_blank_sheet 1 j) as Hfilled.
  { intros j Hj.
    assert (j = 1 \/ j = 2 \/ j = 3)%positive as [->|[->| ->]] by lia;
      [left; discriminate|left; discriminate|right; exact Hmerged]. }
  assert (~ within_merged merged_then_blank_sheet 1 4) as Hunmerged.
  { intros (r & Hr & _ & Hcol). apply list_elem_of_singleton in Hr as ->.
    simpl in Hcol. lia. }
  destruct (max_column_before_first_blank merged_then_blank_sheet 4
              Hfilled eq_refl Hunmerged) as [_ H].
  destruct (H eq_refl) as [Hmax _].
  split; [exact Hfilled|]. split; [reflexivity|]. split; [exact Hmerged|].
  split; [reflexivity|]. split; [exact Hunmerged|].
  split; [exact Hmax|reflexivity].
Defined.

(** C4, as stated, fails: D1 is blank and within no merged region, and
    [max_column] is A, not C, because B1 is such a cell too. *)
Lemma max_column_with_earlier_blank :
  cell_value early_blank_sheet 1 4 = PNone
  /\ ~ within_merged early_blank_sheet 1 4
  /\ max_column (init early_blank_sheet) = Some "A"%string
  /\ max_column (init early_blank_sheet) <> Some "C"%string.
Proof.
  split; [reflexivity|]. split.
  - intros (r & Hr & _). by apply elem_of_nil in Hr.
  - split; [reflexivity|discriminate].
Qed.


(** C2, as stated, fails: B1 holds "revenue" and B1:D1 is merged, the walk
    visits C and D, and the records made there have no type. *)
Lemma merged_header_lost_before_start :
  range_of 1 2 1 4 ∈ merged_cells wide_merge_sheet
  /\ cell_value wide_merge_sheet 1 2 = PStr "revenue"
  /\ region (init wide_merge_sheet) 4 "C" = Ok [(4, 3); (4, 4)]%positive
  /\ map rec_type (yielded (iter_default (init wide_merge_sheet) a_day))
     = [None; None].
Proof.
  split; [by left|]. split; [reflexivity|]. split; reflexivity.
Qed.

Lemma merged_header_from_anchor_witness :
  range_of 1 3 1 4 ∈ merged_cells labelled
  /\ cell_value labelled 1 3 = PStr "revenue"
  /\ exists r,
       yielded (iter_default (init labelled) a_day) !! 1%nat = Some r
       /\ rec_type r = Some "revenue"%string.
Proof.
  assert (range_of 1 3 1 4 ∈ merged_cells labelled) as Hin by (by left).
  split; [exact Hin|]. split; [reflexivity|].
  exists (Some "revenue", Some "sales", ten_days_on, 200, 7)%string.
  split; [reflexivity|].
  assert (forall c, (3 < c <= 4)%positive -> cell_value labelled 1 c = PNone) as Hblank.
  { intros c Hc. assert (c = 4%positive) as -> by lia. reflexivity. }
  destruct (merged_header_from_anchor labelled 4 1 2 3 "C" "B" a_day (range_of 1 3 1 4) 3
              Hin ltac:(done) ltac:(done) Hblank eq_refl ltac:(done)
              [(4, 3); (4, 4)]%positive 1%nat 4%positive 4%positive
              (Some "revenue", Some "sales", ten_days_on, 200, 7)%string
              eq_refl eq_refl eq_refl ltac:(done)) as (Htype & _ & _).
  exact (Htype eq_refl).
Defined.

(** C5, as stated, fails: two records of column C, made from the same
    header rows, have different names, because the name of the last
    column of a row is carried into the next row. *)
Lemma header_fields_depend_on_row :
  region (init tall_merge_sheet) 4 "C"
  = Ok [(4, 3); (4, 4); (5, 3); (5, 4)]%positive
  /\ map rec_name (yielded (iter_default (init tall_merge_sheet) a_day))
     = [None; Some "sales"; Some "sales"; Some "sales"]%string
  /\ exists r r',
       yielded (iter_default (init tall_merge_sheet) a_day) !! 0%nat = Some r
       /\ yielded (iter_default (init tall_merge_sheet) a_day) !! 2%nat = Some r'
       /\ rec_name r <> rec_name r'.
Proof.
  split; [reflexivity|]. split; [reflexivity|].
  eexists _, _. split; [reflexivity|]. split; [reflexivity|]. discriminate.
Qed.

Lemma header_fields_ignore_data_cell_witness :
  region (init labelled) 4 "C" = Ok [(4, 3); (4, 4)]%positive
  /\ map header_fields
       (yielded (iter_default (init (set_value labelled 4 3 (PInt 5))) a_day))
     = map header_fields (yielded (iter_default (init labelled) a_day))
  /\ map rec_value
       (yielded (iter_default (init (set_value labelled 4 3 (PInt 5))) a_day))
     = [5; 200].
Proof.
  assert ((4, 3)%positive ∈ [(4, 3); (4, 4)]%positive) as Hin by (by left).
  split; [reflexivity|]. split; [|reflexivity].
  destruct (header_fields_ignore_data_cell labelled 4 "C" 1 2 3 "B" a_day)
    as [_ Hset].
  exact (proj1 (Hset [(4, 3); (4, 4)]%positive 4%positive 3%positive (PInt 5)
                  eq_refl Hin ltac:(done) ltac:(done) ltac:(done) ltac:(done))).
Defined.

(** C1, as stated, fails: on the sheet of the scenario the cell A1 is
    blank and not merged, so no record is yielded. *)
Lemma scenario_yields_nothing :
  iter_default (init scenario_sheet) a_day
  = {| yielded := []; ending := Some TypeError |}.
Proof. reflexivity. Qed.

(** ** The tokenizer of the engine *)

(** *** Decimal text of an integer *)

Lemma digits_of_spec (z : Z) :
  forallb isdigit (digits_of z) = true /\ digits_of z <> []
  /\ digits_value (digits_of z) = Z.abs z.
Proof.
  unfold digits_of. destruct z as [|p|p]; [done|..]; simpl Z.abs_N; simpl N.to_uint;
    pose proof (str_positive_digits p) as (Hd & Hne & Hv);
    unfold str, str_positive in *; cbn zeta in *;
    pose proof (Unsigned.to_uint_nonnil p); unfold NilZero.string_of_uint;
    destruct (Pos.to_uint p); done.
Qed.

Lemma str_Z_text (z : Z) :
  list_ascii_of_string (str z)
  = if z <? 0 then "-"%char :: digits_of z else digits_of z.
Proof. destruct z; reflexivity. Qed.

Lemma digit_facts c :
  isdigit c = true ->
  sql_space c = false /\ (code c =? 39)%N = false /\ (code c =? 45)%N = false
  /\ (code c =? 0)%N = false /\ clean_char c = true /\ dash_or_digit c = true.
Proof. by_cases_on_char c; intros _; repeat split; reflexivity. Qed.

(** *** The tokenizer *)

Lemma lex_spaces sp out l :
  forallb sql_space sp = true ->
  lex LDefault out (sp ++ l) = lex LDefault out l.
Proof.
  induction sp as [|c sp IH]; [done|]. simpl. intros [Hc Hsp]%andb_true_iff.
  rewrite Hc. by apply IH.
Qed.

Lemma lex_in_string s acc out l :
  forallb clean_char s = true ->
  lex (LString acc) out (s ++ l) = lex (LString (acc ++ s)) out l.
Proof.
  revert acc. induction s as [|c s IH]; intros acc Hs.
  - by rewrite app_nil_r.
  - simpl in Hs. apply andb_true_iff in Hs as [Hc Hs].
    unfold clean_char in Hc. apply andb_true_iff in Hc as [Hc _].
    apply negb_true_iff in Hc. simpl. rewrite Hc, IH by done.
    by rewrite <- app_assoc.
Qed.

Lemma lex_in_number d acc out l :
  forallb isdigit d = true ->
  lex (LNumber acc) out (d ++ l) = lex (LNumber (acc ++ d)) out l.
Proof.
  revert acc. induction d as [|c d IH]; intros acc Hd.
  - by rewrite app_nil_r.
  - simpl in Hd. apply andb_true_iff in Hd as [Hc Hd].
    simpl. rewrite Hc, IH by done. by rewrite <- app_assoc.
Qed.

(** A text literal, and the comma after it. *)
Lemma lex_text s out l :
  forallb clean_char s = true ->
  lex LDefault out (quote :: s ++ quote :: comma :: l)
  = lex LDefault (TComma :: TString s :: out) l.
Proof.
  intros Hs. change (lex LDefault out (quote :: ?x)) with (lex (LString []) out x).
  by rewrite lex_in_string.
Qed.

(** An integer, and the comma or the line feed after it. *)
Lemma lex_digits d out (t : ascii) l :
  forallb isdigit d = true -> d <> [] ->
  lex LDefault out (d ++ t :: l) = lex (LNumber d) out (t :: l)
  /\ lex LMinus out (d ++ t :: l) = lex (LNumber d) (TMinus :: out) (t :: l).
Proof.
  intros Hd Hne. destruct d as [|c d]; [done|].
  simpl in Hd. apply andb_true_iff in Hd as [Hc Hd].
  destruct (digit_facts c Hc) as (Hs & Hq & Hm & _).
  split; simpl; rewrite ?Hs, ?Hq, ?Hm, Hc; by rewrite lex_in_number.
Qed.

Lemma lex_integer z out l :
  lex LDefault out (list_ascii_of_string (str z) ++ comma :: l)
  = lex LDefault
      (TComma :: TInteger (digits_of z)
         :: (if z <? 0 then TMinus :: out else out)) l
  /\ lex LDefault out (list_ascii_of_string (str z) ++ LF :: l)
     = lex LDefault
         (TInteger (digits_of z) :: (if z <? 0 then TMinus :: out else out)) l.
Proof.
  rewrite str_Z_text. destruct (digits_of_spec z) as (Hd & Hne & _).
  destruct (z <? 0).
  - change (lex LDefault out (("-"%char :: ?d) ++ ?x))
      with (lex LMinus out (d ++ x)).
    split; rewrite (proj2 (lex_digits _ _ _ _ Hd Hne)); simpl;
      destruct (digits_of z) as [|c d]; try done;
      simpl in Hd; apply andb_true_iff in Hd as [Hc _]; by rewrite ?Hc.
  - split; rewrite (proj1 (lex_digits _ _ _ _ Hd Hne)); simpl;
      destruct (digits_of z) as [|c d]; try done;
      simpl in Hd; apply andb_true_iff in Hd as [Hc _]; by rewrite ?Hc.
Qed.

(** ** Appending *)

(** *** Text without NUL *)

Lemma has_nul_app a b :
  ReportTable.has_nul (a +:+ b) = ReportTable.has_nul a || ReportTable.has_nul b.
Proof. unfold ReportTable.has_nul. by rewrite list_ascii_of_string_app, existsb_app. Qed.

Lemma forallb_no_nul (p : ascii -> bool) (s : string) :
  (forall c, p c = true -> (code c =? 0)%N = false) ->
  forallb p (list_ascii_of_string s) = true -> ReportTable.has_nul s = false.
Proof.
  intros Hp Hs. unfold ReportTable.has_nul.
  induction (list_ascii_of_string s) as [|c l IH]; [done|].
  simpl in *. apply andb_true_iff in Hs as [Hc Hs]. by rewrite (Hp c Hc), IH.
Qed.

Lemma clean_no_nul s : clean s = true -> ReportTable.has_nul s = false.
Proof.
  apply forallb_no_nul. intros c [_ Hc]%andb_true_iff. by apply negb_true_iff.
Qed.

Lemma dash_or_digit_facts c :
  dash_or_digit c = true -> clean_char c = true /\ (code c =? 0)%N = false.
Proof. by_cases_on_char c; intros _; split; reflexivity. Qed.

Lemma str_Z_dash_or_digit (z : Z) :
  forallb dash_or_digit (list_ascii_of_string (str z)) = true.
Proof.
  rewrite str_Z_text. destruct (digits_of_spec z) as (Hd & _ & _).
  assert (forallb dash_or_digit (digits_of z) = true) as H.
  { eapply forallb_impl; [|exact Hd]. intros c Hc. by apply digit_facts. }
  destruct (z <? 0); [simpl; by rewrite H|done].
Qed.

Lemma zfill_dash_or_digit n s :
  forallb dash_or_digit (list_ascii_of_string s) = true ->
  forallb dash_or_digit (list_ascii_of_string (zfill n s)) = true.
Proof.
  intros Hs. unfold zfill.
  rewrite list_ascii_of_string_app, list_ascii_of_string_of_list_ascii, forallb_app, Hs.
  rewrite andb_true_r. induction (n - String.length s)%nat as [|k IH]; [done|].
  simpl. by rewrite IH.
Qed.

Lemma strftime_dash_or_digit d :
  forallb dash_or_digit (list_ascii_of_string (strftime_Ymd d)) = true.
Proof.
  unfold strftime_Ymd. destruct (ymd d) as [[y m] dd].
  rewrite !list_ascii_of_string_app, !forallb_app.
  rewrite !zfill_dash_or_digit by apply str_Z_dash_or_digit. done.
Qed.

Lemma strftime_clean d : clean (strftime_Ymd d) = true.
Proof.
  unfold clean. eapply forallb_impl; [|apply strftime_dash_or_digit].
  intros c Hc. by apply dash_or_digit_facts.
Qed.

(** *** The INSERT statement *)

Lemma values_sql_text type name d value cid :
  list_ascii_of_string
    (ReportTable.values_sql (Some type) (Some name) d value cid)
  = nl 12 ++ quote :: list_ascii_of_string type ++ quote :: comma
    :: nl 12 ++ quote :: list_ascii_of_string name ++ quote :: comma
    :: nl 12 ++ quote :: list_ascii_of_string (strftime_Ymd d) ++ quote :: comma
    :: nl 12 ++ list_ascii_of_string (str value) ++ comma
    :: nl 12 ++ list_ascii_of_string (str cid) ++ nl 8.
Proof.
  unfold ReportTable.values_sql. rewrite !list_ascii_of_string_app.
  cbn [list_ascii_of_string]. rewrite !list_ascii_of_string_of_list_ascii.
  unfold str at 1 2, str_option, str, str_string.
  rewrite <- ?app_assoc. reflexivity.
Qed.

Lemma abs_value z : (if z <? 0 then - Z.abs z else Z.abs z) = z.
Proof. destruct (Z.ltb_spec z 0); lia. Qed.

Lemma insert_row_values type name d value cid :
  clean type = true -> clean name = true ->
  insert_row (map ReportTable.column_affinity ReportTable.__fields)
    (ReportTable.values_sql (Some type) (Some name) d value cid)
  = Ok [SText type; SText name; SText (strftime_Ymd d);
        stored_int value; stored_int cid].
Proof.
  intros Ht Hn. unfold insert_row. rewrite values_sql_text.
  rewrite lex_spaces by done. rewrite lex_text by done.
  rewrite lex_spaces by done. rewrite lex_text by done.
  rewrite lex_spaces by done. rewrite lex_text by apply strftime_clean.
  rewrite lex_spaces by done. rewrite (proj1 (lex_integer value _ _)).
  rewrite lex_spaces by done.
  change (nl 8) with (LF :: replicate 8 " "%char ++ []).
  rewrite (proj2 (lex_integer cid _ _)).
  rewrite lex_spaces by done.
  pose proof (abs_value value) as Hv. pose proof (abs_value cid) as Hc.
  destruct (digits_of_spec value) as (_ & _ & Hdv).
  destruct (digits_of_spec cid) as (_ & _ & Hdc).
  destruct (value <? 0), (cid <? 0); cbn; rewrite ?Hdv, ?Hdc, ?Hv, ?Hc;
    by rewrite !string_of_list_ascii_of_string.
Qed.

Lemma insert_sql_no_nul table type name d value cid :
  ReportTable.has_nul table = false ->
  clean type = true -> clean name = true ->
  ReportTable.has_nul
    (ReportTable.sql
       (ReportTable.InsertValues table
          (ReportTable.values_sql (Some type) (Some name) d value cid)))
  = false.
Proof.
  intros Htable Ht Hn. unfold ReportTable.sql, ReportTable.values_sql.
  change (str (Some type)) with type. change (str (Some name)) with name.
  rewrite !has_nul_app, Htable.
  rewrite (clean_no_nul type Ht), (clean_no_nul name Hn),
    (clean_no_nul _ (strftime_clean d)).
  rewrite !(forallb_no_nul dash_or_digit (str _))
    by (apply str_Z_dash_or_digit || (intros c Hc; by apply dash_or_digit_facts)).
  reflexivity.
Qed.

Lemma append_clean (self : ReportTable.t) type name d value cid rows :
  ReportTable.has_nul (ReportTable.table self) = false ->
  ReportTable.conn self !! ReportTable.table self = Some rows ->
  clean type = true -> clean name = true ->
  ReportTable.append self (Some type) (Some name) d value cid
  = Ok {| ReportTable.conn :=
            <[ReportTable.table self := rows ++ [stored_row type name d value cid]]>
              (ReportTable.conn self);
          ReportTable.table := ReportTable.table self |}.
Proof.
  intros Htable Hrows Ht Hn.
  unfold ReportTable.append, ReportTable._execute, ReportTable.execute.
  rewrite insert_sql_no_nul by done. rewrite Hrows.
  rewrite insert_row_values by done. reflexivity.
Qed.

Lemma init_default_ok (file : gmap string (list (list sqlval))) :
  ReportTable.init_default file
  = Ok {| ReportTable.conn := <["report"%string := []]> (delete "report"%string file);
          ReportTable.table := "report"%string |}.
Proof.
  assert (forall db, ReportTable.execute db (ReportTable.DropTableIfExists "report")
                     = Ok (delete "report"%string db)) as Hdrop by reflexivity.
  assert (forall db, ReportTable.execute db
                       (ReportTable.CreateTableIfNotExists "report" ReportTable.__fields)
                     = Ok (match db !! "report"%string with
                           | Some _ => db
                           | None => <["report"%string := []]> db
                           end)) as Hcreate by reflexivity.
  unfold ReportTable.init_default, ReportTable.init, ReportTable._create,
    ReportTable._execute.
  cbn [ReportTable.conn ReportTable.table]. rewrite Hdrop.
  unfold mbind, result_bind. cbn [ReportTable.conn ReportTable.table].
  rewrite Hcreate. by rewrite lookup_delete_eq.
Qed.

(** ** The store *)

Lemma load_storable (report : ReportTable.t) records rows :
  ReportTable.has_nul (ReportTable.table report) = false ->
  ReportTable.conn report !! ReportTable.table report = Some rows ->
  forallb storable records = true ->
  load report records None
  = Ok {| ReportTable.conn :=
            <[ReportTable.table report := rows ++ map row_of records]>
              (ReportTable.conn report);
          ReportTable.table := ReportTable.table report |}.
Proof.
  revert report rows. induction records as [|r records IH]; intros report rows Ht Hrows Hs.
  - simpl. rewrite app_nil_r, insert_id by done. by destruct report.
  - simpl in Hs. apply andb_true_iff in Hs as [Hr Hs].
    destruct r as [[[[type name] d] value] cid]. unfold storable in Hr. cbn in Hr.
    destruct type as [type|]; [|done]. destruct name as [name|]; [|done].
    repeat (apply andb_true_iff in Hr as [Hr ?]).
    cbn [load]. rewrite (append_clean report type name d value cid rows) by done.
    unfold mbind, result_bind. rewrite IH with (rows := rows ++ [stored_row type name d value cid]);
      [|done|cbn; by rewrite lookup_insert_eq|done].
    cbn [ReportTable.conn ReportTable.table]. rewrite insert_insert_eq, <- app_assoc.
    unfold stored_row, stored_int, row_of. cbn.
    by rewrite H, H0.
Qed.

Lemma mapR_map {A B} (f : A -> result B) (g : A -> B) (l : list A) :
  Forall (fun a => f a = Ok (g a)) l -> ReportTable.mapR f l = Ok (map g l).
Proof.
  induction 1 as [|a l Ha _ IH]; [done|]. simpl. by rewrite Ha, IH.
Qed.

Lemma select_all_columns (report : ReportTable.t) rows :
  ReportTable.table report = "report"%string ->
  ReportTable.conn report !! "report"%string = Some rows ->
  Forall (fun r => length r = 5%nat) rows ->
  ReportTable.select report all_columns None
  = {| yielded := map (ReportTable.dict_zip
                         (map ReportTable.result_name all_columns)) rows;
       ending := None |}.
Proof.
  intros Ht Hrows Hlen. unfold ReportTable.select. rewrite Ht, Hrows.
  change (ReportTable.has_nul _) with false. cbn iota.
  assert (ReportTable.query all_columns None rows = Ok rows) as ->; [|done].
  unfold ReportTable.query. cbn [all_columns map ReportTable.__fields ReportTable.falsy existsb
    ReportTable.is_aggregate ReportTable.f_expr orb].
  rewrite (mapR_map _ (fun g => match g with [r] => r | _ => [] end)).
  - f_equal. clear. induction rows as [|r rows IH]; [done|]. simpl.
    by rewrite IH.
  - apply Forall_forall. intros g Hg. apply list_elem_of_In, in_map_iff in Hg as (r & <- & Hr).
    rewrite Forall_forall in Hlen. specialize (Hlen r (proj2 (list_elem_of_In _ _) Hr)).
    destruct r as [|a [|b [|c [|d [|e [|]]]]]]; try done.
Qed.

(** C6, amended. When every record has clean type and name texts (no
    quote, no NUL), integers of 64 bits and a date of the years 1000 to
    9999, the records appended to a new store are what a selection of the
    five columns without grouping returns: as many rows as records, in
    their order, each with the fields of its record and the date as
    YYYY-MM-DD text. *)
Theorem select_returns_appended (file : gmap string (list (list sqlval)))
    (records : list DataTuple) :
  forallb storable records = true ->
  forallb (fun r => four_digit_year (rec_date r)) records = true ->
  exists report report',
    ReportTable.init_default file = Ok report
    /\ load report records None = Ok report'
    /\ ReportTable.select report' all_columns None
       = {| yielded := map record_dict records; ending := None |}
    /\ length (yielded (ReportTable.select report' all_columns None))
       = length records.
Proof.
  intros Hs _. eexists _, _. split; [apply init_default_ok|].
  split; [by apply load_storable; [|cbn; apply lookup_insert_eq|]|].
  cbn [ReportTable.conn ReportTable.table].
  assert (ReportTable.select
            {| ReportTable.conn :=
                 <["report"%string := [] ++ map row_of records]>
                   (<["report"%string := []]> (delete "report"%string file));
               ReportTable.table := "report"%string |} all_columns None
          = {| yielded := map record_dict records; ending := None |}) as ->.
  { rewrite (select_all_columns _ (map row_of records));
      [|done|cbn; by rewrite lookup_insert_eq|].
    - f_equal. rewrite map_map. apply map_ext. intros r. reflexivity.
    - apply Forall_forall. intros r Hr.
      apply list_elem_of_In, in_map_iff in Hr as (? & <- & _). done. }
  split; [done|]. cbn. by rewrite length_map.
Qed.

Lemma select_returns_appended_witness :
  forallb storable two_records = true
  /\ forallb (fun r => four_digit_year (rec_date r)) two_records = true
  /\ exists report report',
       ReportTable.init_default ∅ = Ok report
       /\ load report two_records None = Ok report'
       /\ ReportTable.select report' all_columns None
          = {| yielded := map record_dict two_records; ending := None |}
       /\ length (yielded (ReportTable.select report' all_columns None))
          = length two_records.
Proof.
  split; [reflexivity|]. split; [reflexivity|].
  apply (select_returns_appended ∅ two_records); reflexivity.
Defined.

(** C6, as stated, fails: an integer beyond 64 bits is appended without an
    error and read back as a REAL, not as the integer of the record. *)
Lemma select_big_value_as_real :
  exists report report' row,
    ReportTable.init_default ∅ = Ok report
    /\ load report [big_record] None = Ok report'
    /\ yielded (ReportTable.select report' all_columns None) = [row]
    /\ row !! "value"%string = Some (SReal [2 ^ 63 + 1])
    /\ row <> record_dict big_record.
Proof.
  eexists _, _, _. split; [reflexivity|]. split; [vm_compute; reflexivity|].
  split; [vm_compute; reflexivity|]. split; [reflexivity|].
  intros H. apply (f_equal (fun m => m !! "value"%string)) in H.
  vm_compute in H. discriminate.
Qed.

(** C7. The code breaks the claim: a type text with a quote makes the
    INSERT statement end its literal early, the engine refuses the
    statement, and [append] raises instead of adding the row. *)
Theorem append_quote_raises :
  exists report,
    ReportTable.init_default ∅ = Ok report
    /\ ReportTable.conn report !! "report"%string = Some []
    /\ ReportTable.append report (Some "it's") (Some "sales") a_day 100 7
       = Raise OperationalError.
Proof.
  eexists. split; [reflexivity|]. split; vm_compute; reflexivity.
Qed.

(** C8, amended. When a store has been made, its table has no row,
    whatever the file held; there, a selection that is grouped, or that
    has no aggregate, returns no row, when the aliases of its fields are
    single words. *)
Theorem new_store_is_empty (file : gmap string (list (list sqlval)))
    (report : ReportTable.t) :
  ReportTable.init_default file = Ok report ->
  ReportTable.conn report !! ReportTable.table report = Some []
  /\ forall fields group_by,
       forallb word_alias fields = true ->
       ReportTable.falsy group_by = false
       \/ existsb (fun f => ReportTable.is_aggregate (ReportTable.f_expr f)) fields
          = false ->
       yielded (ReportTable.select report fields group_by) = [].
Proof.
  rewrite init_default_ok. intros [= <-].
  cbn [ReportTable.conn ReportTable.table].
  split; [apply lookup_insert_eq|].
  intros fields group_by _ H. unfold ReportTable.select.
  cbn [ReportTable.conn ReportTable.table]. rewrite lookup_insert_eq.
  destruct (ReportTable.has_nul _); [done|].
  unfold ReportTable.query. destruct fields as [|f fields]; [done|].
  destruct (ReportTable.falsy group_by) eqn:Hg.
  - destruct H as [?|H]; [done|]. rewrite H. done.
  - done.
Qed.

(** C8, as stated, fails: on the new store the sum of a column, selected
    without grouping, comes back as one row. *)
Lemma select_sum_on_empty_store :
  exists report,
    ReportTable.init_default ∅ = Ok report
    /\ ReportTable.conn report !! "report"%string = Some []
    /\ yielded (ReportTable.select report sum_of_value None)
       = [ {[ "SUM(value)"%string := SNull ]} ].
Proof.
  eexists. split; [reflexivity|]. split; vm_compute; reflexivity.
Qed.

(** ** The script on the scenario *)

Lemma iter_cells_step self type_row name_row date_row company_col today
    row col rest h h' crow ccol n d v cv :
  carry self type_row name_row date_row h col = h' ->
  __coord row (Some company_col) ≫= getitem = Ok (crow, ccol) ->
  as_int (c_date h') = n ->
  add_days today n = Ok d ->
  as_int (cell_value (sheet self) row col) = v ->
  as_int (cell_value (sheet self) crow ccol) = cv ->
  iter_cells self type_row name_row date_row company_col today
    ((row, col) :: rest) h
  = yield (c_type h', c_name h', d, v, cv)
      (iter_cells self type_row name_row date_row company_col today rest h').
Proof.
  intros <- Hc <- Hd <- <-. cbn [iter_cells]. by rewrite Hc, Hd.
Qed.

Lemma add_days_in_range today n :
  Z.abs n <= 999999999 -> 1 <= ordinal today + n <= MAXORDINAL ->
  add_days today n = Ok (of_ordinal (ordinal today + n)).
Proof.
  intros Hn Hr. unfold add_days.
  rewrite (proj2 (Z.leb_le _ _) Hn), (proj2 (Z.leb_le _ _) (proj1 Hr)),
    (proj2 (Z.leb_le _ _) (proj2 Hr)). done.
Qed.

(** C1, amended. With values in A1 and B1, the scenario gives the two
    records, in order, and the report has one group, with total 300. *)
Theorem scenario_records_and_total (a1 b1 : pyobj) (today : date)
    (file : gmap string (list (list sqlval))) :
  a1 <> PNone -> b1 <> PNone ->
  1 <= ordinal today + 10 <= MAXORDINAL ->
  let d := of_ordinal (ordinal today + 10) in
  iter_default (init (labelled_sheet a1 b1)) today
  = {| yielded := [ (Some "revenue", Some "sales", d, 100, 7);
                    (Some "revenue", Some "sales", d, 200, 7) ]%string;
       ending := None |}
  /\ main (labelled_sheet a1 b1) file today
     = Ok {| yielded := [scenario_report d]; ending := None |}.
Proof.
  intros Ha Hb Hrange d.
  assert (iter_default (init (labelled_sheet a1 b1)) today
          = {| yielded := [ (Some "revenue", Some "sales", d, 100, 7);
                            (Some "revenue", Some "sales", d, 200, 7) ]%string;
               ending := None |}) as Hiter.
  { unfold iter_default, iter.
    assert (region (init (labelled_sheet a1 b1)) 4 "C"
            = Ok [(4, 3); (4, 4)]%positive) as ->
      by (destruct a1, b1; try done; vm_compute; reflexivity).
    pose (h := {| c_type := Some "revenue"%string; c_name := Some "sales"%string;
                  c_date := Some "10"%string |}).
    rewrite (iter_cells_step _ _ _ _ _ _ 4 3 _ _ h 4 2 10 d 100 7);
      [|vm_compute; reflexivity..|by apply add_days_in_range
       |vm_compute; reflexivity|vm_compute; reflexivity].
    rewrite (iter_cells_step _ _ _ _ _ _ 4 4 _ _ h 4 2 10 d 200 7);
      [|vm_compute; reflexivity..|by apply add_days_in_range
       |vm_compute; reflexivity|vm_compute; reflexivity].
    reflexivity. }
  split; [exact Hiter|].
  unfold main. rewrite init_default_ok, Hiter.
  unfold mbind, result_bind. cbn [yielded ending].
  rewrite (load_storable _ _ []); [|reflexivity|apply lookup_insert_eq|reflexivity].
  cbn [ReportTable.conn ReportTable.table].
  unfold ReportTable.select. cbn [ReportTable.conn ReportTable.table].
  rewrite lookup_insert_eq.
  change (ReportTable.has_nul _) with false. cbn iota.
  unfold ReportTable.query, report_fields, report_group.
  cbn [ReportTable.falsy default].
  unfold ReportTable.group_rows. cbn [app map fold_left row_of rec_type rec_name rec_date
    rec_value rec_company fst snd ReportTable.add_to_group].
  rewrite bool_decide_eq_true_2 by reflexivity.
  reflexivity.
Qed.

Lemma scenario_records_and_total_witness :
  1 <= ordinal a_day + 10 <= MAXORDINAL
  /\ iter_default (init labelled) a_day
     = {| yielded := [ (Some "revenue", Some "sales", ten_days_on, 100, 7);
                       (Some "revenue", Some "sales", ten_days_on, 200, 7) ]%string;
          ending := None |}
  /\ main labelled ∅ a_day
     = Ok {| yielded := [scenario_report ten_days_on]; ending := None |}.
Proof.
  assert (1 <= ordinal a_day + 10 <= MAXORDINAL) as Hrange
    by (split; vm_compute; discriminate).
  split; [exact Hrange|].
  apply (scenario_records_and_total (PStr "id") (PStr "company") a_day ∅);
    [discriminate|discriminate|exact Hrange].
Defined.

Lemma new_store_is_empty_witness :
  exists report,
    ReportTable.init_default {[ "report"%string := [[SInt 1]] ]} = Ok report
    /\ ReportTable.conn report !! ReportTable.table report = Some []
    /\ forallb word_alias report_fields = true
    /\ ReportTable.falsy (Some report_group) = false
    /\ yielded (ReportTable.select report report_fields (Some report_group)) = [].
Proof.
  eexists. split; [reflexivity|].
  destruct (new_store_is_empty {[ "report"%string := [[SInt 1]] ]} _ eq_refl)
    as [Hempty Hselect].
  split; [exact Hempty|]. split; [reflexivity|]. split; [reflexivity|].
  apply Hselect; [reflexivity|left; reflexivity].
Defined.

(** * Further properties *)

(** ** More on the numeric coercion *)

Lemma takewhile_app_all {A} (p : A -> bool) (l rest : list A) :
  forallb p l = true ->
  (forall x, head rest = Some x -> p x = false) ->
  takewhile p (l ++ rest) = l.
Proof.
  intros Hl Hrest. induction l as [|a l IH]; simpl.
  - destruct rest as [|x rest]; [done|]. simpl. by rewrite (Hrest x).
  - simpl in Hl. apply andb_true_iff in Hl as [Ha Hl]. by rewrite Ha, IH.
Qed.

Lemma forallb_reverse {A} (p : A -> bool) (l : list A) :
  forallb p (reverse l) = forallb p l.
Proof.
  induction l as [|a l IH]; [done|].
  rewrite reverse_cons, forallb_app, IH. simpl. rewrite andb_true_r. apply andb_comm.
Qed.

(** The digits that end a text: what is left of a run of digits when the
    character before it is no digit. *)
Lemma trailing_digits_app (s : string) (pre d : text) :
  list_ascii_of_string s = pre ++ d ->
  forallb isdigit d = true ->
  (forall x, last pre = Some x -> isdigit x = false) ->
  trailing_digits s = d.
Proof.
  intros Hs Hd Hpre. unfold trailing_digits. rewrite Hs, reverse_app.
  rewrite takewhile_app_all.
  - apply reverse_involutive.
  - by rewrite forallb_reverse.
  - intros x Hx. apply Hpre. by rewrite head_reverse in Hx.
Qed.

Lemma digits_value_acc_nonneg (d : text) (acc : Z) :
  forallb isdigit d = true -> 0 <= acc ->
  0 <= fold_left (fun acc c => 10 * acc + digit_val c) d acc.
Proof.
  revert acc. induction d as [|c d IH]; intros acc Hd Hacc; [done|].
  simpl in *. apply andb_true_iff in Hd as [Hc Hd]. apply IH; [done|].
  assert (0 <= digit_val c); [|lia].
  revert Hc. by_cases_on_char c.
Qed.

Lemma dash_or_digit_no_LF c : dash_or_digit c = true -> negb (code c =? 10)%N = true.
Proof. by_cases_on_char c. Qed.

Lemma last_digits_of (z : Z) (pre : text) :
  exists x, last (pre ++ digits_of z) = Some x /\ isdigit x = true.
Proof.
  destruct (digits_of_spec z) as (Hd & Hne & _).
  destruct (digits_of z) as [|c d] using rev_ind; [done|].
  exists c. rewrite app_assoc, last_snoc. split; [done|].
  rewrite forallb_app in Hd. apply andb_true_iff in Hd as [_ Hc].
  simpl in Hc. by rewrite andb_true_r in Hc.
Qed.

(** X1. For an integer (of at most 4300 digits, which [str()] writes),
    [as_int] gives its absolute value: the sign of a negative integer is
    not part of the digits that are kept. *)
Theorem as_int_of_integer (z : Z) :
  printable z = true -> as_int (PInt z) = Z.abs z.
Proof.
  intros _. destruct (digits_of_spec z) as (Hd & Hne & Hv).
  assert (exists pre, list_ascii_of_string (str (PInt z)) = pre ++ digits_of z
            /\ forall x, last pre = Some x -> isdigit x = false) as (pre & Hs & Hpre).
  { change (str (PInt z)) with (str z). rewrite str_Z_text.
    destruct (z <? 0).
    - exists ["-"%char]. split; [done|]. by intros x [= <-].
    - exists []. done. }
  rewrite as_int_of_trailing_digits.
  - by rewrite (trailing_digits_app _ pre (digits_of z)).
  - unfold no_line_feed. eapply forallb_impl; [|apply (str_Z_dash_or_digit z)].
    apply dash_or_digit_no_LF.
  - unfold ends_in_space. rewrite Hs.
    destruct (last_digits_of z pre) as (x & -> & Hx). by apply digit_not_space.
Qed.

Lemma as_int_of_integer_witness :
  printable (-2024) = true /\ as_int (PInt (-2024)) = Z.abs (-2024).
Proof.
  split; [reflexivity|]. apply (as_int_of_integer (-2024)). reflexivity.
Defined.

(** X2. [as_int] is never negative on a value whose string form has no
    line feed and does not end in white space. *)
Theorem as_int_nonnegative {A} `{Str A} (v : A) :
  no_line_feed (str v) = true ->
  ends_in_space (str v) = false ->
  0 <= as_int v.
Proof.
  intros Hlf Hsp. rewrite as_int_of_trailing_digits by done.
  destruct (trailing_digits_split (str v)) as (pre & _ & Hd & _).
  by apply digits_value_acc_nonneg.
Qed.

Lemma as_int_nonnegative_witness :
  no_line_feed (str (PStr "offset 12")) = true
  /\ ends_in_space (str (PStr "offset 12")) = false
  /\ 0 <= as_int (PStr "offset 12").
Proof.
  split; [reflexivity|]. split; [reflexivity|].
  apply (as_int_nonnegative (PStr "offset 12")); reflexivity.
Defined.

(** ** Cells *)

Lemma lower_char_idempotent c : lower_char (lower_char c) = lower_char c.
Proof. by_cases_on_char c. Qed.

Lemma lower_idempotent s : lower (lower s) = lower s.
Proof.
  unfold lower. rewrite list_ascii_of_string_of_list_ascii, map_map. f_equal.
  apply map_ext. intros c. apply lower_char_idempotent.
Qed.

(** X3. [is_merged] answers yes exactly for the cells that lie within the
    rows and columns of one of the merged regions of the sheet. *)
Theorem is_merged_iff (ws : worksheet) (row col : positive) :
  is_merged ws row col = true
  <-> exists r, r ∈ merged_cells ws
        /\ (min_row r <= row <= max_row r)%positive
        /\ (min_col r <= col <= max_col r)%positive.
Proof.
  unfold is_merged. rewrite is_merged_in_spec. unfold in_range.
  split; intros (r & Hr & H); exists r; (split; [done|]).
  - rewrite !andb_true_iff, !Pos.leb_le in H. lia.
  - rewrite !andb_true_iff, !Pos.leb_le. lia.
Qed.

(** ** The header scan, from both sides *)




(** ** The walk over the region *)

Lemma company_cell (company_col : string) (ci row : positive) :
  column_index_from_string company_col = Some ci ->
  __coord row (Some company_col) ≫= getitem = Ok (row, ci).
Proof.
  intros Hc. cbn [__coord]. unfold mbind, result_bind, getitem.
  by rewrite (coordinate_to_tuple_coord _ _ _ Hc).
Qed.

Lemma region_rectangle ws start_row start_col sc mc :
  column_index_from_string start_col = Some sc ->
  max_column (init ws) = Some (get_column_letter mc) ->
  region (init ws) start_row start_col
  = Ok (rectangle start_row sc (sheet_max_row ws) mc).
Proof.
  intros Hs Hm. unfold region. rewrite Hm. cbn [__coord sheet init].
  unfold mbind, result_bind, getitem_slice.
  rewrite (coordinate_to_tuple_coord _ _ _ Hs).
  rewrite (coordinate_to_tuple_coord (get_column_letter mc) mc)
    by apply column_index_of_letter.
  reflexivity.
Qed.

Lemma rectangle_length r1 c1 r2 c2 :
  length (rectangle r1 c1 r2 c2)
  = ((Pos.to_nat r2 + 1 - Pos.to_nat r1) * (Pos.to_nat c2 + 1 - Pos.to_nat c1))%nat.
Proof.
  unfold rectangle, span.
  generalize (Pos.to_nat r2 + 1 - Pos.to_nat r1)%nat as n.
  generalize (count_from c1 (Pos.to_nat c2 + 1 - Pos.to_nat c1)) (count_from_length c1 (Pos.to_nat c2 + 1 - Pos.to_nat c1)).
  intros cols <- n. revert r1. induction n as [|n IH]; intros r1; simpl; [done|].
  rewrite length_app, IH, length_map. done.
Qed.

Lemma add_days_raise (d : date) (n : Z) (e : exn) :
  add_days d n = Raise e ->
  e = OverflowError
  /\ (999999999 < Z.abs n \/ ordinal d + n < 1 \/ MAXORDINAL < ordinal d + n).
Proof.
  unfold add_days.
  destruct (Z.leb_spec (Z.abs n) 999999999); [|intros [= <-]; split; [done|lia]].
  destruct (Z.leb_spec 1 (ordinal d + n)); [|intros [= <-]; split; [done|lia]].
  destruct (Z.leb_spec (ordinal d + n) MAXORDINAL); [done|].
  intros [= <-]. split; [done|lia].
Qed.

Section WalkEnd.
Variable self : t.
Variables type_row name_row date_row : positive.
Variable company_col : string.
Variable today : date.

Local Abbreviation carry := (SheetParser.carry self type_row name_row date_row).
Local Abbreviation iter_cells :=
  (SheetParser.iter_cells self type_row name_row date_row company_col today).

(** A record for each cell, up to the cell at which the walk is ended. *)
Lemma iter_cells_count (cells : list (positive * positive)) (h : carried) :
  (length (yielded (iter_cells cells h)) <= length cells)%nat
  /\ (ending (iter_cells cells h) = None
      <-> length (yielded (iter_cells cells h)) = length cells).
Proof.
  revert h. induction cells as [|[row col] cells IH]; intros h.
  - simpl. done.
  - cbn [SheetParser.iter_cells].
    destruct (__coord row (Some company_col) ≫= getitem) as [[crow ccol]|e];
      [|simpl; split; [lia|done]].
    destruct (add_days today _) as [d|e]; [|simpl; split; [lia|done]].
    cbn [yield yielded ending length].
    destruct (IH (carry h col)) as [Hle Hiff].
    split; [apply le_n_S; exact Hle|]. rewrite Hiff.
    split; [intros Hl; f_equal; exact Hl|intros [= Hl]; exact Hl].
Qed.

Variable ci : positive.
Hypothesis company_column : column_index_from_string company_col = Some ci.

Lemma iter_cells_company (cells : list (positive * positive)) (h : carried)
    (k : nat) (r : DataTuple) :
  yielded (iter_cells cells h) !! k = Some r ->
  exists row col,
    cells !! k = Some (row, col)
    /\ rec_value r = as_int (cell_value (sheet self) row col)
    /\ rec_company r = as_int (cell_value (sheet self) row ci).
Proof.
  revert h k. induction cells as [|[row col] cells IH]; intros h k; [done|].
  cbn [SheetParser.iter_cells]. rewrite (company_cell _ _ _ company_column).
  destruct (add_days today _) as [d|e]; [|done].
  destruct k as [|k]; simpl.
  - intros [= <-]. by exists row, col.
  - apply IH.
Qed.

(** With a company column that is a column, the walk can only be ended by
    the date of a cell, the first cell without a record. *)
Lemma iter_cells_ended (cells : list (positive * positive)) (h : carried) (e : exn) :
  ending (iter_cells cells h) = Some e ->
  let k := length (yielded (iter_cells cells h)) in
  (k < length cells)%nat
  /\ add_days today
       (as_int (c_date (fold_left carry (map snd (take (S k) cells)) h)))
     = Raise e.
Proof.
  revert h. induction cells as [|[row col] cells IH]; intros h; [done|].
  cbn [SheetParser.iter_cells]. rewrite (company_cell _ _ _ company_column).
  destruct (add_days today _) as [d|e'] eqn:Hd.
  - cbn [yield yielded ending length]. intros He.
    destruct (IH _ He) as (Hk & Hr). cbn zeta.
    split; [apply -> Nat.succ_lt_mono; exact Hk|]. exact Hr.
  - cbn. intros [= <-]. split; [lia|]. exact Hd.
Qed.
End WalkEnd.

Section RegionRecords.
Variable ws : worksheet.
Variables start_row type_row name_row date_row : positive.
Variables start_col company_col : string.
Variable today : date.
Variables sc mc : positive.
Hypothesis start_column : column_index_from_string start_col = Some sc.
Hypothesis last_column : max_column (init ws) = Some (get_column_letter mc).

Local Abbreviation walk :=
  (iter (init ws) start_row start_col type_row name_row date_row company_col today).
Local Abbreviation cells := (rectangle start_row sc (sheet_max_row ws) mc).

Variable ci : positive.
Hypothesis company_column : column_index_from_string company_col = Some ci.

(** X8. The [k]-th record is made from the [k]-th cell of the region,
    rows first: its value is [as_int] of the cell and its company
    identifier is [as_int] of the cell of the company column in the row
    of the cell. *)
Theorem record_value_and_company (k : nat) (r : DataTuple) :
  yielded walk !! k = Some r ->
  exists row col,
    cells !! k = Some (row, col)
    /\ (start_row <= row <= sheet_max_row ws)%positive
    /\ (sc <= col <= mc)%positive
    /\ rec_value r = as_int (cell_value ws row col)
    /\ rec_company r = as_int (cell_value ws row ci).
Proof.
  unfold iter. rewrite (region_rectangle _ _ _ _ _ start_column last_column).
  intros Hk.
  destruct (iter_cells_company _ _ _ _ _ _ _ company_column _ _ _ _ Hk)
    as (row & col & Hc & Hv & Hco).
  exists row, col. split; [done|].
  assert ((row, col) ∈ cells) as Hin by (by eapply list_elem_of_lookup_2).
  apply elem_of_rectangle in Hin. destruct Hin as [Hrow Hcol].
  split; [exact Hrow|]. split; [exact Hcol|]. split; [exact Hv|exact Hco].
Qed.

End RegionRecords.

(** X6. For a [start_col] of one to three letters and a [max_column]
    that is set, the generator yields at most one record for each cell of
    the rows from [start_row] to the last row of the sheet and the columns
    from [start_col] to [max_column], and it ends without an exception
    exactly when it has yielded one for every cell. *)
Theorem iter_one_record_per_cell (ws : worksheet)
    (start_row type_row name_row date_row : positive)
    (start_col company_col : string) (today : date) (sc mc : positive) :
  (String.length start_col <= 3)%nat ->
  column_index_from_string start_col = Some sc ->
  max_column (init ws) = Some (get_column_letter mc) ->
  let walk := iter (init ws) start_row start_col type_row name_row date_row
                company_col today in
  let n := ((Pos.to_nat (sheet_max_row ws) + 1 - Pos.to_nat start_row)
            * (Pos.to_nat mc + 1 - Pos.to_nat sc))%nat in
  (length (yielded walk) <= n)%nat
  /\ (ending walk = None <-> length (yielded walk) = n).
Proof.
  intros _ Hstart Hlast. cbn zeta. unfold iter.
  rewrite (region_rectangle _ _ _ _ _ Hstart Hlast).
  rewrite <- rectangle_length. apply iter_cells_count.
Qed.

Lemma iter_one_record_per_cell_witness :
  (String.length "C" <= 3)%nat
  /\ column_index_from_string "C" = Some 3%positive
  /\ max_column (init labelled) = Some (get_column_letter 4)
  /\ (length (yielded (iter (init labelled) 4 "C" 1 2 3 "B" a_day)) <= 2)%nat
  /\ (ending (iter (init labelled) 4 "C" 1 2 3 "B" a_day) = None
      <-> length (yielded (iter (init labelled) 4 "C" 1 2 3 "B" a_day)) = 2%nat).
Proof.
  assert (String.length "C" <= 3)%nat as Hlen by (simpl; lia).
  split; [exact Hlen|]. split; [reflexivity|]. split; [reflexivity|].
  apply (iter_one_record_per_cell labelled 4 1 2 3 "C" "B" a_day 3 4);
    [exact Hlen|reflexivity|reflexivity].
Defined.

(** X7. For a [start_col] of one to three letters and a [max_column]
    that is set, nothing is yielded, and no exception is raised, when the
    sheet ends above [start_row] or [max_column] lies left of
    [start_col]; the company column is not looked at. *)
Theorem iter_nothing_outside_sheet (ws : worksheet)
    (start_row type_row name_row date_row : positive)
    (start_col company_col : string) (today : date) (sc mc : positive) :
  (String.length start_col <= 3)%nat ->
  column_index_from_string start_col = Some sc ->
  max_column (init ws) = Some (get_column_letter mc) ->
  (sheet_max_row ws < start_row)%positive \/ (mc < sc)%positive ->
  iter (init ws) start_row start_col type_row name_row date_row company_col today
  = exhausted.
Proof.
  intros _ Hstart Hlast Hout. unfold iter.
  rewrite (region_rectangle _ _ _ _ _ Hstart Hlast).
  assert (rectangle start_row sc (sheet_max_row ws) mc = []) as ->; [|done].
  apply length_zero_iff_nil. rewrite rectangle_length. nia.
Qed.

Lemma iter_nothing_outside_sheet_witness :
  (String.length "C" <= 3)%nat
  /\ column_index_from_string "C" = Some 3%positive
  /\ max_column (init labelled) = Some (get_column_letter 4)
  /\ ((sheet_max_row labelled < 5)%positive \/ (4 < 3)%positive)
  /\ iter (init labelled) 5 "C" 1 2 3 "B" a_day = exhausted.
Proof.
  assert (String.length "C" <= 3)%nat as Hlen by (simpl; lia).
  split; [exact Hlen|]. split; [reflexivity|]. split; [reflexivity|].
  assert ((sheet_max_row labelled < 5)%positive) as H by reflexivity.
  split; [left; exact H|].
  apply (iter_nothing_outside_sheet labelled 5 1 2 3 "C" "B" a_day 3 4);
    [exact Hlen|reflexivity|reflexivity|left; exact H].
Defined.

(** X9. For a [start_col] and a [company_col] of one to three letters and
    a [max_column] that is set, the only exception that ends the
    generator early is [OverflowError], and it comes from the first cell
    that has no record: the number read from the date header carried at
    that cell is beyond what a [timedelta] holds, or takes the day out of
    the years 1 to 9999. *)
Theorem iter_ended_by_date_overflow (ws : worksheet)
    (start_row type_row name_row date_row : positive)
    (start_col company_col : string) (today : date) (sc mc ci : positive)
    (e : exn) :
  (String.length start_col <= 3)%nat ->
  column_index_from_string start_col = Some sc ->
  (String.length company_col <= 3)%nat ->
  column_index_from_string company_col = Some ci ->
  max_column (init ws) = Some (get_column_letter mc) ->
  let walk := iter (init ws) start_row start_col type_row name_row date_row
                company_col today in
  let cells := rectangle start_row sc (sheet_max_row ws) mc in
  ending walk = Some e ->
  let k := length (yielded walk) in
  let n := as_int (header_after (init ws) date_row (map snd (take (S k) cells)) None) in
  e = OverflowError
  /\ (k < length cells)%nat
  /\ (999999999 < Z.abs n \/ ordinal today + n < 1 \/ MAXORDINAL < ordinal today + n).
Proof.
  intros _ Hstart _ Hcompany Hlast. cbn zeta. unfold iter.
  rewrite (region_rectangle _ _ _ _ _ Hstart Hlast).
  intros He.
  destruct (iter_cells_ended _ _ _ _ _ _ _ Hcompany _ _ _ He) as (Hk & Hr).
  cbn zeta in Hr. rewrite carry_fold in Hr. cbn [c_date] in Hr.
  destruct (add_days_raise _ _ _ Hr) as [-> Hn]. done.
Qed.


Lemma record_value_and_company_witness :
  column_index_from_string "C" = Some 3%positive
  /\ max_column (init labelled) = Some (get_column_letter 4)
  /\ column_index_from_string "B" = Some 2%positive
  /\ yielded (iter (init labelled) 4 "C" 1 2 3 "B" a_day) !! 1%nat
     = Some (Some "revenue"%string, Some "sales"%string, ten_days_on, 200, 7)
  /\ exists row col,
       rectangle 4 3 (sheet_max_row labelled) 4 !! 1%nat = Some (row, col)
       /\ (4 <= row <= sheet_max_row labelled)%positive
       /\ (3 <= col <= 4)%positive
       /\ rec_value (Some "revenue"%string, Some "sales"%string, ten_days_on, 200, 7)
          = as_int (cell_value labelled row col)
       /\ rec_company (Some "revenue"%string, Some "sales"%string, ten_days_on, 200, 7)
          = as_int (cell_value labelled row 2).
Proof.
  split; [reflexivity|]. split; [reflexivity|]. split; [reflexivity|].
  split; [reflexivity|].
  apply (record_value_and_company labelled 4 1 2 3 "C" "B" a_day 3 4);
    reflexivity.
Defined.

Lemma iter_ended_by_date_overflow_witness :
  (String.length "C" <= 3)%nat
  /\ column_index_from_string "C" = Some 3%positive
  /\ (String.length "B" <= 3)%nat
  /\ column_index_from_string "B" = Some 2%positive
  /\ max_column (init labelled) = Some (get_column_letter 4)
  /\ ending (iter (init labelled) 4 "C" 1 2 3 "B" (of_ordinal MAXORDINAL))
     = Some OverflowError
  /\ let k := length (yielded (iter (init labelled) 4 "C" 1 2 3 "B"
                                 (of_ordinal MAXORDINAL))) in
     let n := as_int (header_after (init labelled) 3
                        (map snd (take (S k) (rectangle 4 3 (sheet_max_row labelled) 4)))
                        None) in
     OverflowError = OverflowError
     /\ (k < length (rectangle 4 3 (sheet_max_row labelled) 4))%nat
     /\ (999999999 < Z.abs n \/ ordinal (of_ordinal MAXORDINAL) + n < 1
         \/ MAXORDINAL < ordinal (of_ordinal MAXORDINAL) + n).
Proof.
  assert (String.length "C" <= 3)%nat as Hstart by (simpl; lia).
  assert (String.length "B" <= 3)%nat as Hcompany by (simpl; lia).
  split; [exact Hstart|]. split; [reflexivity|]. split; [exact Hcompany|].
  split; [reflexivity|]. split; [reflexivity|]. split; [reflexivity|].
  apply (iter_ended_by_date_overflow labelled 4 1 2 3 "C" "B"
           (of_ordinal MAXORDINAL) 3 4 2 OverflowError
           Hstart eq_refl Hcompany eq_refl eq_refl eq_refl).
Defined.

(** ** Headers read from the column of the cell *)

Lemma header_after_snoc self hrow pre col d :
  header_after self hrow (pre ++ [col]) d
  = get_cell_value self hrow col (header_after self hrow pre d).
Proof. unfold header_after. by rewrite fold_left_app. Qed.





(** ** Quotes in the INSERT statement *)

Lemma quote_facts c :
  (code c =? 39)%N = true ->
  sql_space c = false /\ isdigit c = false /\ (code c =? 45)%N = false.
Proof. by_cases_on_char c; intros _; repeat split; reflexivity. Qed.

Lemma lex_parity (l : text) (st : lex_state) (out : list token) :
  no_comment l = true ->
  (st = LMinus -> forall c, head l = Some c -> (code c =? 45)%N = false) ->
  lex st out l = Unterminated <-> inside (in_string st) l = true.
Proof.
  revert st out. induction l as [|c l IH]; intros st out Hl Hm.
  - destruct st; simpl; split; done.
  - cbn [no_comment] in Hl. apply andb_true_iff in Hl as [Hc Hl].
    apply andb_true_iff in Hc as [Hop Hdd].
    apply negb_true_iff in Hop. apply negb_true_iff in Hdd.
    assert ((code c =? 45)%N = true ->
            forall d, head l = Some d -> (code d =? 45)%N = false) as Hnext.
    { intros Hc d Hd. rewrite Hc in Hdd. destruct l; [done|].
      injection Hd as ->. done. }
    assert (forall st' out', (st' = LMinus -> (code c =? 45)%N = true) ->
              lex st' out' l = Unterminated <-> inside (in_string st') l = true) as IH'.
    { intros st' out' Hst'. apply IH; [done|]. intros ->. apply Hnext. by apply Hst'. }
    unfold inside. cbn [fold_left]. fold (inside (if (code c =? 39)%N then negb (in_string st) else in_string st) l).
    destruct (code c =? 39)%N eqn:Hq;
      [destruct (quote_facts c Hq) as (Hq1 & Hq2 & Hq3)|];
      destruct st; cbn [lex in_string]; rewrite ?Hq, ?Hq1, ?Hq2, ?Hq3;
      repeat match goal with
      | |- context [if ?b then _ else _] =>
          lazymatch b with
          | context [if _ then _ else _] => fail
          | _ => destruct b eqn:?
          end
      end;
      try (apply IH'; done);
      try congruence.
    all: try (rewrite (Hm eq_refl c eq_refl) in *; congruence).
Qed.

Lemma inside_app b x y : inside b (x ++ y) = inside (inside b x) y.
Proof. unfold inside. apply fold_left_app. Qed.

Lemma inside_count b l : inside b l = xorb b (Nat.odd (count_quotes l)).
Proof.
  unfold inside, count_quotes. revert b. induction l as [|c l IH]; intros b; simpl.
  - by destruct b.
  - rewrite IH. destruct (code c =? 39)%N; [|done].
    cbn [length]. rewrite Nat.odd_succ, <- Nat.negb_odd.
    by destruct b, (Nat.odd _).
Qed.

Lemma count_quotes_app x y : count_quotes (x ++ y) = (count_quotes x + count_quotes y)%nat.
Proof. unfold count_quotes. by rewrite List.filter_app, length_app. Qed.

Lemma count_quotes_cons c l :
  count_quotes (c :: l)
  = ((if (code c =? 39)%N then 1 else 0) + count_quotes l)%nat.
Proof. unfold count_quotes. simpl. by destruct (code c =? 39)%N. Qed.

Lemma count_quotes_clean l : forallb clean_char l = true -> count_quotes l = 0%nat.
Proof.
  induction l as [|c l IH]; [done|]. simpl. intros [Hc Hl]%andb_true_iff.
  rewrite count_quotes_cons, IH by done.
  unfold clean_char in Hc. apply andb_true_iff in Hc as [Hc _].
  apply negb_true_iff in Hc. by rewrite Hc.
Qed.

Lemma no_comment_plain x l :
  forallb plain_char x = true -> no_comment l = true -> no_comment (x ++ l) = true.
Proof.
  intros Hx Hl. induction x as [|c x IH]; [done|].
  simpl in Hx. apply andb_true_iff in Hx as [Hc Hx].
  unfold plain_char in Hc. apply andb_true_iff in Hc as [Hop Hd].
  apply negb_true_iff in Hd.
  cbn [app no_comment]. rewrite Hop, Hd, IH by done. done.
Qed.

Lemma no_comment_dash d l :
  forallb isdigit d = true -> d <> [] ->
  no_comment (d ++ l) = true -> no_comment ("-"%char :: d ++ l) = true.
Proof.
  intros Hd Hne Hl. destruct d as [|c d]; [done|].
  simpl in Hd. apply andb_true_iff in Hd as [Hc _].
  destruct (digit_facts c Hc) as (_ & _ & Hm & _).
  cbn [app] in *.
  change (no_comment ("-"%char :: c :: d ++ l))
    with (negb (opens_unlexed "-"%char)
          && negb ((code "-"%char =? 45)%N && (code c =? 45)%N)
          && no_comment (c :: d ++ l)).
  rewrite Hm, Hl. reflexivity.
Qed.

Lemma digit_plain c : isdigit c = true -> plain_char c = true.
Proof. by_cases_on_char c. Qed.

Lemma quiet_plain c : quiet_char c = true -> plain_char c = true.
Proof.
  unfold quiet_char, plain_char. rewrite !andb_true_iff. tauto.
Qed.

Lemma no_comment_digits d l :
  forallb isdigit d = true -> no_comment l = true -> no_comment (d ++ l) = true.
Proof.
  intros Hd. apply no_comment_plain. eapply forallb_impl; [|exact Hd].
  apply digit_plain.
Qed.

Lemma no_comment_str_Z (z : Z) l :
  no_comment l = true -> no_comment (list_ascii_of_string (str z) ++ l) = true.
Proof.
  intros Hl. rewrite str_Z_text. destruct (digits_of_spec z) as (Hd & Hne & _).
  destruct (z <? 0).
  - apply no_comment_dash; [done..|]. by apply no_comment_digits.
  - by apply no_comment_digits.
Qed.

(** *** The text of a date of the calendar *)

Lemma ymd_nonneg (d : date) :
  valid d -> 0 <= (ymd d).1.1 /\ 0 <= (ymd d).1.2 /\ 0 <= (ymd d).2.
Proof.
  unfold valid, MAXORDINAL, ymd. intros Hd. cbn zeta.
  set (z := ordinal d + 305).
  set (era := z / 146097).
  set (doe := z - era * 146097).
  assert (0 <= era) as Hera by (subst era z; Z.div_mod_to_equations; lia).
  assert (0 <= doe <= 146096) as Hdoe by (subst doe era; Z.div_mod_to_equations; lia).
  clearbody doe.
  set (yoe := (doe - doe / 1460 + doe / 36524 - doe / 146096) / 365).
  assert (0 <= yoe <= 399) as Hyoe by (subst yoe; Z.div_mod_to_equations; lia).
  set (doy := doe - (365 * yoe + yoe / 4 - yoe / 100)).
  assert (0 <= doy <= 365) as Hdoy by (subst doy yoe; Z.div_mod_to_equations; lia).
  clearbody doy.
  set (mp := (5 * doy + 2) / 153).
  assert (0 <= mp <= 11) as Hmp by (subst mp; Z.div_mod_to_equations; lia).
  set (day := doy - (153 * mp + 2) / 5 + 1).
  assert (1 <= day <= 31) as Hday by (subst day mp; Z.div_mod_to_equations; lia).
  cbn [fst snd]. clearbody day mp yoe era. split; [|split; [|lia]].
  - destruct (_ <=? 2); lia.
  - destruct (Z.ltb_spec mp 10); lia.
Qed.

Lemma zfill_digits (n : nat) (z : Z) :
  0 <= z ->
  forallb isdigit (list_ascii_of_string (zfill n (str z))) = true
  /\ list_ascii_of_string (zfill n (str z)) <> [].
Proof.
  intros Hz. unfold zfill.
  rewrite list_ascii_of_string_app, list_ascii_of_string_of_list_ascii, str_Z_text.
  destruct (Z.ltb_spec z 0) as [?|_]; [lia|].
  destruct (digits_of_spec z) as (Hd & Hne & _). split.
  - rewrite forallb_app, Hd, andb_true_r.
    induction (n - _)%nat as [|k IH]; [done|]. simpl. by rewrite IH.
  - intros [_ ?]%app_eq_nil. done.
Qed.

Lemma strftime_shape (d : date) :
  valid d ->
  exists y m dd,
    list_ascii_of_string (strftime_Ymd d) = y ++ "-"%char :: m ++ "-"%char :: dd
    /\ forallb isdigit y = true
    /\ forallb isdigit m = true /\ m <> []
    /\ forallb isdigit dd = true /\ dd <> [].
Proof.
  intros Hd. destruct (ymd_nonneg d Hd) as (Hy & Hm & Hdd).
  unfold strftime_Ymd. destruct (ymd d) as [[y m] dd]. cbn [fst snd] in *.
  destruct (zfill_digits 4 y Hy) as [Hy1 _].
  destruct (zfill_digits 2 m Hm) as [Hm1 Hm2].
  destruct (zfill_digits 2 dd Hdd) as [Hd1 Hd2].
  exists (list_ascii_of_string (zfill 4 (str y))),
    (list_ascii_of_string (zfill 2 (str m))),
    (list_ascii_of_string (zfill 2 (str dd))).
  split; [|done].
  rewrite !list_ascii_of_string_app. cbn [list_ascii_of_string].
  rewrite <- ?app_assoc. reflexivity.
Qed.

Lemma no_comment_strftime (d : date) l :
  valid d -> no_comment l = true ->
  no_comment (list_ascii_of_string (strftime_Ymd d) ++ l) = true.
Proof.
  intros Hd Hl.
  destruct (strftime_shape d Hd) as (y & m & dd & -> & Hy & Hm & Hmn & Hdd & Hddn).
  rewrite <- app_assoc. apply no_comment_digits; [done|]. cbn [app].
  rewrite <- app_assoc. apply no_comment_dash; [done..|].
  apply no_comment_digits; [done|]. cbn [app].
  apply no_comment_dash; [done..|]. by apply no_comment_digits.
Qed.

(** *** The value list with any texts *)

Lemma values_sql_no_comment type name d value cid :
  quiet type = true -> quiet name = true -> valid d ->
  no_comment (list_ascii_of_string
                (ReportTable.values_sql (Some type) (Some name) d value cid)) = true.
Proof.
  intros Ht Hn Hd. rewrite values_sql_text.
  assert (forall s l, quiet s = true -> no_comment l = true ->
            no_comment (list_ascii_of_string s ++ l) = true) as Hquiet.
  { intros s l Hs. apply no_comment_plain. eapply forallb_impl; [|exact Hs].
    apply quiet_plain. }
  assert (forall n l, no_comment l = true -> no_comment (nl n ++ l) = true) as Hnl.
  { intros n l. apply no_comment_plain. unfold nl. simpl.
    induction n as [|k IH]; [done|]. simpl. exact IH. }
  assert (forall c l, plain_char c = true -> no_comment l = true ->
            no_comment (c :: l) = true) as Hcons.
  { intros c l Hc. apply (no_comment_plain [c]). simpl. by rewrite Hc. }
  apply Hnl, Hcons; [done|]. apply Hquiet; [done|]. do 2 (apply Hcons; [done|]).
  apply Hnl, Hcons; [done|]. apply Hquiet; [done|]. do 2 (apply Hcons; [done|]).
  apply Hnl, Hcons; [done|]. apply no_comment_strftime; [done|].
  do 2 (apply Hcons; [done|]).
  apply Hnl, no_comment_str_Z, Hcons; [done|].
  apply Hnl, no_comment_str_Z. done.
Qed.

Lemma values_sql_quotes type name d value cid :
  count_quotes (list_ascii_of_string
                  (ReportTable.values_sql (Some type) (Some name) d value cid))
  = (6 + (quotes type + quotes name))%nat.
Proof.
  rewrite values_sql_text. unfold quotes.
  assert (forall n, count_quotes (nl n) = 0%nat) as Hnl.
  { intros n. apply count_quotes_clean. unfold nl. simpl.
    induction n as [|k IH]; [done|]. exact IH. }
  assert (forall z : Z, count_quotes (list_ascii_of_string (str z)) = 0%nat) as Hz.
  { intros z. apply count_quotes_clean. eapply forallb_impl; [|apply (str_Z_dash_or_digit z)].
    intros c Hc. by apply dash_or_digit_facts. }
  assert (count_quotes (list_ascii_of_string (strftime_Ymd d)) = 0%nat) as Hd.
  { apply count_quotes_clean, strftime_clean. }
  repeat (rewrite ?count_quotes_app, ?count_quotes_cons, ?Hnl, ?Hz, ?Hd; cbn [app]).
  change (code quote =? 39)%N with true. change (code comma =? 39)%N with false.
  cbv iota. lia.
Qed.

Lemma insert_sql_no_nul_any table type name d value cid :
  ReportTable.has_nul table = false ->
  ReportTable.has_nul type = false -> ReportTable.has_nul name = false ->
  ReportTable.has_nul
    (ReportTable.sql
       (ReportTable.InsertValues table
          (ReportTable.values_sql (Some type) (Some name) d value cid)))
  = false.
Proof.
  intros Htable Ht Hn. unfold ReportTable.sql, ReportTable.values_sql.
  change (str (Some type)) with type. change (str (Some name)) with name.
  rewrite !has_nul_app, Htable, Ht, Hn, (clean_no_nul _ (strftime_clean d)).
  rewrite !(forallb_no_nul dash_or_digit (str _))
    by (apply str_Z_dash_or_digit || (intros c Hc; by apply dash_or_digit_facts)).
  reflexivity.
Qed.

Lemma quiet_no_nul s : quiet s = true -> ReportTable.has_nul s = false.
Proof.
  apply forallb_no_nul. intros c Hc. unfold quiet_char in Hc.
  rewrite !andb_true_iff in Hc. destruct Hc as [[[Hc _] _] _].
  by apply negb_true_iff.
Qed.

(** X11. An odd number of quotes in the type and name texts makes
    [append] raise: the last string literal of the statement never ends.
    This holds for texts without NUL, semicolon, dash and the characters
    that open a quoted identifier or a comment, for a date of the
    calendar and integers that [str()] writes. *)
Theorem append_odd_quotes_raises (self : ReportTable.t) (type name : string)
    (d : date) (value cid : Z) (rows : list (list sqlval)) :
  ReportTable.table self = "report"%string ->
  ReportTable.conn self !! "report"%string = Some rows ->
  quiet type = true -> quiet name = true -> valid d ->
  printable value = true -> printable cid = true ->
  Nat.odd (quotes type + quotes name) = true ->
  ReportTable.append self (Some type) (Some name) d value cid
  = Raise OperationalError.
Proof.
  intros Htable Hrows Ht Hn Hd _ _ Hodd.
  unfold ReportTable.append, ReportTable._execute, ReportTable.execute.
  rewrite Htable.
  rewrite insert_sql_no_nul_any by (done || by apply quiet_no_nul).
  rewrite Hrows. unfold insert_row.
  assert (lex LDefault []
            (list_ascii_of_string
               (ReportTable.values_sql (Some type) (Some name) d value cid))
          = Unterminated) as ->; [|done].
  apply lex_parity; [by apply values_sql_no_comment|done|].
  rewrite inside_count, values_sql_quotes. cbn [in_string xorb].
  rewrite Nat.odd_add. rewrite Hodd. done.
Qed.

Lemma append_odd_quotes_raises_witness :
  ReportTable.table new_report = "report"%string
  /\ ReportTable.conn new_report !! "report"%string = Some []
  /\ quiet "O'Brien" = true /\ quiet "sales" = true /\ valid a_day
  /\ printable 100 = true /\ printable 7 = true
  /\ Nat.odd (quotes "O'Brien" + quotes "sales") = true
  /\ ReportTable.append new_report
       (Some "O'Brien"%string) (Some "sales"%string) a_day 100 7
     = Raise OperationalError.
Proof.
  split; [reflexivity|]. split; [reflexivity|]. split; [reflexivity|].
  split; [reflexivity|].
  assert (valid a_day) as Hd by (unfold valid, a_day, MAXORDINAL; simpl; lia).
  split; [exact Hd|]. split; [reflexivity|]. split; [reflexivity|].
  split; [reflexivity|].
  apply (append_odd_quotes_raises new_report "O'Brien" "sales" a_day 100 7 []);
    [reflexivity|reflexivity|reflexivity|reflexivity|exact Hd
    |reflexivity|reflexivity|reflexivity].
Defined.

(** ** What [append] stores *)

(** The row of a value list whose first literal is read as the text [ty]. *)
Lemma insert_row_lexed (type name : string) (ty : text) d value cid :
  (forall out l,
     lex LDefault out (quote :: list_ascii_of_string type ++ quote :: comma :: l)
     = lex LDefault (TComma :: TString ty :: out) l) ->
  clean name = true ->
  insert_row (map ReportTable.column_affinity ReportTable.__fields)
    (ReportTable.values_sql (Some type) (Some name) d value cid)
  = Ok [SText (string_of_list_ascii ty); SText name; SText (strftime_Ymd d);
        stored_int value; stored_int cid].
Proof.
  intros Ht Hn. unfold insert_row. rewrite values_sql_text.
  rewrite lex_spaces by done. rewrite Ht.
  rewrite lex_spaces by done. rewrite lex_text by done.
  rewrite lex_spaces by done. rewrite lex_text by apply strftime_clean.
  rewrite lex_spaces by done. rewrite (proj1 (lex_integer value _ _)).
  rewrite lex_spaces by done.
  change (nl 8) with (LF :: replicate 8 " "%char ++ []).
  rewrite (proj2 (lex_integer cid _ _)).
  rewrite lex_spaces by done.
  pose proof (abs_value value) as Hv. pose proof (abs_value cid) as Hc.
  destruct (digits_of_spec value) as (_ & _ & Hdv).
  destruct (digits_of_spec cid) as (_ & _ & Hdc).
  destruct (value <? 0), (cid <? 0); cbn; rewrite ?Hdv, ?Hdc, ?Hv, ?Hc;
    by rewrite !string_of_list_ascii_of_string.
Qed.

(** A literal with two quotes in a row within it. *)
Lemma lex_text_doubled (a b : text) out l :
  forallb clean_char a = true -> forallb clean_char b = true ->
  lex LDefault out (quote :: (a ++ quote :: quote :: b) ++ quote :: comma :: l)
  = lex LDefault (TComma :: TString (a ++ quote :: b) :: out) l.
Proof.
  intros Ha Hb.
  change (lex LDefault out (quote :: ?x)) with (lex (LString []) out x).
  rewrite <- app_assoc, lex_in_string by done. cbn [app].
  change (lex (LString a) out (quote :: quote :: ?x))
    with (lex (LString (a ++ [quote])) out x).
  rewrite lex_in_string by done. rewrite <- app_assoc. reflexivity.
Qed.

(** X12. When the texts that [str()] gives for the type and the name
    have no quote and no NUL, [append] adds exactly one row, after the
    rows that the table has: the two texts ([None] gives the text None),
    the date as text and the two integers (kept as REAL when they are
    beyond 64 bits; they are integers that [str()] writes). The date is
    of the years 1000 to 9999. The other tables of the database stay as
    they are. *)
Theorem append_adds_one_row (self : ReportTable.t) (type name : option string)
    (d : date) (value cid : Z) (rows : list (list sqlval)) :
  ReportTable.table self = "report"%string ->
  ReportTable.conn self !! "report"%string = Some rows ->
  clean (str type) = true -> clean (str name) = true ->
  four_digit_year d = true ->
  printable value = true -> printable cid = true ->
  exists self',
    ReportTable.append self type name d value cid = Ok self'
    /\ ReportTable.table self' = "report"%string
    /\ ReportTable.conn self' !! "report"%string
       = Some (rows ++ [[SText (str type); SText (str name); SText (strftime_Ymd d);
                         stored_int value; stored_int cid]])
    /\ forall other, other <> "report"%string ->
         ReportTable.conn self' !! other = ReportTable.conn self !! other.
Proof.
  intros Htable Hrows Ht Hn _ _ _.
  assert (ReportTable.append self type name d value cid
          = ReportTable.append self (Some (str type)) (Some (str name)) d value cid)
    as -> by (by destruct type, name).
  eexists. split.
  - apply (append_clean self (str type) (str name) d value cid rows); try done.
    + by rewrite Htable.
    + by rewrite Htable.
  - cbn [ReportTable.conn ReportTable.table]. rewrite Htable.
    split; [done|]. split; [by rewrite lookup_insert_eq|].
    intros other Ho. by rewrite lookup_insert_ne.
Qed.

Lemma append_adds_one_row_witness :
  ReportTable.table new_report = "report"%string
  /\ ReportTable.conn new_report !! "report"%string = Some []
  /\ clean (str (None : option string)) = true
  /\ clean (str (Some "sales"%string)) = true
  /\ four_digit_year a_day = true
  /\ printable 100 = true /\ printable 7 = true
  /\ exists self',
       ReportTable.append new_report None (Some "sales"%string) a_day 100 7 = Ok self'
       /\ ReportTable.table self' = "report"%string
       /\ ReportTable.conn self' !! "report"%string
          = Some ([] ++ [[SText (str (None : option string));
                          SText (str (Some "sales"%string));
                          SText (strftime_Ymd a_day);
                          stored_int 100; stored_int 7]])
       /\ forall other, other <> "report"%string ->
            ReportTable.conn self' !! other = ReportTable.conn new_report !! other.
Proof.
  split; [reflexivity|]. split; [reflexivity|]. split; [reflexivity|].
  split; [reflexivity|]. split; [reflexivity|]. split; [reflexivity|].
  split; [reflexivity|].
  apply (append_adds_one_row new_report None (Some "sales"%string) a_day 100 7 []);
    reflexivity.
Defined.

(** X13. Two quotes in a row in the type text are stored as one: the
    statement is accepted and the row holds another text than the one
    that was appended. The other texts are without quote and NUL and the
    integers are such as [str()] writes. *)
Theorem append_doubled_quote (self : ReportTable.t) (a b name : string)
    (d : date) (value cid : Z) (rows : list (list sqlval)) :
  ReportTable.table self = "report"%string ->
  ReportTable.conn self !! "report"%string = Some rows ->
  clean a = true -> clean b = true -> clean name = true ->
  printable value = true -> printable cid = true ->
  exists self',
    ReportTable.append self (Some (a +:+ "''" +:+ b)) (Some name) d value cid
    = Ok self'
    /\ ReportTable.conn self' !! "report"%string
       = Some (rows ++ [[SText (a +:+ "'" +:+ b); SText name;
                         SText (strftime_Ymd d); stored_int value; stored_int cid]])
    /\ a +:+ "'" +:+ b <> a +:+ "''" +:+ b.
Proof.
  intros Htable Hrows Ha Hb Hn _ _.
  unfold ReportTable.append, ReportTable._execute, ReportTable.execute.
  rewrite Htable. rewrite insert_sql_no_nul_any; [|done|..|by apply clean_no_nul].
  2:{ rewrite !has_nul_app, (clean_no_nul a Ha), (clean_no_nul b Hb). done. }
  rewrite Hrows.
  rewrite (insert_row_lexed _ name
             (list_ascii_of_string a ++ quote :: list_ascii_of_string b));
    [|intros out l; rewrite !list_ascii_of_string_app;
      by apply lex_text_doubled|done].
  unfold mbind, result_bind. eexists. split; [reflexivity|].
  cbn [ReportTable.conn]. rewrite lookup_insert_eq. split.
  - do 4 f_equal.
    rewrite <- (string_of_list_ascii_of_string (a +:+ "'" +:+ b)).
    by rewrite !list_ascii_of_string_app.
  - intros H. apply (f_equal list_ascii_of_string) in H.
    rewrite !list_ascii_of_string_app in H. apply app_inv_head in H.
    apply (f_equal length) in H. rewrite !length_app in H. simpl in H. lia.
Qed.

Lemma append_doubled_quote_witness :
  ReportTable.table new_report = "report"%string
  /\ ReportTable.conn new_report !! "report"%string = Some []
  /\ clean "it" = true /\ clean "s" = true /\ clean "sales" = true
  /\ printable 100 = true /\ printable 7 = true
  /\ exists self',
       ReportTable.append new_report
         (Some ("it" +:+ "''" +:+ "s")) (Some "sales"%string) a_day 100 7
       = Ok self'
       /\ ReportTable.conn self' !! "report"%string
          = Some ([] ++ [[SText ("it" +:+ "'" +:+ "s"); SText "sales";
                          SText (strftime_Ymd a_day); stored_int 100; stored_int 7]])
       /\ "it" +:+ "'" +:+ "s" <> "it" +:+ "''" +:+ "s".
Proof.
  split; [reflexivity|]. split; [reflexivity|]. split; [reflexivity|].
  split; [reflexivity|]. split; [reflexivity|]. split; [reflexivity|].
  split; [reflexivity|].
  apply (append_doubled_quote
           new_report
           "it" "s" "sales" a_day 100 7 []); reflexivity.
Defined.

(** ** The store and the rest of the file *)










(** ** Grouping *)

Lemma filter_none {A} (p : A -> bool) (l : list A) :
  (forall x, x ∈ l -> p x = false) -> List.filter p l = [].
Proof.
  induction l as [|a l IH]; intros H; [done|]. simpl.
  rewrite (H a) by left. apply IH. intros x Hx. apply H. by right.
Qed.

Lemma filter_map_comm {A B} (p : B -> bool) (f : A -> B) (l : list A) :
  List.filter p (map f l) = map f (List.filter (fun x => p (f x)) l).
Proof.
  induction l as [|a l IH]; [done|]. simpl. destruct (p (f a)); simpl; by rewrite IH.
Qed.

Section Grouping.
Variable cols : list ReportTable.column.

Local Abbreviation keyf :=
  (fun r : list sqlval => map (fun c => ReportTable.get c r) cols).

Lemma rows_of_key_app k rows r :
  rows_of_key cols k (rows ++ [r])
  = rows_of_key cols k rows ++ (if bool_decide (keyf r = k) then [r] else []).
Proof. unfold rows_of_key. rewrite List.filter_app. simpl. by destruct (bool_decide _). Qed.

Lemma add_to_group_keys k r gs :
  map fst (ReportTable.add_to_group k r gs)
  = if bool_decide (k ∈ map fst gs) then map fst gs else map fst gs ++ [k].
Proof.
  induction gs as [|[k0 rs] gs IH]; cbn [ReportTable.add_to_group map fst].
  - rewrite bool_decide_eq_false_2; [done|]. apply not_elem_of_nil.
  - destruct (decide (k0 = k)) as [->|Hne].
    + rewrite !bool_decide_eq_true_2; [done|left|done].
    + rewrite (bool_decide_eq_false_2 (k0 = k)) by done.
      cbn [map fst]. rewrite IH.
      destruct (decide (k ∈ map fst gs)) as [Hin|Hnin].
      * rewrite !bool_decide_eq_true_2; [done|by right|done].
      * rewrite !bool_decide_eq_false_2; [done| |done].
        intros [?|?]%elem_of_cons; congruence.
Qed.

Lemma add_to_group_rows r gs seen :
  NoDup (map fst gs) ->
  Forall (fun g => g.2 <> [] /\ g.2 = rows_of_key cols g.1 seen) gs ->
  (keyf r ∉ map fst gs -> rows_of_key cols (keyf r) seen = []) ->
  Forall (fun g => g.2 <> [] /\ g.2 = rows_of_key cols g.1 (seen ++ [r]))
    (ReportTable.add_to_group (keyf r) r gs).
Proof.
  induction gs as [|[k0 rs] gs IH]; intros Hnd Hall Hnew;
    cbn [ReportTable.add_to_group].
  - apply Forall_cons. split; [|done]. cbn [fst snd]. split; [done|].
    rewrite rows_of_key_app, Hnew by apply not_elem_of_nil.
    by rewrite bool_decide_eq_true_2.
  - cbn [map fst] in Hnd. apply NoDup_cons in Hnd as [Hk0 Hnd].
    apply Forall_cons in Hall as [[Hne Hrs] Hall]. cbn [fst snd] in *.
    destruct (decide (k0 = keyf r)) as [->|Hk].
    + rewrite bool_decide_eq_true_2 by done. apply Forall_cons. split.
      * cbn [fst snd]. split; [by destruct rs|].
        rewrite rows_of_key_app, <- Hrs. by rewrite bool_decide_eq_true_2.
      * rewrite Forall_forall in Hall |- *. intros g Hg.
        destruct (Hall g Hg) as [Hg1 Hg2]. split; [done|].
        rewrite rows_of_key_app, <- Hg2.
        rewrite bool_decide_eq_false_2; [by rewrite app_nil_r|].
        intros Heq. apply Hk0. rewrite Heq.
        apply list_elem_of_In, in_map, list_elem_of_In, Hg.
    + rewrite bool_decide_eq_false_2 by done. apply Forall_cons. split.
      * cbn [fst snd]. split; [done|]. rewrite rows_of_key_app, <- Hrs.
        rewrite bool_decide_eq_false_2 by done. by rewrite app_nil_r.
      * apply IH; [done..|]. intros Hnin. apply Hnew.
        intros [Heq|?]%elem_of_cons; [by apply Hk|done].
Qed.

Lemma add_to_group_grouped r gs seen :
  grouped cols seen gs ->
  grouped cols (seen ++ [r]) (ReportTable.add_to_group (keyf r) r gs).
Proof.
  intros (Hnd & Hall & Hin). split; [|split].
  - rewrite add_to_group_keys. case_bool_decide as Hk; [done|].
    apply NoDup_app. split; [done|]. split; [|apply NoDup_singleton].
    intros k Hk1 ->%list_elem_of_singleton. done.
  - apply add_to_group_rows; [done..|]. intros Hk. apply filter_none.
    intros x Hx. apply bool_decide_eq_false_2. intros Heq. apply Hk.
    rewrite <- Heq. by apply Hin.
  - intros r' Hr'. rewrite add_to_group_keys.
    apply elem_of_app in Hr' as [Hr'| ->%list_elem_of_singleton].
    + case_bool_decide; [by apply Hin|]. apply elem_of_app. left. by apply Hin.
    + case_bool_decide; [done|]. apply elem_of_app. right. by left.
Qed.

Lemma groups_of_grouped rows gs seen :
  grouped cols seen gs -> grouped cols (seen ++ rows) (groups_of cols rows gs).
Proof.
  revert gs seen. induction rows as [|r rows IH]; intros gs seen Hg.
  - by rewrite app_nil_r.
  - cbn [groups_of fold_left]. rewrite (cons_middle r), app_assoc.
    apply (IH _ (seen ++ [r])). by apply add_to_group_grouped.
Qed.

Lemma group_rows_grouped rows :
  ReportTable.group_rows cols rows = map snd (groups_of cols rows [])
  /\ grouped cols rows (groups_of cols rows []).
Proof.
  split; [done|]. apply (groups_of_grouped rows [] []).
  split; [apply NoDup_nil_2|]. split; [done|]. intros r Hr. by apply elem_of_nil in Hr.
Qed.
End Grouping.

(** ** Sums *)

Lemma sum_int_ok (zs : list Z) (acc : Z) :
  Z.abs acc + sum_Z (map Z.abs zs) < 2 ^ 63 ->
  sum_int (map SInt zs) acc = Ok (SInt (acc + sum_Z zs)).
Proof.
  revert acc. induction zs as [|z zs IH]; intros acc; simpl.
  - intros _. by rewrite Z.add_0_r.
  - intros H.
    assert (0 <= sum_Z (map Z.abs zs)) as Hpos.
    { clear. induction zs as [|x zs IH]; simpl; lia. }
    assert (int64 (acc + z) = true) as ->.
    { unfold int64. apply andb_true_iff. split; [apply Z.leb_le|apply Z.ltb_lt]; lia. }
    rewrite IH by lia. f_equal. f_equal. lia.
Qed.

Lemma sql_sum_ints (zs : list Z) :
  zs <> [] -> sum_Z (map Z.abs zs) < 2 ^ 63 ->
  sql_sum (map SInt zs) = Ok (SInt (sum_Z zs)).
Proof.
  intros Hne H. unfold sql_sum.
  assert (List.filter not_null (map SInt zs) = map SInt zs) as ->.
  { clear. induction zs as [|z zs IH]; simpl; [done|]. by rewrite IH. }
  assert (all_int (map SInt zs) = true) as ->.
  { clear. induction zs as [|z zs IH]; simpl; [done|]. exact IH. }
  destruct zs as [|z zs]; [done|]. cbn [map]. rewrite <- (map_cons SInt).
  rewrite sum_int_ok by (simpl Z.abs; lia). done.
Qed.

Lemma sum_abs_filter (p : DataTuple -> bool) (records : list DataTuple) :
  sum_Z (map Z.abs (map rec_value (List.filter p records))) <= abs_total records.
Proof.
  unfold abs_total. induction records as [|r records IH]; simpl; [done|].
  destruct (p r); simpl; lia.
Qed.

Lemma mapR_map_of {A B C} (f : B -> result C) (h : A -> B) (g : A -> C) (l : list A) :
  Forall (fun a => f (h a) = Ok (g a)) l ->
  ReportTable.mapR f (map h l) = Ok (map g l).
Proof.
  induction 1 as [|a l Ha _ IH]; [done|]. simpl. by rewrite Ha, IH.
Qed.

Lemma NoDup_map_inj_on {A B} (f : A -> B) (l : list A) :
  (forall x y, x ∈ l -> y ∈ l -> f x = f y -> x = y) ->
  NoDup l -> NoDup (map f l).
Proof.
  intros Hinj Hnd. induction Hnd as [|a l Ha Hnd IH]; simpl; [apply NoDup_nil_2|].
  apply NoDup_cons. split.
  - intros Hin. apply list_elem_of_In, in_map_iff in Hin as (y & Hy & Hin).
    apply list_elem_of_In in Hin.
    assert (y = a) as -> by (apply Hinj; [by right|left|done]). done.
  - apply IH. intros x y Hx Hy. apply Hinj; by right.
Qed.

(** ** The report *)

Section Report.
Variable records : list DataTuple.

Local Abbreviation table_rows := (map row_of records).
Local Abbreviation groups := (groups_of report_group table_rows []).

Lemma rows_of_report_key k :
  rows_of_key report_group k table_rows
  = map row_of (List.filter (same_key k) records).
Proof. unfold rows_of_key. by rewrite filter_map_comm. Qed.

Lemma filter_head {A} (p : A -> bool) (l : list A) (a : A) (rest : list A) :
  List.filter p l = a :: rest -> a ∈ l /\ p a = true.
Proof.
  intros H. assert (In a (List.filter p l)) as Hin by (rewrite H; by left).
  apply filter_In in Hin as [Hin Hp]. split; [by apply list_elem_of_In|done].
Qed.

Lemma group_of_record g :
  g ∈ groups -> exists r, r ∈ records /\ g.1 = report_key r.
Proof.
  intros Hg. destruct (group_rows_grouped report_group table_rows) as [_ (_ & Hall & _)].
  rewrite Forall_forall in Hall. destruct (Hall g Hg) as [Hne Hrows].
  rewrite rows_of_report_key in Hrows.
  destruct (List.filter (same_key g.1) records) as [|r rest] eqn:Hf;
    [by rewrite Hrows in Hne|].
  destruct (filter_head _ _ _ _ Hf) as [Hin Hk]. exists r. split; [done|].
  unfold same_key in Hk. by apply bool_decide_eq_true_1 in Hk.
Qed.

Lemma record_has_group r :
  r ∈ records -> report_key r ∈ map fst groups.
Proof.
  intros Hr. destruct (group_rows_grouped report_group table_rows) as [_ (_ & _ & Hin)].
  apply (Hin (row_of r)). by apply list_elem_of_In, in_map, list_elem_of_In.
Qed.

Hypothesis sum_in_range : abs_total records < 2 ^ 63.

Lemma report_group_row g :
  g ∈ groups ->
  ReportTable.mapR (fun f => ReportTable.eval g.2 (ReportTable.f_expr f)) report_fields
  = Ok [nth 0 g.1 SNull; nth 1 g.1 SNull; nth 2 g.1 SNull;
        SInt (total_for records g.1)].
Proof.
  intros Hg. destruct (group_rows_grouped report_group table_rows) as [_ (_ & Hall & _)].
  rewrite Forall_forall in Hall. destruct (Hall g Hg) as [Hne Hrows].
  rewrite rows_of_report_key in Hrows. unfold total_for.
  destruct (List.filter (same_key g.1) records) as [|r rest] eqn:Hf;
    [by rewrite Hrows in Hne|].
  destruct (filter_head _ _ _ _ Hf) as [Hin Hk].
  unfold same_key in Hk. apply bool_decide_eq_true_1 in Hk.
  pose proof (sum_abs_filter (same_key g.1) records) as Hsum. rewrite Hf in Hsum.
  rewrite Hrows, <- Hk.
  cbn [report_fields ReportTable.mapR ReportTable.eval ReportTable.f_expr].
  unfold mbind, result_bind.
  assert (map (ReportTable.get ReportTable.value) (map row_of (r :: rest))
          = map SInt (map rec_value (r :: rest))) as ->.
  { rewrite !map_map. apply map_ext. done. }
  rewrite sql_sum_ints; [done|done|lia].
Qed.

Lemma report_query :
  ReportTable.query report_fields (Some report_group) table_rows
  = Ok (map (fun g => [nth 0 g.1 SNull; nth 1 g.1 SNull; nth 2 g.1 SNull;
                       SInt (total_for records g.1)]) groups).
Proof.
  change (ReportTable.query report_fields (Some report_group) table_rows)
    with (ReportTable.mapR
            (fun g => ReportTable.mapR
                        (fun f => ReportTable.eval g (ReportTable.f_expr f))
                        report_fields)
            (ReportTable.group_rows report_group table_rows)).
  destruct (group_rows_grouped report_group table_rows) as [-> _].
  apply mapR_map_of. apply Forall_forall. intros g Hg. by apply report_group_row.
Qed.

Lemma report_row_key k k' :
  length k = 3%nat -> length k' = 3%nat ->
  report_row records k = report_row records k' -> k = k'.
Proof.
  intros Hk Hk' H.
  destruct k as [|a [|b [|c [|]]]]; try done.
  destruct k' as [|a' [|b' [|c' [|]]]]; try done.
  assert (forall k, report_row records k !! "date"%string = Some (nth 0 k SNull))
    as E1 by (intros; reflexivity).
  assert (forall k, report_row records k !! "indicator"%string = Some (nth 1 k SNull))
    as E2 by (intros; reflexivity).
  assert (forall k, report_row records k !! "type"%string = Some (nth 2 k SNull))
    as E3 by (intros; reflexivity).
  pose proof (E1 [a; b; c]) as H1. pose proof (E2 [a; b; c]) as H2.
  pose proof (E3 [a; b; c]) as H3.
  rewrite H, E1 in H1. rewrite H, E2 in H2. rewrite H, E3 in H3.
  cbn in H1, H2, H3. congruence.
Qed.

Lemma report_select (report : ReportTable.t) :
  ReportTable.table report = "report"%string ->
  ReportTable.conn report !! "report"%string = Some table_rows ->
  exists rows,
    ReportTable.select report report_fields (Some report_group)
    = {| yielded := rows; ending := None |}
    /\ NoDup rows
    /\ forall row, row ∈ rows
         <-> exists r, r ∈ records /\ row = report_row records (report_key r).
Proof.
  intros Ht Hrows. exists (map (report_row records) (map fst groups)).
  split; [|split].
  - unfold ReportTable.select. rewrite Ht, Hrows.
    change (ReportTable.has_nul _) with false. cbn iota.
    rewrite report_query. f_equal. rewrite !map_map. apply map_ext. intros g.
    reflexivity.
  - apply NoDup_map_inj_on.
    + intros k k' Hk Hk'.
      apply list_elem_of_In, in_map_iff in Hk as (g & <- & Hg).
      apply list_elem_of_In, in_map_iff in Hk' as (g' & <- & Hg').
      destruct (group_of_record g (proj2 (list_elem_of_In _ _) Hg)) as (r & _ & ->).
      destruct (group_of_record g' (proj2 (list_elem_of_In _ _) Hg')) as (r' & _ & ->).
      by apply report_row_key.
    + by destruct (group_rows_grouped report_group table_rows) as [_ (Hnd & _)].
  - intros row. split.
    + intros Hrow. apply list_elem_of_In, in_map_iff in Hrow as (k & <- & Hk).
      apply in_map_iff in Hk as (g & <- & Hg).
      destruct (group_of_record g (proj2 (list_elem_of_In _ _) Hg)) as (r & Hr & ->).
      by exists r.
    + intros (r & Hr & ->). apply list_elem_of_In, in_map, list_elem_of_In.
      by apply record_has_group.
Qed.
End Report.

(** X16. The report of the script. When the generator ends without an
    exception, with records whose texts are clean, whose integers fit in
    64 bits and whose dates are of the years 1000 to 9999, and the
    magnitudes of the values add up to less than 2^63, the script yields
    one row for each distinct date text, name and type of the records,
    and no other row; the total of a row is the sum of the values of the
    records with its date, name and type. *)
Theorem main_report (ws : worksheet) (file : database) (today : date) :
  ending (iter_default (init ws) today) = None ->
  forallb storable (yielded (iter_default (init ws) today)) = true ->
  forallb (fun r => four_digit_year (rec_date r))
    (yielded (iter_default (init ws) today)) = true ->
  abs_total (yielded (iter_default (init ws) today)) < 2 ^ 63 ->
  exists rows,
    main ws file today = Ok {| yielded := rows; ending := None |}
    /\ NoDup rows
    /\ forall row, row ∈ rows
         <-> exists r, r ∈ yielded (iter_default (init ws) today)
               /\ row = report_row (yielded (iter_default (init ws) today))
                          (report_key r).
Proof.
  intros Hend Hst _ Hsum. unfold main. rewrite init_default_ok.
  unfold mbind, result_bind. rewrite Hend.
  rewrite (load_storable _ _ []); [|done|cbn; by rewrite lookup_insert_eq|done].
  cbn [ReportTable.conn ReportTable.table app].
  edestruct (report_select (yielded (iter_default (init ws) today)) Hsum)
    as (rows & Hsel & Hnd & Hrows); [| |exists rows; split; [by rewrite Hsel|done]].
  - reflexivity.
  - cbn. by rewrite lookup_insert_eq.
Qed.

Lemma main_report_witness :
  ending (iter_default (init labelled) a_day) = None
  /\ forallb storable (yielded (iter_default (init labelled) a_day)) = true
  /\ forallb (fun r => four_digit_year (rec_date r))
       (yielded (iter_default (init labelled) a_day)) = true
  /\ abs_total (yielded (iter_default (init labelled) a_day)) < 2 ^ 63
  /\ exists rows,
       main labelled old_file a_day = Ok {| yielded := rows; ending := None |}
       /\ NoDup rows
       /\ forall row, row ∈ rows
            <-> exists r, r ∈ yielded (iter_default (init labelled) a_day)
                  /\ row = report_row (yielded (iter_default (init labelled) a_day))
                             (report_key r).
Proof.
  split; [reflexivity|]. split; [reflexivity|]. split; [reflexivity|].
  split; [reflexivity|].
  apply (main_report labelled old_file a_day); reflexivity.
Defined.

(** ** Lower case *)

Lemma get_cell_value_lowered self row col d :
  (forall s, d = Some s -> lower s = s) ->
  forall s, get_cell_value self row col d = Some s -> lower s = s.
Proof.
  intros Hd s. unfold get_cell_value. destruct (_ && _); [apply Hd|].
  intros [= <-]. apply lower_idempotent.
Qed.

Lemma header_after_lowered self hrow cols d :
  (forall s, d = Some s -> lower s = s) ->
  forall s, header_after self hrow cols d = Some s -> lower s = s.
Proof.
  revert d. induction cols as [|c cols IH]; intros d Hd; [done|].
  cbn [header_after fold_left]. apply IH. by apply get_cell_value_lowered.
Qed.

(** X17. Every type and every name that the generator yields is in lower
    case (or is [None]): turning it to lower case changes nothing. *)
Theorem iter_headers_lower_case (self : t) (start_row : positive)
    (start_col : string) (type_row name_row date_row : positive)
    (company_col : string) (today : date) (r : DataTuple) (s : string) :
  r ∈ yielded (iter self start_row start_col type_row name_row date_row
                 company_col today) ->
  rec_type r = Some s \/ rec_name r = Some s ->
  lower s = s.
Proof.
  unfold iter. destruct (region self start_row start_col) as [cells|e];
    [|intros Hr; by apply elem_of_nil in Hr].
  intros [k Hk]%list_elem_of_lookup Hs.
  destruct (iter_cells_lookup _ _ _ _ _ _ _ _ _ _ Hk) as (row & col & _ & H).
  cbn zeta in H. rewrite carry_fold in H. cbn [c_type c_name] in H.
  destruct H as (Ht & Hn & _).
  destruct Hs as [Hs|Hs].
  - rewrite Ht in Hs. by apply (header_after_lowered _ _ _ None) in Hs.
  - rewrite Hn in Hs. by apply (header_after_lowered _ _ _ None) in Hs.
Qed.

Lemma iter_headers_lower_case_witness :
  (Some "revenue"%string, Some "sales"%string, ten_days_on, 100, 7)
    ∈ yielded (iter (init labelled) 4 "C" 1 2 3 "B" a_day)
  /\ (rec_type (Some "revenue"%string, Some "sales"%string, ten_days_on, 100, 7)
      = Some "revenue"%string
      \/ rec_name (Some "revenue"%string, Some "sales"%string, ten_days_on, 100, 7)
         = Some "revenue"%string)
  /\ lower "revenue" = "revenue"%string.
Proof.
  assert ((Some "revenue"%string, Some "sales"%string, ten_days_on, 100, 7)
            ∈ yielded (iter (init labelled) 4 "C" 1 2 3 "B" a_day)) as Hin.
  { apply list_elem_of_lookup. exists 0%nat. reflexivity. }
  split; [exact Hin|]. split; [left; reflexivity|].
  apply (iter_headers_lower_case (init labelled) 4 "C" 1 2 3 "B" a_day
           (Some "revenue"%string, Some "sales"%string, ten_days_on, 100, 7)
           "revenue" Hin).
  left. reflexivity.
Defined.

(** ** The script when the walk fails *)

Lemma load_after_failure (records : list DataTuple) (e : exn) (report : ReportTable.t) :
  exists e', load report records (Some e) = Raise e'.
Proof.
  revert report. induction records as [|[[[[type name] d] value] cid] records IH];
    intros report.
  - by exists e.
  - cbn [load]. destruct (ReportTable.append report _ _ _ _ _) as [report'|e'].
    + apply IH.
    + by exists e'.
Qed.

Lemma load_storable_failure (report : ReportTable.t) records rows (e : exn) :
  ReportTable.has_nul (ReportTable.table report) = false ->
  ReportTable.conn report !! ReportTable.table report = Some rows ->
  forallb storable records = true ->
  load report records (Some e) = Raise e.
Proof.
  revert report rows. induction records as [|r records IH]; intros report rows Ht Hrows Hs.
  - done.
  - simpl in Hs. apply andb_true_iff in Hs as [Hr Hs].
    destruct r as [[[[type name] d] value] cid]. unfold storable in Hr. cbn in Hr.
    destruct type as [type|]; [|done]. destruct name as [name|]; [|done].
    repeat (apply andb_true_iff in Hr as [Hr ?]).
    cbn [load]. rewrite (append_clean report type name d value cid rows) by done.
    unfold mbind, result_bind.
    apply (IH _ (rows ++ [stored_row type name d value cid]));
      [done|cbn; by rewrite lookup_insert_eq|done].
Qed.

(** X18. When the generator ends with an exception, the script does not
    come to its report: the run is ended by an exception, of an [append]
    or of the generator, and it is the one of the generator when the
    records yielded before it have clean texts and integers of 64 bits. *)
Theorem main_fails_with_walk (ws : worksheet) (file : database) (today : date)
    (e : exn) :
  ending (iter_default (init ws) today) = Some e ->
  (exists e', main ws file today = Raise e')
  /\ (forallb storable (yielded (iter_default (init ws) today)) = true ->
      main ws file today = Raise e).
Proof.
  intros He. unfold main. rewrite init_default_ok. unfold mbind, result_bind.
  rewrite He. split.
  - destruct (load_after_failure (yielded (iter_default (init ws) today)) e
                {| ReportTable.conn :=
                     <["report"%string := []]> (delete "report"%string file);
                   ReportTable.table := "report" |}) as [e' ->].
    by exists e'.
  - intros Hs. rewrite (load_storable_failure _ _ []);
      [done|done|cbn; by rewrite lookup_insert_eq|done].
Qed.

Lemma main_fails_with_walk_witness :
  ending (iter_default (init labelled) (of_ordinal MAXORDINAL)) = Some OverflowError
  /\ (exists e', main labelled old_file (of_ordinal MAXORDINAL) = Raise e')
  /\ (forallb storable (yielded (iter_default (init labelled) (of_ordinal MAXORDINAL)))
      = true ->
      main labelled old_file (of_ordinal MAXORDINAL) = Raise OverflowError).
Proof.
  split; [reflexivity|].
  apply (main_fails_with_walk labelled old_file (of_ordinal MAXORDINAL) OverflowError).
  reflexivity.
Defined.

(** ** Headers carried from the record before *)

Lemma header_after_carried self hrow (cells : list (positive * positive))
    (k : nat) (row col : positive) d :
  cells !! S k = Some (row, col) ->
  is_None (cell_value (sheet self) hrow col) && is_merged (sheet self) hrow col = true ->
  header_after self hrow (map snd (take (S (S k)) cells)) d
  = header_after self hrow (map snd (take (S k) cells)) d.
Proof.
  intros Hk Hblank. rewrite (take_S_r _ _ _ Hk), map_app. cbn [map snd].
  rewrite header_after_snoc. unfold get_cell_value. by rewrite Hblank.
Qed.

(** X19. At a cell whose header cell is a blank cell of a merged region,
    the record takes the header of the record yielded just before it,
    also when that record belongs to the row above: the types are the
    same when the cell of the type row is such a cell, and so for the
    names and for the dates. *)
Theorem record_header_carried_from_previous (self : t) (start_row : positive)
    (start_col : string) (type_row name_row date_row : positive)
    (company_col : string) (today : date)
    (cells : list (positive * positive)) (k : nat) (r r' : DataTuple)
    (row col : positive) :
  region self start_row start_col = Ok cells ->
  yielded (iter self start_row start_col type_row name_row date_row
             company_col today) !! k = Some r ->
  yielded (iter self start_row start_col type_row name_row date_row
             company_col today) !! S k = Some r' ->
  cells !! S k = Some (row, col) ->
  (is_None (cell_value (sheet self) type_row col)
     && is_merged (sheet self) type_row col = true ->
   rec_type r' = rec_type r)
  /\ (is_None (cell_value (sheet self) name_row col)
        && is_merged (sheet self) name_row col = true ->
      rec_name r' = rec_name r)
  /\ (is_None (cell_value (sheet self) date_row col)
        && is_merged (sheet self) date_row col = true ->
      rec_date r' = rec_date r).
Proof.
  unfold iter. intros -> Hr Hr' Hc.
  destruct (iter_cells_lookup _ _ _ _ _ _ _ _ _ _ Hr) as (? & ? & _ & H).
  destruct (iter_cells_lookup _ _ _ _ _ _ _ _ _ _ Hr') as (? & ? & _ & H').
  cbn zeta in H, H'. rewrite carry_fold in H, H'.
  cbn [c_type c_name c_date] in H, H'.
  destruct H as (Ht & Hn & Hd & _). destruct H' as (Ht' & Hn' & Hd' & _).
  split; [|split]; intros Hblank.
  - by rewrite Ht', Ht, (header_after_carried _ _ _ _ _ _ _ Hc Hblank).
  - by rewrite Hn', Hn, (header_after_carried _ _ _ _ _ _ _ Hc Hblank).
  - rewrite (header_after_carried _ _ _ _ _ _ _ Hc Hblank) in Hd'. congruence.
Qed.

Lemma record_header_carried_from_previous_witness :
  region (init labelled) 4 "C" = Ok [(4, 3); (4, 4)]%positive
  /\ yielded (iter (init labelled) 4 "C" 1 2 3 "B" a_day) !! 0%nat
     = Some (Some "revenue"%string, Some "sales"%string, ten_days_on, 100, 7)
  /\ yielded (iter (init labelled) 4 "C" 1 2 3 "B" a_day) !! 1%nat
     = Some (Some "revenue"%string, Some "sales"%string, ten_days_on, 200, 7)
  /\ [(4, 3); (4, 4)]%positive !! 1%nat = Some (4, 4)%positive
  /\ is_None (cell_value (sheet (init labelled)) 1 4)
       && is_merged (sheet (init labelled)) 1 4 = true
  /\ rec_type (Some "revenue"%string, Some "sales"%string, ten_days_on, 200, 7)
     = rec_type (Some "revenue"%string, Some "sales"%string, ten_days_on, 100, 7).
Proof.
  split; [reflexivity|]. split; [reflexivity|]. split; [reflexivity|].
  split; [reflexivity|]. split; [reflexivity|].
  apply (record_header_carried_from_previous (init labelled) 4 "C" 1 2 3 "B" a_day
           [(4, 3); (4, 4)]%positive 0
           (Some "revenue"%string, Some "sales"%string, ten_days_on, 100, 7)
           (Some "revenue"%string, Some "sales"%string, ten_days_on, 200, 7) 4 4);
    reflexivity.
Defined.
